(** * To-Do List App: state container and persistence adapter

    A shallow embedding of [js/storage.js] (StorageService), [js/state.js]
    (State), [js/validators.js] (Validators) and [js/utils.js] (Utils), with
    the properties of the written specification stated and settled on it,
    followed by the form handler and the window listeners of [js/main.js]
    and the theme code bundled with it, and by further properties of the
    operations read off the code.

    JavaScript values are modelled as trees.  Strings are sequences of code
    units restricted to the range 0..255; finite numbers are the integers
    (every number the program creates is a [Date.now()] reading); the
    non-finite numbers [NaN] and the two infinities are kept because the
    validation of the storage service lets them through. *)

From Stdlib Require Import String Ascii List ZArith NArith Lia Bool.
From Stdlib Require Import DecimalString DecimalFacts DecimalN.
Import ListNotations.

#[local] Set Warnings "-register-all".
#[local] Arguments String.eqb : simpl never.

Local Open Scope string_scope.
Local Open Scope list_scope.

(* ================================================================= *)
(** * JavaScript values *)

Inductive number : Type :=
| Int (z : Z)
| NaN
| PosInfinity
| NegInfinity.

Inductive value : Type :=
| VUndefined
| VNull
| VBool (b : bool)
| VNum (n : number)
| VStr (s : string)
| VArr (elems : list value)
| VObj (fields : list (string * value)).

(** The result of [typeof]. *)
Inductive jstype : Type := TUndefined | TObject | TBoolean | TNumber | TString.

Definition typeof (v : value) : jstype :=
  match v with
  | VUndefined => TUndefined
  | VNull => TObject
  | VBool _ => TBoolean
  | VNum _ => TNumber
  | VStr _ => TString
  | VArr _ => TObject
  | VObj _ => TObject
  end.

Definition jstype_eqb (a b : jstype) : bool :=
  match a, b with
  | TUndefined, TUndefined | TObject, TObject | TBoolean, TBoolean
  | TNumber, TNumber | TString, TString => true
  | _, _ => false
  end.

(** [ToBoolean]: the falsy values are [undefined], [null], [false], [0],
    [NaN] and the empty string. *)
Definition truthy (v : value) : bool :=
  match v with
  | VUndefined | VNull => false
  | VBool b => b
  | VNum (Int z) => negb (Z.eqb z 0)
  | VNum NaN => false
  | VNum _ => true
  | VStr s => negb (String.eqb s EmptyString)
  | VArr _ | VObj _ => true
  end.

Definition number_eqb (a b : number) : bool :=
  match a, b with
  | Int x, Int y => Z.eqb x y
  | PosInfinity, PosInfinity => true
  | NegInfinity, NegInfinity => true
  | _, _ => false
  end.

(** [a === b].  Objects and arrays are compared by reference in JavaScript;
    an identifier handed in by a caller is never the very object stored in a
    task, so two structured values are reported as different. *)
Definition strict_eq (a b : value) : bool :=
  match a, b with
  | VUndefined, VUndefined => true
  | VNull, VNull => true
  | VBool x, VBool y => Bool.eqb x y
  | VNum x, VNum y => number_eqb x y
  | VStr x, VStr y => String.eqb x y
  | _, _ => false
  end.

(** Association lists in insertion order stand for the own properties of an
    object. *)
Fixpoint lookup (k : string) (fs : list (string * value)) : option value :=
  match fs with
  | [] => None
  | (k', v) :: rest => if String.eqb k k' then Some v else lookup k rest
  end.

(** [o[k] = v] on the property list: an existing key keeps its position. *)
Fixpoint assign (k : string) (v : value) (fs : list (string * value))
  : list (string * value) :=
  match fs with
  | [] => [(k, v)]
  | (k', v') :: rest =>
      if String.eqb k k' then (k, v) :: rest else (k', v') :: assign k v rest
  end.

(** [v.k] for the data keys this program reads ([tasks], [filter],
    [lastSynced], [id], [title], [completed], [createdAt]): none of them is
    found on a primitive or on an array.  [None] is the [TypeError] raised
    by a property read on [null] or [undefined]. *)
Definition get (v : value) (k : string) : option value :=
  match v with
  | VUndefined | VNull => None
  | VObj fs => Some (match lookup k fs with Some x => x | None => VUndefined end)
  | _ => Some VUndefined
  end.

(** The same read where a guard has already excluded [null] and
    [undefined]. *)
Definition prop (v : value) (k : string) : value :=
  match get v k with
  | Some x => x
  | None => VUndefined
  end.

Definition isArray (v : value) : bool :=
  match v with
  | VArr _ => true
  | _ => false
  end.

(** [Array.prototype.includes] compares with SameValueZero, which differs
    from [===] only in that [NaN] is found. *)
Definition same_value_zero (a b : value) : bool :=
  match a, b with
  | VNum NaN, VNum NaN => true
  | _, _ => strict_eq a b
  end.

Definition includes (l : list value) (x : value) : bool :=
  existsb (fun y => same_value_zero y x) l.

(* ================================================================= *)
(** * Strings: trimming and decimal numerals *)

(** The code units below 256 that [String.prototype.trim] and the regular
    expression class [\s] treat as white space: TAB, LF, VT, FF, CR, SPACE
    and NBSP. *)
Definition isWhiteSpace (c : ascii) : bool :=
  match N_of_ascii c with
  | 9 | 10 | 11 | 12 | 13 | 32 | 160 => true
  | _ => false
  end%N.

Fixpoint trimStart (s : string) : string :=
  match s with
  | EmptyString => EmptyString
  | String c rest => if isWhiteSpace c then trimStart rest else s
  end.

Fixpoint trimEnd (s : string) : string :=
  match s with
  | EmptyString => EmptyString
  | String c rest =>
      match trimEnd rest with
      | EmptyString => if isWhiteSpace c then EmptyString else String c EmptyString
      | kept => String c kept
      end
  end.

Definition trim (s : string) : string := trimEnd (trimStart s).

Fixpoint allWhiteSpace (s : string) : bool :=
  match s with
  | EmptyString => true
  | String c rest => isWhiteSpace c && allWhiteSpace rest
  end.

(** [/^\s+$/.test(s)]: one or more white space characters and nothing
    else. *)
Definition matchesOnlyWhitespace (s : string) : bool :=
  match s with
  | EmptyString => false
  | _ => allWhiteSpace s
  end.

(** Decimal numeral of an integer, as [Number.prototype.toString] and
    [JSON.stringify] write it. *)
Definition decimal (z : Z) : string :=
  if (z <? 0)%Z
  then String "-" (NilEmpty.string_of_uint (N.to_uint (Z.abs_N z)))
  else NilEmpty.string_of_uint (N.to_uint (Z.to_N z)).

(* ================================================================= *)
(** * Validators ([js/validators.js]) *)

Module Validators.

Definition MAX_TITLE_LENGTH : nat := 100.
Definition MIN_TITLE_LENGTH : nat := 1.

Record validation : Type := { isValid : bool; message : string }.

Definition validateTaskTitle (title : value) : validation :=
  match title with
  | VUndefined | VNull =>
      {| isValid := false; message := "Title is required" |}
  | VStr s =>
      let trimmed := trim s in
      if Nat.ltb (String.length trimmed) MIN_TITLE_LENGTH then
        {| isValid := false; message := "Task cannot be empty" |}
      else if Nat.ltb MAX_TITLE_LENGTH (String.length trimmed) then
        {| isValid := false;
           message := "Task title must be "
                      ++ decimal (Z.of_nat MAX_TITLE_LENGTH)
                      ++ " characters or less" |}
      else if matchesOnlyWhitespace s then
        {| isValid := false; message := "Task cannot contain only whitespace" |}
      else
        {| isValid := true; message := EmptyString |}
  | _ =>
      {| isValid := false; message := "Title must be a string" |}
  end.

Definition validateFilter (filter : value) : bool :=
  let validFilters := [VStr "all"; VStr "active"; VStr "completed"] in
  includes validFilters filter.

(** [k in v], for an object or an array [v] and one of the data keys. *)
Definition hasProperty (k : string) (v : value) : bool :=
  match v with
  | VObj fs =>
      match lookup k fs with
      | Some _ => true
      | None => false
      end
  | _ => false
  end.

(** [v.length === 0], for a string [v]. *)
Definition hasLengthZero (v : value) : bool :=
  match v with
  | VStr s => Nat.eqb (String.length s) 0
  | _ => false
  end.

(** [v <= 0], for a number [v]; a comparison with [NaN] is false. *)
Definition notPositive (v : value) : bool :=
  match v with
  | VNum (Int z) => (z <=? 0)%Z
  | VNum NegInfinity => true
  | _ => false
  end.

Definition validateTaskObject (task : value) : bool :=
  if negb (truthy task) || negb (jstype_eqb (typeof task) TObject) then false
  else if negb (hasProperty "id" task)
          || negb (hasProperty "title" task)
          || negb (hasProperty "completed" task)
          || negb (hasProperty "createdAt" task)
       then false
  else if negb (jstype_eqb (typeof (prop task "id")) TString)
          || hasLengthZero (prop task "id")
       then false
  else if negb (isValid (validateTaskTitle (prop task "title"))) then false
  else if negb (jstype_eqb (typeof (prop task "completed")) TBoolean) then false
  else if negb (jstype_eqb (typeof (prop task "createdAt")) TNumber)
          || notPositive (prop task "createdAt")
       then false
  else true.

Definition validateTaskId (id : value) : bool :=
  if negb (jstype_eqb (typeof id) TString) then false
  else if hasLengthZero id then false
  else true.

End Validators.

(* ================================================================= *)
(** * Utils ([js/utils.js]) *)

Module Utils.

(** [generateUniqueId()].  The two readings it takes from its environment
    are arguments: [timestamp] is [Date.now()] and [randomSuffix] is
    [Math.random().toString(36).substr(2, 6)]. *)
Definition generateUniqueId (timestamp : Z) (randomSuffix : string) : string :=
  "task-" ++ decimal timestamp ++ "-" ++ randomSuffix.


Definition isEmptyOrWhitespace (str : value) : bool :=
  match str with
  | VStr s => Nat.eqb (String.length (trim s)) 0
  | _ => true
  end.

End Utils.

(* ================================================================= *)
(** * JSON text: the built-ins [JSON.stringify] and [JSON.parse] *)

Module JSON.

Definition dquote : ascii := "034"%char.
Definition backslash : ascii := "092"%char.

Definition hexDigit (n : N) : ascii :=
  match n with
  | 0 => "0" | 1 => "1" | 2 => "2" | 3 => "3" | 4 => "4" | 5 => "5"
  | 6 => "6" | 7 => "7" | 8 => "8" | 9 => "9" | 10 => "a" | 11 => "b"
  | 12 => "c" | 13 => "d" | 14 => "e" | _ => "f"
  end%N%char.

(** [QuoteJSONString] on one code unit. *)
Definition quoteChar (c : ascii) : string :=
  if Ascii.eqb c dquote then String backslash (String dquote EmptyString)
  else if Ascii.eqb c backslash then String backslash (String backslash EmptyString)
  else match N_of_ascii c with
       | 8 => String backslash "b"
       | 9 => String backslash "t"
       | 10 => String backslash "n"
       | 12 => String backslash "f"
       | 13 => String backslash "r"
       | n => if (n <? 32)%N
              then String backslash
                     ("u00" ++ String (hexDigit (n / 16))
                                 (String (hexDigit (n mod 16)) EmptyString))
              else String c EmptyString
       end%N.

Fixpoint quoteChars (s : string) : string :=
  match s with
  | EmptyString => EmptyString
  | String c rest => quoteChar c ++ quoteChars rest
  end.

Definition quote (s : string) : string :=
  String dquote (quoteChars s ++ String dquote EmptyString).

(** [JSON.stringify(v)]; [None] stands for the result [undefined].  A
    non-finite number is written [null], an [undefined] array element is
    written [null], and a property whose value is [undefined] is left
    out. *)
Fixpoint stringify (v : value) : option string :=
  match v with
  | VUndefined => None
  | VNull => Some "null"
  | VBool true => Some "true"
  | VBool false => Some "false"
  | VNum (Int z) => Some (decimal z)
  | VNum _ => Some "null"
  | VStr s => Some (quote s)
  | VArr elems =>
      Some ("[" ++ String.concat ","
              ((fix items (l : list value) : list string :=
                  match l with
                  | [] => []
                  | x :: rest =>
                      match stringify x with
                      | Some t => t
                      | None => "null"
                      end :: items rest
                  end) elems) ++ "]")%string
  | VObj fields =>
      Some ("{" ++ String.concat ","
              ((fix members (l : list (string * value)) : list string :=
                  match l with
                  | [] => []
                  | (k, x) :: rest =>
                      match stringify x with
                      | Some t => (quote k ++ ":" ++ t)%string :: members rest
                      | None => members rest
                      end
                  end) fields) ++ "}")%string
  end.

(** ** Reading *)

Definition isJsonSpace (c : ascii) : bool :=
  match N_of_ascii c with
  | 9 | 10 | 13 | 32 => true
  | _ => false
  end%N.

Fixpoint skipSpace (s : string) : string :=
  match s with
  | EmptyString => EmptyString
  | String c rest => if isJsonSpace c then skipSpace rest else s
  end.

Fixpoint stripPrefix (p s : string) : option string :=
  match p, s with
  | EmptyString, _ => Some s
  | String a p', String b s' => if Ascii.eqb a b then stripPrefix p' s' else None
  | String _ _, EmptyString => None
  end.

Definition digitOf (c : ascii) : option (Decimal.uint -> Decimal.uint) :=
  match N_of_ascii c with
  | 48 => Some Decimal.D0 | 49 => Some Decimal.D1 | 50 => Some Decimal.D2
  | 51 => Some Decimal.D3 | 52 => Some Decimal.D4 | 53 => Some Decimal.D5
  | 54 => Some Decimal.D6 | 55 => Some Decimal.D7 | 56 => Some Decimal.D8
  | 57 => Some Decimal.D9
  | _ => None
  end%N.

Fixpoint scanDigits (s : string) : Decimal.uint * string :=
  match s with
  | EmptyString => (Decimal.Nil, EmptyString)
  | String c rest =>
      match digitOf c with
      | Some d => let (u, r) := scanDigits rest in (d u, r)
      | None => (Decimal.Nil, s)
      end
  end.

(** A fraction or an exponent follows: the numeral denotes a number that
    need not be an integer. *)
Definition continuesNumber (s : string) : bool :=
  match s with
  | String c _ => Ascii.eqb c "." || Ascii.eqb c "e" || Ascii.eqb c "E"
  | EmptyString => false
  end.

Definition leadingZero (u : Decimal.uint) : bool :=
  match u with
  | Decimal.D0 Decimal.Nil => false
  | Decimal.D0 _ => true
  | _ => false
  end.

Definition splitSign (s : string) : bool * string :=
  match s with
  | String "-" r => (true, r)
  | _ => (false, s)
  end.

(** Integer numerals: an optional minus sign, then either a single zero or a
    non-zero digit followed by digits.  Numerals with a fraction or an
    exponent denote numbers outside the integers of this model and are not
    read, although [JSON.parse] reads them; and an integer numeral is read
    exactly, where [JSON.parse] rounds one beyond the exact range of a
    double.  The reader is therefore relied on for text that [stringify]
    wrote from plain data only; of other text, only what holds whatever the
    reader returns is stated. *)
Definition parseNumber (s : string) : option (value * string) :=
  let (negative, digits) := splitSign s in
  let (u, rest) := scanDigits digits in
  match u with
  | Decimal.Nil => None
  | _ =>
      if leadingZero u then None
      else if continuesNumber rest then None
      else
        let n := Z.of_N (N.of_uint u) in
        Some (VNum (Int (if negative then (- n)%Z else n)), rest)
  end.

Definition hexValue (c : ascii) : option N :=
  let n := N_of_ascii c in
  if ((48 <=? n) && (n <=? 57))%N then Some (n - 48)%N
  else if ((97 <=? n) && (n <=? 102))%N then Some (n - 87)%N
  else if ((65 <=? n) && (n <=? 70))%N then Some (n - 55)%N
  else None.

(** The character named by a one-letter escape. *)
Definition unescape (e : ascii) : option ascii :=
  match N_of_ascii e with
  | 34 => Some dquote
  | 92 => Some backslash
  | 47 => Some "/"%char
  | 98 => Some (ascii_of_N 8)
  | 102 => Some (ascii_of_N 12)
  | 110 => Some (ascii_of_N 10)
  | 114 => Some (ascii_of_N 13)
  | 116 => Some (ascii_of_N 9)
  | _ => None
  end%N.

(** The code unit of [\uXXXX], when it is below 256. *)
Definition unicodeEscape (h1 h2 h3 h4 : ascii) : option ascii :=
  match hexValue h1, hexValue h2, hexValue h3, hexValue h4 with
  | Some a, Some b, Some c, Some d =>
      if ((a =? 0) && (b =? 0))%N then Some (ascii_of_N (c * 16 + d)) else None
  | _, _, _, _ => None
  end.

Definition consChar (c : ascii) (r : option (string * string))
  : option (string * string) :=
  match r with
  | Some (s, rest) => Some (String c s, rest)
  | None => None
  end.

(** The characters of a string literal after its opening quote, up to and
    including the closing quote. *)
Fixpoint parseChars (s : string) : option (string * string) :=
  match s with
  | EmptyString => None
  | String c rest =>
      if Ascii.eqb c dquote then Some (EmptyString, rest)
      else if Ascii.eqb c backslash then
        match rest with
        | String e rest1 =>
            match unescape e with
            | Some c' => consChar c' (parseChars rest1)
            | None =>
                if Ascii.eqb e "u" then
                  match rest1 with
                  | String h1 (String h2 (String h3 (String h4 rest2))) =>
                      match unicodeEscape h1 h2 h3 h4 with
                      | Some c' => consChar c' (parseChars rest2)
                      | None => None
                      end
                  | _ => None
                  end
                else None
            end
        | EmptyString => None
        end
      else if (N_of_ascii c <? 32)%N then None
      else consChar c (parseChars rest)
  end.

(** Object members are installed in the order read; a repeated key keeps
    its first position and takes the last value. *)
Definition objectOf (members : list (string * value)) : list (string * value) :=
  fold_left (fun acc kv => assign (fst kv) (snd kv) acc) members [].

(** Recursive descent.  [fuel] bounds the nesting of calls; a read that
    succeeds on some fuel succeeds with the same result on the number of
    characters it consumes, so [parse] below never fails for lack of
    fuel. *)
Fixpoint parseValue (fuel : nat) (s : string) {struct fuel}
  : option (value * string) :=
  match fuel with
  | O => None
  | S fuel' =>
      match skipSpace s with
      | EmptyString => None
      | String c r =>
          if Ascii.eqb c "n" then
            match stripPrefix "ull" r with
            | Some r' => Some (VNull, r')
            | None => None
            end
          else if Ascii.eqb c "t" then
            match stripPrefix "rue" r with
            | Some r' => Some (VBool true, r')
            | None => None
            end
          else if Ascii.eqb c "f" then
            match stripPrefix "alse" r with
            | Some r' => Some (VBool false, r')
            | None => None
            end
          else if Ascii.eqb c dquote then
            match parseChars r with
            | Some (str, r') => Some (VStr str, r')
            | None => None
            end
          else if Ascii.eqb c "[" then
            match skipSpace r with
            | EmptyString => None
            | String c' r' =>
                if Ascii.eqb c' "]" then Some (VArr [], r')
                else match parseElements fuel' (String c' r') with
                     | Some (elems, rest) => Some (VArr elems, rest)
                     | None => None
                     end
            end
          else if Ascii.eqb c "{" then
            match skipSpace r with
            | EmptyString => None
            | String c' r' =>
                if Ascii.eqb c' "}" then Some (VObj [], r')
                else match parseMembers fuel' (String c' r') with
                     | Some (members, rest) => Some (VObj (objectOf members), rest)
                     | None => None
                     end
            end
          else parseNumber (String c r)
      end
  end

with parseElements (fuel : nat) (s : string) {struct fuel}
  : option (list value * string) :=
  match fuel with
  | O => None
  | S fuel' =>
      match parseValue fuel' s with
      | None => None
      | Some (v, r) =>
          match skipSpace r with
          | EmptyString => None
          | String c r' =>
              if Ascii.eqb c "," then
                match parseElements fuel' r' with
                | Some (vs, rest) => Some (v :: vs, rest)
                | None => None
                end
              else if Ascii.eqb c "]" then Some ([v], r')
              else None
          end
      end
  end

with parseMembers (fuel : nat) (s : string) {struct fuel}
  : option (list (string * value) * string) :=
  match fuel with
  | O => None
  | S fuel' =>
      match skipSpace s with
      | EmptyString => None
      | String q r =>
          if negb (Ascii.eqb q dquote) then None
          else
            match parseChars r with
            | None => None
            | Some (k, r1) =>
                match skipSpace r1 with
                | EmptyString => None
                | String colon r2 =>
                    if negb (Ascii.eqb colon ":") then None
                    else
                      match parseValue fuel' r2 with
                      | None => None
                      | Some (v, r3) =>
                          match skipSpace r3 with
                          | EmptyString => None
                          | String c r4 =>
                              if Ascii.eqb c "," then
                                match parseMembers fuel' r4 with
                                | Some (ms, rest) => Some ((k, v) :: ms, rest)
                                | None => None
                                end
                              else if Ascii.eqb c "}" then Some ([(k, v)], r4)
                              else None
                          end
                      end
                end
            end
      end
  end.

(** [JSON.parse(text)]; [None] stands for the [SyntaxError] it raises. *)
Definition parse (text : string) : option value :=
  match parseValue (S (String.length text)) text with
  | Some (v, rest) =>
      match skipSpace rest with
      | EmptyString => Some v
      | String _ _ => None
      end
  | None => None
  end.

End JSON.

(* ================================================================= *)
(** * StorageService ([js/storage.js]) *)

(** What the page can observe besides return values: console output,
    [window.dispatchEvent] of a [CustomEvent], the calls made to subscribed
    observers, and the calls made to [StorageService.save] with their
    results. *)
Inductive event : Type :=
| ConsoleWarn (msg : string)
| ConsoleError (msg : string)
| Dispatched (name : string) (detail : value)
| Notified (callback : nat) (snapshot : value)
| SaveRequested (state : value) (success : bool).

(** The browser store, as far as this program uses it: the entry under
    [STORAGE_KEY], and whether reading or writing raises (storage disabled,
    quota exhausted); a fault is the [name] of the error raised. *)
Record localStorage : Type := {
  slot : option string;
  readFault : option string;
  writeFault : option string
}.

Module StorageService.

Definition STORAGE_KEY : string := "todo-app-state".

Definition getDefaultState : value :=
  VObj [("tasks", VArr []); ("filter", VStr "all"); ("lastSynced", VNull)].

Definition isValidTask (task : value) : bool :=
  if negb (truthy task) || negb (jstype_eqb (typeof task) TObject) then false
  else if negb (jstype_eqb (typeof (prop task "id")) TString) then false
  else if negb (jstype_eqb (typeof (prop task "title")) TString) then false
  else if negb (jstype_eqb (typeof (prop task "completed")) TBoolean) then false
  else if negb (jstype_eqb (typeof (prop task "createdAt")) TNumber) then false
  else true.

Definition validFilters : list value :=
  [VStr "all"; VStr "active"; VStr "completed"].

(** The [for ... of] loop over [state.tasks], leaving at the first invalid
    task. *)
Fixpoint allTasksValid (tasks : list value) : bool :=
  match tasks with
  | [] => true
  | task :: rest => if negb (isValidTask task) then false else allTasksValid rest
  end.

Definition isValidState (state : value) : bool :=
  if negb (truthy state) || negb (jstype_eqb (typeof state) TObject) then false
  else if negb (isArray (prop state "tasks")) then false
  else if negb (includes validFilters (prop state "filter")) then false
  else if negb (strict_eq (prop state "lastSynced") VNull)
          && negb (jstype_eqb (typeof (prop state "lastSynced")) TNumber)
       then false
  else match prop state "tasks" with
       | VArr tasks => allTasksValid tasks
       | _ => false
       end.

(** [handleStorageError(error)], a [switch] on [error.name]. *)
Definition handleStorageError (name : string) : list event :=
  let detail := VObj [("error", VStr name)] in
  if String.eqb name "QuotaExceededError" then
    [ConsoleError "LocalStorage quota exceeded:";
     Dispatched "storage:quotaExceeded" detail]
  else if String.eqb name "SecurityError" then
    [ConsoleError "LocalStorage security error:";
     Dispatched "storage:securityError" detail]
  else
    [ConsoleError "Unexpected LocalStorage error:";
     Dispatched "storage:error" detail].

(** [load()]: the state returned and the diagnostics written.  Every
    exception raised inside the [try] block ends in the [catch] branch. *)
Definition load (ls : localStorage) : value * list event :=
  match readFault ls with
  | Some _ =>
      (getDefaultState, [ConsoleError "Failed to load state from LocalStorage:"])
  | None =>
      match slot ls with
      | None => (getDefaultState, [])
      | Some serialized =>
          match JSON.parse serialized with
          | None =>
              (getDefaultState,
               [ConsoleError "Failed to load state from LocalStorage:"])
          | Some state =>
              if negb (isValidState state) then
                (getDefaultState,
                 [ConsoleWarn
                    "Invalid state loaded from storage, resetting to default"])
              else (state, [])
          end
      end
  end.

(** [localStorage.setItem(STORAGE_KEY, serialized)]; the store keeps the
    string form of its argument. *)
Definition setItem (ls : localStorage) (serialized : option string)
  : localStorage :=
  {| slot := Some (match serialized with
                   | Some text => text
                   | None => "undefined"
                   end);
     readFault := readFault ls;
     writeFault := writeFault ls |}.

(** [save(state)]: the result, the store afterwards, the diagnostics. *)
Definition save (state : value) (ls : localStorage)
  : bool * localStorage * list event :=
  if negb (isValidState state) then
    (false, ls, [ConsoleError "Attempted to save invalid state"])
  else
    let serialized := JSON.stringify state in
    match writeFault ls with
    | Some name => (false, ls, handleStorageError name)
    | None => (true, setItem ls serialized, [])
    end.

(** [clear()]: the result, the store afterwards, the diagnostics.  Whether
    [localStorage.removeItem] raises is an argument, [removeFault]. *)
Definition clear (removeFault : option string) (ls : localStorage)
  : bool * localStorage * list event :=
  match removeFault with
  | Some _ => (false, ls, [ConsoleError "Failed to clear LocalStorage:"])
  | None =>
      (true,
       {| slot := None; readFault := readFault ls; writeFault := writeFault ls |},
       [])
  end.

End StorageService.

(* ================================================================= *)
(** * State ([js/state.js]) *)

(** The own enumerable properties copied by a spread [{...v}]: those of an
    object, the indexed elements of an array or of a string, and none for
    the other primitives. *)
Fixpoint indexed (i : nat) (l : list value) : list (string * value) :=
  match l with
  | [] => []
  | x :: rest => (decimal (Z.of_nat i), x) :: indexed (S i) rest
  end.

Fixpoint characters (s : string) : list value :=
  match s with
  | EmptyString => []
  | String c rest => VStr (String c EmptyString) :: characters rest
  end.

Definition ownProps (v : value) : list (string * value) :=
  match v with
  | VObj fs => fs
  | VArr l => indexed 0 l
  | VStr s => indexed 0 (characters s)
  | _ => []
  end.

(** The elements produced by a spread [[...v]]; [None] is the [TypeError]
    for a value that is not iterable. *)
Definition iterate (v : value) : option (list value) :=
  match v with
  | VArr l => Some l
  | VStr s => Some (characters s)
  | _ => None
  end.

(** [{...a, ...b}]. *)
Definition merge (a b : list (string * value)) : list (string * value) :=
  fold_left (fun acc kv => assign (fst kv) (snd kv) acc) b a.

(** [l.findIndex(p)] from position [i] on; the callback may raise. *)
Fixpoint findIndexFrom (p : value -> option bool) (i : nat) (l : list value)
  : option (option nat) :=
  match l with
  | [] => Some None
  | x :: rest =>
      match p x with
      | None => None
      | Some true => Some (Some i)
      | Some false => findIndexFrom p (S i) rest
      end
  end.

Definition findIndex (p : value -> option bool) (l : list value)
  : option (option nat) :=
  findIndexFrom p 0 l.

(** [l.filter(p)]; the callback may raise. *)
Fixpoint filterBy (p : value -> option bool) (l : list value)
  : option (list value) :=
  match l with
  | [] => Some []
  | x :: rest =>
      match p x with
      | None => None
      | Some keep =>
          match filterBy p rest with
          | None => None
          | Some kept => Some (if keep then x :: kept else kept)
          end
      end
  end.

(** [l[i] = x] for an index inside the array. *)
Fixpoint setIndex (i : nat) (x : value) (l : list value) : list value :=
  match l, i with
  | [], _ => []
  | _ :: rest, O => x :: rest
  | y :: rest, S j => y :: setIndex j x rest
  end.

Module State.

(** The module's private variables [state] and [subscribers], the browser
    store it writes to, and what has been observed so far (oldest first).
    Observers are named by a number; they are external code and are taken
    to return without calling back into the module. *)
Record world : Type := {
  state : value;
  subscribers : list nat;
  storage : localStorage;
  trace : list event
}.

(** Before [init], [state] is [null] and nobody is subscribed. *)
Definition initial (ls : localStorage) : world :=
  {| state := VNull; subscribers := []; storage := ls; trace := [] |}.

(** What one call reads from its environment: the successive readings of
    [Date.now()] and the suffix drawn from [Math.random()]. *)
Record env : Type := {
  now : nat -> Z;
  randomSuffix : string
}.

(** A call either returns or throws; either way it leaves a world. *)
Inductive outcome (A : Type) : Type :=
| Return (a : A) (w : world)
| Throw (err : string) (w : world).
Arguments Return {A} a w.
Arguments Throw {A} err w.

Definition TypeError : string := "TypeError".

Definition withState (w : world) (s : value) : world :=
  {| state := s; subscribers := subscribers w;
     storage := storage w; trace := trace w |}.

Definition emit (w : world) (evs : list event) : world :=
  {| state := state w; subscribers := subscribers w;
     storage := storage w; trace := trace w ++ evs |}.

Definition getDefaultState : value :=
  VObj [("tasks", VArr []); ("filter", VStr "all"); ("lastSynced", VNull)].

(** [Object.freeze({ ...state })]. *)
Definition getState (w : world) : value :=
  VObj (ownProps (state w)).

(** [notifySubscribers()]: every observer is called with a snapshot, in
    subscription order.  An exception raised by an observer is caught and
    logged inside the loop and does not reach the module. *)
Definition notifySubscribers (w : world) : world :=
  emit w (map (fun callback => Notified callback (getState w)) (subscribers w)).

Definition persistState (w : world) : world :=
  let '(success, ls, diagnostics) := StorageService.save (state w) (storage w) in
  {| state := state w; subscribers := subscribers w; storage := ls;
     trace := trace w ++ SaveRequested (state w) success :: diagnostics
              ++ (if negb success
                  then [ConsoleWarn "Failed to persist state to LocalStorage"]
                  else []) |}.

Definition init (w : world) : world :=
  let (loaded, diagnostics) := StorageService.load (storage w) in
  notifySubscribers (emit (withState w loaded) diagnostics).

(** The callback [task => !task.completed] and its complement. *)
Definition isActive (task : value) : option bool :=
  match get task "completed" with
  | Some c => Some (negb (truthy c))
  | None => None
  end.

Definition isCompleted (task : value) : option bool :=
  match get task "completed" with
  | Some c => Some (truthy c)
  | None => None
  end.

(** [tasks.filter(p)] on whatever [tasks] holds. *)
Definition arrayFilter (p : value -> option bool) (tasks : value)
  : option value :=
  match tasks with
  | VArr l =>
      match filterBy p l with
      | Some kept => Some (VArr kept)
      | None => None
      end
  | _ => None
  end.

(** [getFilteredTasks()]; [None] is a [TypeError]. *)
Definition getFilteredTasks (w : world) : option value :=
  match get (state w) "tasks", get (state w) "filter" with
  | Some tasks, Some filter =>
      if strict_eq filter (VStr "active") then arrayFilter isActive tasks
      else if strict_eq filter (VStr "completed") then arrayFilter isCompleted tasks
      else Some tasks
  | _, _ => None
  end.

Definition getActiveTaskCount (w : world) : option nat :=
  match get (state w) "tasks" with
  | Some (VArr l) =>
      match filterBy isActive l with
      | Some kept => Some (List.length kept)
      | None => None
      end
  | _ => None
  end.

Definition stamp (fs : list (string * value)) (t : Z) : value :=
  VObj (assign "lastSynced" (VNum (Int t)) fs).

Definition dispatch (w : world) (name : string) (detail : value) : world :=
  emit w [Dispatched name detail].

Definition setState (e : env) (newState : value) (w : world) : outcome value :=
  let w1 := withState w (stamp (ownProps newState) (now e 0)) in
  Return VUndefined (persistState (notifySubscribers w1)).

Definition updateState (e : env) (updates : value) (w : world) : outcome value :=
  let w1 := withState w (stamp (merge (ownProps (state w)) (ownProps updates))
                               (now e 0)) in
  Return VUndefined (persistState (notifySubscribers w1)).

Definition addTask (e : env) (title : value) (w : world) : outcome value :=
  let validation := Validators.validateTaskTitle title in
  if negb (Validators.isValid validation) then
    Throw (Validators.message validation) w
  else
    match title with
    | VStr s =>
        let newTask :=
          VObj [("id", VStr (Utils.generateUniqueId (now e 0) (randomSuffix e)));
                ("title", VStr (trim s));
                ("completed", VBool false);
                ("createdAt", VNum (Int (now e 1)))] in
        match get (state w) "tasks" with
        | None => Throw TypeError w
        | Some tasks =>
            match iterate tasks with
            | None => Throw TypeError w
            | Some elems =>
                let w1 :=
                  withState w
                    (stamp (assign "tasks" (VArr (elems ++ [newTask]))
                                   (ownProps (state w)))
                           (now e 2)) in
                let w2 := persistState (notifySubscribers w1) in
                Return newTask
                  (dispatch w2 "task:created" (VObj [("task", newTask)]))
            end
        end
    | _ => Throw TypeError w
    end.

(** The callback [task => task.id === taskId]. *)
Definition hasId (taskId : value) (task : value) : option bool :=
  match get task "id" with
  | Some id => Some (strict_eq id taskId)
  | None => None
  end.

(** The callback [task => task.id !== taskId]. *)
Definition hasOtherId (taskId : value) (task : value) : option bool :=
  match get task "id" with
  | Some id => Some (negb (strict_eq id taskId))
  | None => None
  end.

Definition toggleTaskCompleted (e : env) (taskId : value) (w : world)
  : outcome value :=
  match get (state w) "tasks" with
  | Some (VArr tasks) =>
      match findIndex (hasId taskId) tasks with
      | None => Throw TypeError w
      | Some None => Throw "Task not found" w
      | Some (Some taskIndex) =>
          let task := nth taskIndex tasks VUndefined in
          let completed := negb (truthy (prop task "completed")) in
          let updatedTask :=
            VObj (assign "completed" (VBool completed) (ownProps task)) in
          let newTasks := setIndex taskIndex updatedTask tasks in
          let w1 :=
            withState w
              (stamp (assign "tasks" (VArr newTasks) (ownProps (state w)))
                     (now e 0)) in
          let w2 := persistState (notifySubscribers w1) in
          Return (VBool completed)
            (dispatch w2 "task:updated" (VObj [("task", updatedTask)]))
      end
  | _ => Throw TypeError w
  end.

Definition deleteTask (e : env) (taskId : value) (w : world) : outcome value :=
  match get (state w) "tasks" with
  | Some (VArr tasks) =>
      match findIndex (hasId taskId) tasks with
      | None => Throw TypeError w
      | Some None => Throw "Task not found" w
      | Some (Some taskIndex) =>
          let deletedTask := nth taskIndex tasks VUndefined in
          match filterBy (hasOtherId taskId) tasks with
          | None => Throw TypeError w
          | Some kept =>
              let w1 :=
                withState w
                  (stamp (assign "tasks" (VArr kept) (ownProps (state w)))
                         (now e 0)) in
              let w2 := persistState (notifySubscribers w1) in
              Return VUndefined
                (dispatch w2 "task:deleted" (VObj [("task", deletedTask)]))
          end
      end
  | _ => Throw TypeError w
  end.

Definition setFilter (filter : value) (w : world) : outcome value :=
  if negb (Validators.validateFilter filter) then
    Throw "Invalid filter value" w
  else
    let w1 := withState w (VObj (assign "filter" filter (ownProps (state w)))) in
    Return VUndefined
      (dispatch (notifySubscribers w1) "filter:changed"
                (VObj [("filter", filter)])).

(** [subscribe(callback)], for a [callback] that is a function, and the
    [unsubscribe] function it returns. *)
Definition subscribe (callback : nat) (w : world) : world :=
  {| state := state w; subscribers := subscribers w ++ [callback];
     storage := storage w; trace := trace w |}.

Definition unsubscribe (callback : nat) (w : world) : world :=
  {| state := state w;
     subscribers := filter (fun sub => negb (Nat.eqb sub callback)) (subscribers w);
     storage := storage w; trace := trace w |}.

Definition clearSubscribers (w : world) : world :=
  {| state := state w; subscribers := [];
     storage := storage w; trace := trace w |}.

End State.

(* ================================================================= *)
(** * Object identity: what [getState] and [getFilteredTasks] hand out *)

(** The tree model above gives every use of a value a copy of its own.  To
    see which objects a caller of the read operations shares with the
    module, the same two functions are modelled here over a store of
    objects addressed by reference. *)
Module Heap.

Definition loc : Type := nat.

Inductive hvalue : Type :=
| HUndefined
| HNull
| HBool (b : bool)
| HNum (n : number)
| HStr (s : string)
| HRef (l : loc).

Inductive cell : Type :=
| Obj (frozen : bool) (fields : list (string * hvalue))
| Arr (elems : list hvalue).

(** Objects are never collected; a reference is an index into the store. *)
Definition heap : Type := list cell.

Definition alloc (h : heap) (c : cell) : heap * hvalue :=
  (h ++ [c], HRef (List.length h)).

Definition htruthy (v : hvalue) : bool :=
  match v with
  | HUndefined | HNull => false
  | HBool b => b
  | HNum (Int z) => negb (Z.eqb z 0)
  | HNum NaN => false
  | HNum _ => true
  | HStr s => negb (String.eqb s EmptyString)
  | HRef _ => true
  end.

Fixpoint hlookup (k : string) (fs : list (string * hvalue)) : option hvalue :=
  match fs with
  | [] => None
  | (k', v) :: rest => if String.eqb k k' then Some v else hlookup k rest
  end.

Fixpoint hassign (k : string) (v : hvalue) (fs : list (string * hvalue))
  : list (string * hvalue) :=
  match fs with
  | [] => [(k, v)]
  | (k', v') :: rest =>
      if String.eqb k k' then (k, v) :: rest else (k', v') :: hassign k v rest
  end.

(** [v.k]; [None] is the [TypeError] on [null] and [undefined]. *)
Definition field (h : heap) (v : hvalue) (k : string) : option hvalue :=
  match v with
  | HUndefined | HNull => None
  | HRef l =>
      match nth_error h l with
      | Some (Obj _ fs) =>
          Some (match hlookup k fs with Some x => x | None => HUndefined end)
      | _ => Some HUndefined
      end
  | _ => Some HUndefined
  end.

(** The properties copied by [{...v}]. *)
Definition hownProps (h : heap) (v : hvalue) : list (string * hvalue) :=
  match v with
  | HRef l =>
      match nth_error h l with
      | Some (Obj _ fs) => fs
      | _ => []
      end
  | _ => []
  end.

(** [Object.freeze({ ...state })]: a new frozen object whose properties
    hold the very values, references included, that [state] holds. *)
Definition getState (h : heap) (state : hvalue) : heap * hvalue :=
  alloc h (Obj true (hownProps h state)).

(** [tasks.filter(task => !task.completed)] when [want] is [false], and
    [tasks.filter(task => task.completed)] when it is [true]. *)
Fixpoint filterTasks (h : heap) (want : bool) (l : list hvalue)
  : option (list hvalue) :=
  match l with
  | [] => Some []
  | task :: rest =>
      match field h task "completed" with
      | None => None
      | Some c =>
          match filterTasks h want rest with
          | None => None
          | Some kept =>
              Some (if Bool.eqb (htruthy c) want then task :: kept else kept)
          end
      end
  end.

Definition arrayFilter (h : heap) (want : bool) (tasks : hvalue)
  : option (heap * hvalue) :=
  match tasks with
  | HRef l =>
      match nth_error h l with
      | Some (Arr elems) =>
          match filterTasks h want elems with
          | Some kept => Some (alloc h (Arr kept))
          | None => None
          end
      | _ => None
      end
  | _ => None
  end.

Definition isString (v : hvalue) (s : string) : bool :=
  match v with
  | HStr s' => String.eqb s' s
  | _ => false
  end.

Definition getFilteredTasks (h : heap) (state : hvalue)
  : option (heap * hvalue) :=
  match field h state "tasks", field h state "filter" with
  | Some tasks, Some filter =>
      if isString filter "active" then arrayFilter h false tasks
      else if isString filter "completed" then arrayFilter h true tasks
      else Some (h, tasks)
  | _, _ => None
  end.

(** What a holder of a reference can do to the object behind it. *)
Fixpoint replace (l : loc) (c : cell) (h : heap) : heap :=
  match h, l with
  | [], _ => []
  | _ :: rest, O => c :: rest
  | c0 :: rest, S l' => c0 :: replace l' c rest
  end.

(** [target.push(x)]. *)
Definition push (h : heap) (target : hvalue) (x : hvalue) : heap :=
  match target with
  | HRef l =>
      match nth_error h l with
      | Some (Arr elems) => replace l (Arr (elems ++ [x])) h
      | _ => h
      end
  | _ => h
  end.

(** [target.k = x]; the assignment has no effect on a frozen object. *)
Definition write (h : heap) (target : hvalue) (k : string) (x : hvalue) : heap :=
  match target with
  | HRef l =>
      match nth_error h l with
      | Some (Obj false fs) => replace l (Obj false (hassign k x fs)) h
      | _ => h
      end
  | _ => h
  end.

(** [target[0]]. *)
Definition first (h : heap) (target : hvalue) : hvalue :=
  match target with
  | HRef l =>
      match nth_error h l with
      | Some (Arr (x :: _)) => x
      | _ => HUndefined
      end
  | _ => HUndefined
  end.

(** The tree a reference denotes, read to depth [fuel]. *)
Fixpoint reify (fuel : nat) (h : heap) (v : hvalue) : value :=
  match v with
  | HUndefined => VUndefined
  | HNull => VNull
  | HBool b => VBool b
  | HNum n => VNum n
  | HStr s => VStr s
  | HRef l =>
      match fuel with
      | O => VUndefined
      | S fuel' =>
          match nth_error h l with
          | Some (Obj _ fs) =>
              VObj (map (fun kv => (fst kv, reify fuel' h (snd kv))) fs)
          | Some (Arr elems) => VArr (map (reify fuel' h) elems)
          | None => VUndefined
          end
      end
  end.

End Heap.

(* ================================================================= *)
(** * The specification's notions *)

(** The Task invariants of the data model: a non-empty string [id], a
    [title] that is not empty after trimming and has at most 100 characters
    then, a boolean [completed], a positive integer [createdAt]. *)
Definition taskInvariant (task : value) : Prop :=
  exists id title completed createdAt,
    prop task "id" = VStr id /\ id <> EmptyString /\
    prop task "title" = VStr title /\
    trim title <> EmptyString /\ String.length (trim title) <= 100 /\
    prop task "completed" = VBool completed /\
    prop task "createdAt" = VNum (Int createdAt) /\ (0 < createdAt)%Z.

Definition recognisedFilter (v : value) : Prop :=
  v = VStr "all" \/ v = VStr "active" \/ v = VStr "completed".

Definition positiveInteger (v : value) : Prop :=
  exists z, v = VNum (Int z) /\ (0 < z)%Z.

(** The validation policy as the specification words it, a missing
    [lastSynced] included. *)
Definition policyValid (s : value) : Prop :=
  (exists tasks, prop s "tasks" = VArr tasks /\ Forall taskInvariant tasks) /\
  recognisedFilter (prop s "filter") /\
  (prop s "lastSynced" = VUndefined \/ prop s "lastSynced" = VNull \/
   positiveInteger (prop s "lastSynced")).

(** The same policy with [lastSynced] present. *)
Definition policyValidSynced (s : value) : Prop :=
  (exists tasks, prop s "tasks" = VArr tasks /\ Forall taskInvariant tasks) /\
  recognisedFilter (prop s "filter") /\
  (prop s "lastSynced" = VNull \/ positiveInteger (prop s "lastSynced")).

(** The shape of a task and of a state, types only. *)
Definition typedTask (task : value) : Prop :=
  (exists fields, task = VObj fields) /\
  typeof (prop task "id") = TString /\
  typeof (prop task "title") = TString /\
  typeof (prop task "completed") = TBoolean /\
  typeof (prop task "createdAt") = TNumber.

Definition typedState (s : value) : Prop :=
  (exists fields, s = VObj fields) /\
  (exists tasks, prop s "tasks" = VArr tasks /\ Forall typedTask tasks) /\
  recognisedFilter (prop s "filter") /\
  (prop s "lastSynced" = VNull \/ typeof (prop s "lastSynced") = TNumber).

(** The selection the specification gives for each filter: [active] keeps
    the tasks with [completed == false], [completed] those with
    [completed == true], [all] every task. *)
Definition completedIs (b : bool) (task : value) : bool :=
  match prop task "completed" with
  | VBool c => Bool.eqb c b
  | _ => false
  end.

Definition selectedBy (filter : string) (task : value) : bool :=
  if String.eqb filter "active" then completedIs false task
  else if String.eqb filter "completed" then completedIs true task
  else true.

(* ================================================================= *)
(** * Sample data *)

(** A state with one task and a state whose only task has an empty title. *)
Definition oneTaskState : value :=
  VObj [("tasks", VArr [VObj [("id", VStr "task-1-abc");
                              ("title", VStr "Buy milk");
                              ("completed", VBool false);
                              ("createdAt", VNum (Int 1))]]);
        ("filter", VStr "all");
        ("lastSynced", VNull)].

Definition emptyTitleState : value :=
  VObj [("tasks", VArr [VObj [("id", VStr "task-1-abc");
                              ("title", VStr EmptyString);
                              ("completed", VBool false);
                              ("createdAt", VNum (Int 1))]]);
        ("filter", VStr "all");
        ("lastSynced", VNull)].

(** An environment whose clock advances by one millisecond per reading. *)
Definition sampleEnv : State.env :=
  {| State.now := fun k => (1709123456789 + Z.of_nat k)%Z;
     State.randomSuffix := "abc123" |}.

Definition emptyStore : localStorage :=
  {| slot := None; readFault := None; writeFault := None |}.

(** A store that is full: every write raises [QuotaExceededError]. *)
Definition fullStore : localStorage :=
  {| slot := None; readFault := None; writeFault := Some "QuotaExceededError" |}.

(** The module after [subscribe(observer 1)] and [init()], over each store. *)
Definition readyWorld : State.world :=
  State.init (State.subscribe 1 (State.initial emptyStore)).

Definition readyWorldFullStore : State.world :=
  State.init (State.subscribe 1 (State.initial fullStore)).

(** The world a call leaves behind. *)
Definition after {A : Type} (o : State.outcome A) : State.world :=
  match o with
  | State.Return _ w => w
  | State.Throw _ w => w
  end.

Definition laterEnv : State.env :=
  {| State.now := fun k => (1709123456800 + Z.of_nat k)%Z;
     State.randomSuffix := "def456" |}.

(** Scenario B: tasks "A" and "B" are added, "A" is toggled, and the filter
    is set to [active] or to [completed]. *)
Definition worldAB : State.world :=
  after (State.addTask laterEnv (VStr "B")
           (after (State.addTask sampleEnv (VStr "A") readyWorld))).

Definition idOfA : value :=
  VStr (Utils.generateUniqueId 1709123456789 "abc123").

Definition worldToggled : State.world :=
  after (State.toggleTaskCompleted laterEnv idOfA worldAB).

Definition worldActive : State.world :=
  after (State.setFilter (VStr "active") worldToggled).

Definition worldCompleted : State.world :=
  after (State.setFilter (VStr "completed") worldToggled).

Definition taskA (completed : bool) : value :=
  VObj [("id", idOfA); ("title", VStr "A"); ("completed", VBool completed);
        ("createdAt", VNum (Int 1709123456790))].

Definition taskB : value :=
  VObj [("id", VStr (Utils.generateUniqueId 1709123456800 "def456"));
        ("title", VStr "B"); ("completed", VBool false);
        ("createdAt", VNum (Int 1709123456801))].

(** An object no validation would let through: an unknown filter and two
    tasks that share an id, the second with an empty title. *)
Definition unvalidatedState : value :=
  VObj [("tasks", VArr [VObj [("id", VStr "dup"); ("title", VStr "first");
                              ("completed", VBool false);
                              ("createdAt", VNum (Int 1))];
                        VObj [("id", VStr "dup"); ("title", VStr EmptyString);
                              ("completed", VBool false);
                              ("createdAt", VNum (Int 2))]]);
        ("filter", VStr "bogus")].

(** The identifiers of the tasks of a state, in order. *)
Definition taskIds (tasks : list value) : list value :=
  map (fun task => prop task "id") tasks.

(** Every task's id is unique within [tasks]. *)
Definition uniqueIds (s : value) : Prop :=
  exists tasks, prop s "tasks" = VArr tasks /\ NoDup (taskIds tasks).



(** [oneTaskState] laid out in a store: the task at 0, the [tasks] array at
    1, the state object at 2, which the module's variable [state] refers
    to. *)
Definition sampleHeap : Heap.heap :=
  [Heap.Obj false [("id", Heap.HStr "task-1-abc");
                   ("title", Heap.HStr "Buy milk");
                   ("completed", Heap.HBool false);
                   ("createdAt", Heap.HNum (Int 1))];
   Heap.Arr [Heap.HRef 0];
   Heap.Obj false [("tasks", Heap.HRef 1);
                   ("filter", Heap.HStr "all");
                   ("lastSynced", Heap.HNull)]].

Definition sampleRoot : Heap.hvalue := Heap.HRef 2.

(** The same store with the filter set to [active]. *)
Definition activeHeap : Heap.heap :=
  Heap.write sampleHeap sampleRoot "filter" (Heap.HStr "active").

(** [v.tasks], for a [v] that is an object. *)
Definition tasksOf (h : Heap.heap) (v : Heap.hvalue) : Heap.hvalue :=
  match Heap.field h v "tasks" with
  | Some tasks => tasks
  | None => Heap.HUndefined
  end.

(** What the module's own state reads as after a caller of [getState] has
    run [snapshot.tasks.push("intruder")] and then
    [snapshot.tasks[0].completed = true]. *)
Definition tamperedState : value :=
  VObj [("tasks", VArr [VObj [("id", VStr "task-1-abc");
                              ("title", VStr "Buy milk");
                              ("completed", VBool true);
                              ("createdAt", VNum (Int 1))];
                        VStr "intruder"]);
        ("filter", VStr "all");
        ("lastSynced", VNull)].

(** Two tasks that share an id, in a state that is otherwise in order. *)
Definition duplicateState : value :=
  VObj [("tasks", VArr [VObj [("id", VStr "dup"); ("title", VStr "first");
                              ("completed", VBool false);
                              ("createdAt", VNum (Int 1))];
                        VObj [("id", VStr "dup"); ("title", VStr "second");
                              ("completed", VBool true);
                              ("createdAt", VNum (Int 2))]]);
        ("filter", VStr "all");
        ("lastSynced", VNull)].

(** A store that holds [duplicateState] as written by [JSON.stringify]. *)
Definition duplicateStore : localStorage :=
  {| slot := JSON.stringify duplicateState;
     readFault := None; writeFault := None |}.

(** An environment in which every reading of the clock falls in the same
    millisecond and [Math.random()] yields the same suffix: two calls made
    in it read the same values. *)
Definition sameInstantEnv : State.env :=
  {| State.now := fun _ => 1709123456789%Z;
     State.randomSuffix := "abc123" |}.

(** The id [addTask] is about to hand out is carried by no task yet. *)
Definition freshId (w : State.world) (e : State.env) : Prop :=
  forall tasks,
    prop (State.state w) "tasks" = VArr tasks ->
    ~ In (VStr (Utils.generateUniqueId (State.now e 0) (State.randomSuffix e)))
         (taskIds tasks).

(** No condition on the id that [addTask] draws. *)
Definition anyId (w : State.world) (e : State.env) : Prop := True.

(** One call from the rendering layer: [addTask], [toggleTaskCompleted],
    [deleteTask] or [setFilter], with any argument, returning or throwing.
    [guard] is what is assumed of the id drawn by [addTask]. *)
Inductive step (guard : State.world -> State.env -> Prop) (w : State.world)
  : State.world -> Prop :=
| step_addTask (e : State.env) (title : value) :
    guard w e -> step guard w (after (State.addTask e title w))
| step_toggleTaskCompleted (e : State.env) (taskId : value) :
    step guard w (after (State.toggleTaskCompleted e taskId w))
| step_deleteTask (e : State.env) (taskId : value) :
    step guard w (after (State.deleteTask e taskId w))
| step_setFilter (filter : value) :
    step guard w (after (State.setFilter filter w)).

Inductive reachable (guard : State.world -> State.env -> Prop) (w0 : State.world)
  : State.world -> Prop :=
| reachable_start : reachable guard w0 w0
| reachable_step (w w' : State.world) :
    reachable guard w0 w -> step guard w w' -> reachable guard w0 w'.

(** A store whose entry is the literal text of Scenario D. *)
Definition corruptedStore : localStorage :=
  {| slot := Some "not json"; readFault := None; writeFault := None |}.

(** ** Data that JSON text carries *)

Fixpoint distinctKeys (fs : list (string * value)) : bool :=
  match fs with
  | [] => true
  | (k, _) :: rest =>
      negb (existsb (fun kv => String.eqb k (fst kv)) rest) && distinctKeys rest
  end.

(** The values [JSON.stringify] writes without loss: no [undefined] and no
    non-finite number anywhere inside.  As in every JavaScript object, no
    key occurs twice in a property list. *)
Fixpoint plainData (v : value) : bool :=
  match v with
  | VUndefined => false
  | VNull | VBool _ | VStr _ => true
  | VNum (Int _) => true
  | VNum _ => false
  | VArr elems => forallb plainData elems
  | VObj fields =>
      distinctKeys fields
      && (fix members (l : list (string * value)) : bool :=
            match l with
            | [] => true
            | (_, x) :: rest => plainData x && members rest
            end) fields
  end.

(** The text of an array element and of the members of an object, as
    [JSON.stringify] lays them out. *)
Definition itemText (x : value) : string :=
  match JSON.stringify x with
  | Some t => t
  | None => "null"
  end.

Fixpoint memberTexts (fields : list (string * value)) : list string :=
  match fields with
  | [] => []
  | (k, x) :: rest =>
      match JSON.stringify x with
      | Some t => (JSON.quote k ++ ":" ++ t)%string :: memberTexts rest
      | None => memberTexts rest
      end
  end.

(** The characters a JSON value can begin with. *)
Definition startsValue (c : ascii) : Prop :=
  In c ["n"; "t"; "f"; JSON.dquote; "["; "{"; "-";
        "0"; "1"; "2"; "3"; "4"; "5"; "6"; "7"; "8"; "9"]%char.

(** What may follow a numeral: the end of the text, or a character that is
    neither a digit nor the start of a fraction or an exponent. *)
Definition endsNumber (rest : string) : bool :=
  match rest with
  | EmptyString => true
  | String c _ =>
      match JSON.digitOf c with
      | Some _ => false
      | None => negb (JSON.continuesNumber rest)
      end
  end.

(** A state with one property more than the three of the data model; its
    value is [NaN].  ([updateState({note: NaN})] builds such a state.) *)
Definition noteState : value :=
  VObj [("tasks", VArr []); ("filter", VStr "all"); ("lastSynced", VNull);
        ("note", VNum NaN)].

(** [v] is written as a text that begins like a value and that the reader,
    given fuel for its length, turns back into [v], whatever follows. *)
Definition readsBack (v : value) : Prop :=
  exists t,
    JSON.stringify v = Some t /\
    (exists c t', t = String c t' /\ startsValue c) /\
    forall n rest,
      String.length t <= n -> endsNumber rest = true ->
      JSON.parseValue n (t ++ rest) = Some (v, rest).

(** A state whose only task was created at [NaN]. *)
Definition nanTaskState : value :=
  VObj [("tasks", VArr [VObj [("id", VStr "task-1-abc");
                              ("title", VStr "Buy milk");
                              ("completed", VBool false);
                              ("createdAt", VNum NaN)]]);
        ("filter", VStr "all");
        ("lastSynced", VNull)].

(* ================================================================= *)
(** * Further notions: the task operations, read off the code *)

(** The position of the first task whose [id] is [taskId], counting from
    [i]: what [findIndex(task => task.id === taskId)] looks for. *)
Fixpoint indexOfId (taskId : value) (i : nat) (tasks : list value) : option nat :=
  match tasks with
  | [] => None
  | task :: rest =>
      if strict_eq (prop task "id") taskId then Some i
      else indexOfId taskId (S i) rest
  end.

(** The task that [toggleTaskCompleted] puts in the place of [task]. *)
Definition toggled (task : value) : value :=
  VObj (assign "completed" (VBool (negb (truthy (prop task "completed"))))
               (ownProps task)).

(** The test of [deleteTask]'s filter: [task.id !== taskId]. *)
Definition hasOtherIdb (taskId : value) (task : value) : bool :=
  negb (strict_eq (prop task "id") taskId).

(** The task [addTask] builds for a title [s] in environment [e]. *)
Definition newTaskOf (e : State.env) (s : string) : value :=
  VObj [("id", VStr (Utils.generateUniqueId (State.now e 0) (State.randomSuffix e)));
        ("title", VStr (trim s));
        ("completed", VBool false);
        ("createdAt", VNum (Int (State.now e 1)))].

(** A title that [validateTaskTitle] lets through. *)
Definition acceptableTitle (s : string) : Prop :=
  1 <= String.length (trim s) /\ String.length (trim s) <= 100.

(* ================================================================= *)
(** * The form handler of [js/main.js] *)

Module TodoApp.

(** The calls made to the rendering layer [UI]; they change the page only. *)
Inductive uiCall : Type :=
| ClearInput
| ClearInputError
| ShowInputError (message : string)
| ShowNotification (message : string) (type : string).

(** [handleTaskSubmit(e)], where [title] is the text found in the input box:
    the module afterwards and the calls made to [UI], in order.  The handler
    catches whatever [State.addTask] throws and shows its message. *)
Definition handleTaskSubmit (e : State.env) (title : string) (w : State.world)
  : State.world * list uiCall :=
  match State.addTask e (VStr title) w with
  | State.Return _ w' => (w', [ClearInput; ClearInputError])
  | State.Throw message w' => (w', [ShowInputError message])
  end.

(** [handleQuotaExceeded] and [handleStorageError]: what each shows. *)
Definition handleQuotaExceeded : list uiCall :=
  [ShowNotification
     "Storage limit reached. Some tasks may not be saved. Consider deleting old tasks."
     "warning"].

Definition handleStorageError : list uiCall :=
  [ShowNotification
     "Storage is unavailable. Your tasks will not be saved after you close the browser."
     "info"].

(** The listeners that [initEventListeners] registers on [window]: what the
    page shows in answer to one observable event.  Console output and the
    events no listener is registered for show nothing. *)
Definition windowListeners (ev : event) : list uiCall :=
  match ev with
  | Dispatched name _ =>
      (if String.eqb name "storage:quotaExceeded" then handleQuotaExceeded else [])
      ++ (if String.eqb name "storage:securityError" then handleStorageError else [])
      ++ (if String.eqb name "storage:error" then handleStorageError else [])
  | _ => []
  end.

(** What the page shows in answer to the events of a trace, in order. *)
Definition shown (evs : list event) : list uiCall :=
  flat_map windowListeners evs.

End TodoApp.

(* ================================================================= *)
(** * ThemeManager (the theme code bundled with the bootstrap file) *)

Module ThemeManager.

Definition DARK_THEME : string := "dark".
Definition LIGHT_THEME : string := "light".

(** The page as the theme code sees it: the [data-theme] attribute of the
    document element, the entry under [THEME_KEY] in the browser store, and
    whether access to the store raises. *)
Record page : Type := {
  dataTheme : option string;
  themeEntry : option string;
  storeFault : option string
}.

(** The theme code catches nothing: a call returns, or the exception raised
    by the store leaves it; either way there is a page afterwards. *)
Inductive result : Type :=
| Returned (p : page)
| Raised (p : page).

(** The truth value of what [getItem] or [getAttribute] returns: [null]
    and the empty string are falsy. *)
Definition present (a : option string) : bool :=
  match a with
  | Some s => negb (String.eqb s EmptyString)
  | None => false
  end.

(** [a || LIGHT_THEME]. *)
Definition orLight (a : option string) : string :=
  match a with
  | Some s => if present a then s else LIGHT_THEME
  | None => LIGHT_THEME
  end.

(** [getSavedTheme()]; [None] when [localStorage.getItem] raises. *)
Definition getSavedTheme (p : page) : option string :=
  match storeFault p with
  | Some _ => None
  | None => Some (orLight (themeEntry p))
  end.

(** [saveTheme(theme)]; [None] when [localStorage.setItem] raises. *)
Definition saveTheme (theme : string) (p : page) : option page :=
  match storeFault p with
  | Some _ => None
  | None =>
      Some {| dataTheme := dataTheme p; themeEntry := Some theme;
              storeFault := storeFault p |}
  end.

(** [applyTheme(theme)]: the attribute is set (and the icons swapped). *)
Definition applyTheme (theme : string) (p : page) : page :=
  {| dataTheme := Some theme; themeEntry := themeEntry p;
     storeFault := storeFault p |}.

Definition toggleTheme (p : page) : result :=
  let currentTheme := orLight (dataTheme p) in
  let newTheme :=
    if String.eqb currentTheme DARK_THEME then LIGHT_THEME else DARK_THEME in
  let p1 := applyTheme newTheme p in
  match saveTheme newTheme p1 with
  | Some p2 => Returned p2
  | None => Raised p1
  end.

(** [init()], where [prefersDark] is what the media query
    [(prefers-color-scheme: dark)] answers. *)
Definition init (prefersDark : bool) (p : page) : result :=
  match getSavedTheme p with
  | None => Raised p
  | Some savedTheme =>
      let theme :=
        if negb (String.eqb savedTheme EmptyString) then savedTheme
        else if prefersDark then DARK_THEME else LIGHT_THEME in
      Returned (applyTheme theme p)
  end.

(** The listener [init] installs for a change of the system preference. *)
Definition systemThemeChanged (matches : bool) (p : page) : result :=
  match storeFault p with
  | Some _ => Raised p
  | None =>
      if negb (present (themeEntry p))
      then Returned (applyTheme (if matches then DARK_THEME else LIGHT_THEME) p)
      else Returned p
  end.

(** The page a reload starts from: the attribute is gone, the store stays. *)
Definition reloaded (p : page) : page :=
  {| dataTheme := None; themeEntry := themeEntry p; storeFault := storeFault p |}.

End ThemeManager.

(* ================================================================= *)
(** * Further notions: calls and what observers see *)

(** The observer calls recorded in a trace, oldest first: who was called,
    and with which snapshot. *)
Fixpoint notifications (evs : list event) : list (nat * value) :=
  match evs with
  | [] => []
  | Notified callback snapshot :: rest => (callback, snapshot) :: notifications rest
  | _ :: rest => notifications rest
  end.

(** One call of a state-changing operation of the module. *)
Inductive call : Type :=
| AddTask (e : State.env) (title : value)
| ToggleTaskCompleted (e : State.env) (taskId : value)
| DeleteTask (e : State.env) (taskId : value)
| SetFilter (filter : value)
| SetState (e : State.env) (newState : value)
| UpdateState (e : State.env) (updates : value).

Definition run (c : call) (w : State.world) : State.outcome value :=
  match c with
  | AddTask e title => State.addTask e title w
  | ToggleTaskCompleted e taskId => State.toggleTaskCompleted e taskId w
  | DeleteTask e taskId => State.deleteTask e taskId w
  | SetFilter filter => State.setFilter filter w
  | SetState e newState => State.setState e newState w
  | UpdateState e updates => State.updateState e updates w
  end.

(** A sequence of calls, one after the other, each returning or throwing. *)
Definition runAll (calls : list call) (w : State.world) : State.world :=
  fold_left (fun w c => after (run c w)) calls w.

(* ================================================================= *)
(** * Properties of the validation *)

Lemma jstype_eqb_eq (a b : jstype) : jstype_eqb a b = true <-> a = b.
Proof. destruct a, b; simpl; split; congruence. Qed.

Lemma prop_tasks_object (s : value) (tasks : list value) :
  prop s "tasks" = VArr tasks -> exists fields, s = VObj fields.
Proof.
  destruct s; unfold prop; simpl; try discriminate.
  intros _. eexists. reflexivity.
Qed.

Lemma isValidTask_typed (task : value) :
  StorageService.isValidTask task = true <-> typedTask task.
Proof.
  unfold StorageService.isValidTask, typedTask.
  destruct task as [ | | b | n | s | l | fs ];
    try (simpl; split;
         [ discriminate
         | intros [[fields H] _]; discriminate ]).
  - destruct b; simpl; split; try discriminate;
      intros [[fields H] _]; discriminate.
  - destruct n as [z | | | ]; simpl; try destruct (Z.eqb z 0); simpl; split;
      try discriminate; intros [[fields H] _]; discriminate.
  - simpl. destruct (String.eqb s EmptyString); simpl; split;
      try discriminate; intros [[fields H] _]; discriminate.
  - cbn [truthy typeof negb orb jstype_eqb].
    destruct (typeof (prop (VObj fs) "id")) eqn:Hid;
    destruct (typeof (prop (VObj fs) "title")) eqn:Htitle;
    destruct (typeof (prop (VObj fs) "completed")) eqn:Hcompleted;
    destruct (typeof (prop (VObj fs) "createdAt")) eqn:Hcreated;
    simpl; split; try discriminate;
    try (intros (_ & H1 & H2 & H3 & H4); discriminate);
    intros _; repeat split; eauto.
Qed.

Lemma allTasksValid_Forall (tasks : list value) :
  StorageService.allTasksValid tasks = true <->
  Forall (fun task => StorageService.isValidTask task = true) tasks.
Proof.
  induction tasks as [ | task rest IH ]; simpl.
  - split; auto.
  - destruct (StorageService.isValidTask task) eqn:Htask; simpl.
    + rewrite IH. split; intros H.
      * constructor; assumption.
      * inversion H; assumption.
    + split; try discriminate. intros H. inversion H. congruence.
Qed.

Lemma taskInvariant_typed (task : value) : taskInvariant task -> typedTask task.
Proof.
  intros (id & title & completed & createdAt & Hid & _ & Htitle & _ & _ & Hc & Hat & _).
  unfold typedTask. rewrite Hid, Htitle, Hc, Hat. simpl.
  repeat split.
  destruct task; unfold prop in Hid; simpl in Hid; try discriminate.
  eexists. reflexivity.
Qed.

Lemma includes_validFilters (v : value) :
  includes StorageService.validFilters v = true <-> recognisedFilter v.
Proof.
  unfold includes, StorageService.validFilters, recognisedFilter. simpl.
  destruct v as [ | | b | n | s | l | fs ]; simpl;
    try (split; [ discriminate | intros [H | [H | H]]; discriminate ]).
  destruct (String.eqb_spec "all" s) as [<- | Hall]; simpl; [ tauto | ].
  destruct (String.eqb_spec "active" s) as [<- | Hactive]; simpl; [ tauto | ].
  destruct (String.eqb_spec "completed" s) as [<- | Hc]; simpl; [ tauto | ].
  split; [ discriminate | ].
  intros [H | [H | H]]; inversion H; congruence.
Qed.

(** The validation accepts exactly the states of the right shape. *)
Lemma isValidState_typed (s : value) :
  StorageService.isValidState s = true <-> typedState s.
Proof.
  unfold StorageService.isValidState, typedState.
  destruct s as [ | | b | n | str | l | fs ];
    try (simpl; split; [ discriminate | intros [[fields H] _]; discriminate ]).
  - destruct b; simpl; split; try discriminate;
      intros [[fields H] _]; discriminate.
  - destruct n as [z | | | ]; simpl; try destruct (Z.eqb z 0); simpl; split;
      try discriminate; intros [[fields H] _]; discriminate.
  - simpl. destruct (String.eqb str EmptyString); simpl; split;
      try discriminate; intros [[fields H] _]; discriminate.
  - cbn [truthy typeof negb orb jstype_eqb].
    destruct (prop (VObj fs) "tasks") as [ | | b | n | str | tasks | fs' ] eqn:Htasks;
      cbn [isArray negb];
      try (split; [ discriminate | intros (_ & (tasks & H & _) & _); discriminate ]).
    destruct (includes StorageService.validFilters (prop (VObj fs) "filter"))
      eqn:Hfilter; cbn [negb].
    2:{ split; [ discriminate | ].
        intros (_ & _ & H & _). apply includes_validFilters in H. congruence. }
    apply includes_validFilters in Hfilter.
    destruct (prop (VObj fs) "lastSynced") as [ | | b | n | str | l | fs' ]
      eqn:Hsynced; cbn [strict_eq typeof jstype_eqb negb andb];
      try (split; [ discriminate
                  | intros (_ & _ & _ & [H | H]); discriminate ]).
    + rewrite allTasksValid_Forall. split.
      * intros H. repeat split; eauto.
        exists tasks. split; [ reflexivity | ].
        eapply Forall_impl; [ | exact H ]. intros t. apply isValidTask_typed.
      * intros (_ & (tasks' & Heq & H) & _). inversion Heq; subst.
        eapply Forall_impl; [ | exact H ]. intros t. apply isValidTask_typed.
    + rewrite allTasksValid_Forall. split.
      * intros H. repeat split; eauto.
        exists tasks. split; [ reflexivity | ].
        eapply Forall_impl; [ | exact H ]. intros t. apply isValidTask_typed.
      * intros (_ & (tasks' & Heq & H) & _). inversion Heq; subst.
        eapply Forall_impl; [ | exact H ]. intros t. apply isValidTask_typed.
Qed.

Lemma policyValidSynced_typed (s : value) : policyValidSynced s -> typedState s.
Proof.
  intros ((tasks & Htasks & Hall) & Hfilter & Hsynced).
  repeat split.
  - eapply prop_tasks_object; eassumption.
  - exists tasks. split; [ assumption | ].
    eapply Forall_impl; [ | exact Hall ]. apply taskInvariant_typed.
  - assumption.
  - destruct Hsynced as [H | (z & H & _)]; [ left; assumption | right ].
    rewrite H. reflexivity.
Qed.

Lemma oneTaskState_policyValid : policyValidSynced oneTaskState.
Proof.
  repeat split.
  - eexists. split; [ reflexivity | ].
    constructor; [ | constructor ].
    exists "task-1-abc", "Buy milk", false, 1%Z.
    repeat split; try reflexivity; try discriminate.
    + vm_compute. lia.
  - left. reflexivity.
  - left. reflexivity.
Qed.

(** C1, as amended.  The validation shared by [load] and [save] accepts
    every candidate whose tasks satisfy the Task invariants, whose filter is
    recognised and whose [lastSynced] is [null] or a positive integer; it
    rejects a candidate whose [lastSynced] is missing; and whatever it
    accepts is an object with an array of tasks that are objects with a
    string [id], a string [title], a boolean [completed] and a number
    [createdAt], a recognised filter, and a [lastSynced] that is [null] or a
    number. *)
Theorem isValidState_policy (s : value) :
  (policyValidSynced s -> StorageService.isValidState s = true) /\
  (prop s "lastSynced" = VUndefined -> StorageService.isValidState s = false) /\
  (StorageService.isValidState s = true -> typedState s).
Proof.
  split; [ | split ].
  - intros H. apply isValidState_typed, policyValidSynced_typed, H.
  - intros Hmissing.
    destruct (StorageService.isValidState s) eqn:Hvalid; [ | reflexivity ].
    apply isValidState_typed in Hvalid.
    destruct Hvalid as (_ & _ & _ & [H | H]); rewrite Hmissing in H; discriminate.
  - apply isValidState_typed.
Qed.

Lemma isValidState_policy_witness :
  StorageService.isValidState oneTaskState = true /\ typedState oneTaskState.
Proof.
  destruct (isValidState_policy oneTaskState) as (Haccept & _ & Hshape).
  split.
  - apply Haccept. exact oneTaskState_policyValid.
  - apply Hshape. apply Haccept. exact oneTaskState_policyValid.
Defined.

(** C1 as stated fails: a task with an empty title is accepted. *)
Lemma isValidState_accepts_empty_title :
  ~ (StorageService.isValidState emptyTitleState = true <->
     policyValid emptyTitleState).
Proof.
  intros [Hforward _].
  assert (Haccepted : StorageService.isValidState emptyTitleState = true)
    by reflexivity.
  destruct (Hforward Haccepted) as ((tasks & Htasks & Hall) & _).
  vm_compute in Htasks. inversion Htasks; subst tasks. clear Htasks.
  inversion Hall as [ | task rest Htask _ ]; subst.
  destruct Htask as (id & title & completed & createdAt & _ & _ & Htitle & Hne & _).
  vm_compute in Htitle. inversion Htitle; subst title.
  apply Hne. reflexivity.
Qed.

(* ================================================================= *)
(** * Trimming *)

Lemma trimStart_empty (s : string) :
  trimStart s = EmptyString <-> allWhiteSpace s = true.
Proof.
  induction s as [ | c rest IH ]; simpl.
  - tauto.
  - destruct (isWhiteSpace c); simpl; [ exact IH | ].
    split; discriminate.
Qed.

Lemma trimEnd_empty (s : string) :
  trimEnd s = EmptyString <-> allWhiteSpace s = true.
Proof.
  induction s as [ | c rest IH ]; simpl.
  - tauto.
  - destruct (trimEnd rest) as [ | c' kept ].
    + destruct (isWhiteSpace c); simpl.
      * split; [ intros _; apply IH; reflexivity | reflexivity ].
      * split; discriminate.
    + split; [ discriminate | ].
      intros H. apply andb_true_iff in H. destruct H as [_ H].
      apply IH in H. discriminate.
Qed.

Lemma allWhiteSpace_trimStart (s : string) :
  allWhiteSpace (trimStart s) = true -> allWhiteSpace s = true.
Proof.
  induction s as [ | c rest IH ]; simpl; [ auto | ].
  destruct (isWhiteSpace c) eqn:Hc; simpl; [ exact IH | ].
  rewrite Hc. discriminate.
Qed.

(** A string trims to nothing exactly when it holds white space only. *)
Lemma trim_empty (s : string) :
  trim s = EmptyString <-> allWhiteSpace s = true.
Proof.
  unfold trim. rewrite trimEnd_empty. split.
  - apply allWhiteSpace_trimStart.
  - intros H. apply trimStart_empty in H. rewrite H. reflexivity.
Qed.

(* ================================================================= *)
(** * Rejection of invalid titles *)

Lemma validateTaskTitle_rejects (s : string) :
  s = EmptyString \/ allWhiteSpace s = true \/ 100 < String.length (trim s) ->
  Validators.isValid (Validators.validateTaskTitle (VStr s)) = false.
Proof.
  intros H. unfold Validators.validateTaskTitle.
  assert (Hcases : trim s = EmptyString \/ 100 < String.length (trim s)).
  { destruct H as [-> | [H | H]].
    - left. reflexivity.
    - left. apply trim_empty. assumption.
    - right. assumption. }
  destruct Hcases as [Hempty | Hlong].
  - rewrite Hempty. reflexivity.
  - destruct (Nat.ltb (String.length (trim s)) Validators.MIN_TITLE_LENGTH);
      [ reflexivity | ].
    unfold Validators.MAX_TITLE_LENGTH.
    apply Nat.ltb_lt in Hlong. rewrite Hlong. reflexivity.
Qed.

(** C8.  For a title that is empty, holds white space only, or is longer
    than 100 characters after trimming, [addTask] throws the validation
    message and leaves the module as it was: the state (tasks, filter and
    lastSynced), the subscribers, the store and everything observed so
    far. *)
Theorem addTask_rejects_invalid_title (e : State.env) (w : State.world) (s : string) :
  s = EmptyString \/ allWhiteSpace s = true \/ 100 < String.length (trim s) ->
  State.addTask e (VStr s) w
  = State.Throw (Validators.message (Validators.validateTaskTitle (VStr s))) w
  /\ Validators.message (Validators.validateTaskTitle (VStr s)) <> EmptyString.
Proof.
  intros H. pose proof (validateTaskTitle_rejects s H) as Hinvalid.
  split.
  - unfold State.addTask. rewrite Hinvalid. reflexivity.
  - unfold Validators.validateTaskTitle in *.
    destruct (Nat.ltb (String.length (trim s)) Validators.MIN_TITLE_LENGTH);
      [ discriminate | ].
    destruct (Nat.ltb Validators.MAX_TITLE_LENGTH (String.length (trim s)));
      [ discriminate | ].
    destruct (matchesOnlyWhitespace s); [ discriminate | ].
    simpl in Hinvalid. discriminate.
Qed.

Lemma addTask_rejects_invalid_title_witness :
  State.addTask sampleEnv (VStr "   ") readyWorld
  = State.Throw "Task cannot be empty" readyWorld.
Proof.
  destruct (addTask_rejects_invalid_title sampleEnv readyWorld "   ") as [H _].
  - right. left. reflexivity.
  - exact H.
Defined.

(* ================================================================= *)
(** * Filtering *)

Lemma prop_get (v x : value) (k : string) :
  prop v k = x -> x <> VUndefined -> get v k = Some x.
Proof.
  unfold prop. destruct (get v k); congruence.
Qed.

Lemma isActive_completedIs (task : value) (b : bool) :
  prop task "completed" = VBool b ->
  State.isActive task = Some (completedIs false task) /\
  State.isCompleted task = Some (completedIs true task).
Proof.
  intros Hb. unfold State.isActive, State.isCompleted, completedIs.
  rewrite (prop_get _ _ _ Hb) by discriminate. rewrite Hb.
  destruct b; split; reflexivity.
Qed.

Lemma filterBy_isActive (tasks : list value) :
  Forall (fun task => exists b, prop task "completed" = VBool b) tasks ->
  filterBy State.isActive tasks = Some (filter (completedIs false) tasks).
Proof.
  induction 1 as [ | task rest [b Hb] _ IH ]; simpl; [ reflexivity | ].
  destruct (isActive_completedIs task b Hb) as [-> _]. rewrite IH. reflexivity.
Qed.

Lemma filterBy_isCompleted (tasks : list value) :
  Forall (fun task => exists b, prop task "completed" = VBool b) tasks ->
  filterBy State.isCompleted tasks = Some (filter (completedIs true) tasks).
Proof.
  induction 1 as [ | task rest [b Hb] _ IH ]; simpl; [ reflexivity | ].
  destruct (isActive_completedIs task b Hb) as [_ ->]. rewrite IH. reflexivity.
Qed.

Lemma filter_all (tasks : list value) : filter (fun _ => true) tasks = tasks.
Proof. induction tasks as [ | t rest IH ]; simpl; congruence. Qed.

(** When every task carries a boolean [completed], [getFilteredTasks]
    returns the tasks selected by the current filter, in their order in
    [tasks]: those with [completed == false] under [active], those with
    [completed == true] under [completed], all of them under [all]. *)
Lemma getFilteredTasks_filter (w : State.world) (tasks : list value) (f : string) :
  prop (State.state w) "tasks" = VArr tasks ->
  Forall (fun task => exists b, prop task "completed" = VBool b) tasks ->
  prop (State.state w) "filter" = VStr f ->
  f = "all" \/ f = "active" \/ f = "completed" ->
  State.getFilteredTasks w = Some (VArr (filter (selectedBy f) tasks)).
Proof.
  intros Htasks Hbool Hfilter Hf.
  unfold State.getFilteredTasks.
  rewrite (prop_get _ _ _ Htasks) by discriminate.
  rewrite (prop_get _ _ _ Hfilter) by discriminate.
  destruct Hf as [-> | [-> | ->]]; cbn [strict_eq].
  - replace (String.eqb "all" "active") with false by reflexivity.
    replace (String.eqb "all" "completed") with false by reflexivity.
    unfold selectedBy.
    replace (String.eqb "all" "active") with false by reflexivity.
    replace (String.eqb "all" "completed") with false by reflexivity.
    rewrite filter_all. reflexivity.
  - replace (String.eqb "active" "active") with true by reflexivity.
    unfold State.arrayFilter. rewrite filterBy_isActive by assumption.
    reflexivity.
  - replace (String.eqb "completed" "active") with false by reflexivity.
    replace (String.eqb "completed" "completed") with true by reflexivity.
    unfold State.arrayFilter. rewrite filterBy_isCompleted by assumption.
    reflexivity.
Qed.

(** Scenario B of the specification. *)
Example scenario_B :
  State.getFilteredTasks worldActive = Some (VArr [taskB]) /\
  State.getFilteredTasks worldCompleted = Some (VArr [taskA true]) /\
  State.getFilteredTasks worldToggled = Some (VArr [taskA true; taskB]).
Proof. repeat split; vm_compute; reflexivity. Qed.

(* ================================================================= *)
(** * Property lists *)

Lemma lookup_assign_same (k : string) (v : value) (fs : list (string * value)) :
  lookup k (assign k v fs) = Some v.
Proof.
  induction fs as [ | [k' v'] rest IH ]; simpl.
  - rewrite String.eqb_refl. reflexivity.
  - destruct (String.eqb k k') eqn:Hk; simpl.
    + rewrite String.eqb_refl. reflexivity.
    + rewrite Hk. exact IH.
Qed.

Lemma lookup_assign_other (k k' : string) (v : value) (fs : list (string * value)) :
  k <> k' -> lookup k (assign k' v fs) = lookup k fs.
Proof.
  intros Hne. induction fs as [ | [k0 v0] rest IH ]; simpl.
  - apply String.eqb_neq in Hne. rewrite Hne. reflexivity.
  - destruct (String.eqb k' k0) eqn:Hk; simpl.
    + apply String.eqb_eq in Hk. subst k0.
      apply String.eqb_neq in Hne. rewrite Hne. reflexivity.
    + destruct (String.eqb k k0); [ reflexivity | exact IH ].
Qed.

Lemma prop_assign_same (k : string) (v : value) (fs : list (string * value)) :
  prop (VObj (assign k v fs)) k = v.
Proof. unfold prop. simpl. rewrite lookup_assign_same. reflexivity. Qed.

Lemma prop_assign_other (k k' : string) (v : value) (fs : list (string * value)) :
  k <> k' -> prop (VObj (assign k' v fs)) k = prop (VObj fs) k.
Proof.
  intros Hne. unfold prop. simpl. rewrite lookup_assign_other by assumption.
  reflexivity.
Qed.

Lemma prop_stamp_lastSynced (fs : list (string * value)) (t : Z) :
  prop (State.stamp fs t) "lastSynced" = VNum (Int t).
Proof. apply prop_assign_same. Qed.

Lemma prop_stamp_other (fs : list (string * value)) (t : Z) (k : string) :
  k <> "lastSynced" -> prop (State.stamp fs t) k = prop (VObj fs) k.
Proof. intros Hne. apply prop_assign_other. assumption. Qed.

(* ================================================================= *)
(** * Notification and persistence *)

Lemma state_notify (w : State.world) :
  State.state (State.notifySubscribers w) = State.state w.
Proof. reflexivity. Qed.

Lemma state_persist (w : State.world) :
  State.state (State.persistState w) = State.state w.
Proof.
  unfold State.persistState.
  destruct (StorageService.save (State.state w) (State.storage w)) as [[ok ls] evs].
  reflexivity.
Qed.

Lemma state_dispatch (w : State.world) (name : string) (detail : value) :
  State.state (State.dispatch w name detail) = State.state w.
Proof. reflexivity. Qed.

Lemma save_invalid (s : value) (ls : localStorage) :
  StorageService.isValidState s = false ->
  StorageService.save s ls
  = (false, ls, [ConsoleError "Attempted to save invalid state"]).
Proof. intros H. unfold StorageService.save. rewrite H. reflexivity. Qed.

(** When the store refuses the write, [persistState] leaves it as it was. *)
Lemma persistState_write_fault (w : State.world) (name : string) :
  writeFault (State.storage w) = Some name ->
  State.storage (State.persistState w) = State.storage w.
Proof.
  intros Hfault. unfold State.persistState, StorageService.save.
  destruct (negb (StorageService.isValidState (State.state w)));
    [ reflexivity | ].
  rewrite Hfault. reflexivity.
Qed.

(** Whenever they return, the operations on tasks have set [lastSynced] to
    the clock reading taken before the save is attempted, and left the
    store untouched if it refuses writes. *)
Lemma mutators_stamp_lastSynced (e : State.env) (w w' : State.world) (arg r : value) :
  (State.addTask e arg w = State.Return r w' ->
   prop (State.state w') "lastSynced" = VNum (Int (State.now e 2))) /\
  (State.toggleTaskCompleted e arg w = State.Return r w' ->
   prop (State.state w') "lastSynced" = VNum (Int (State.now e 0))) /\
  (State.deleteTask e arg w = State.Return r w' ->
   prop (State.state w') "lastSynced" = VNum (Int (State.now e 0))) /\
  (State.setState e arg w = State.Return r w' ->
   prop (State.state w') "lastSynced" = VNum (Int (State.now e 0))) /\
  (State.updateState e arg w = State.Return r w' ->
   prop (State.state w') "lastSynced" = VNum (Int (State.now e 0))).
Proof.
  repeat split.
  - unfold State.addTask.
    destruct (negb (Validators.isValid (Validators.validateTaskTitle arg)));
      [ discriminate | ].
    destruct arg; try discriminate.
    destruct (get (State.state w) "tasks") as [tasks | ]; [ | discriminate ].
    destruct (iterate tasks); [ | discriminate ].
    intros H. inversion H; subst.
    rewrite state_dispatch, state_persist, state_notify.
    apply prop_stamp_lastSynced.
  - unfold State.toggleTaskCompleted.
    destruct (get (State.state w) "tasks") as [[ | | | | | tasks | ] | ];
      try discriminate.
    destruct (findIndex (State.hasId arg) tasks) as [[i | ] | ];
      try discriminate.
    intros H. inversion H; subst.
    rewrite state_dispatch, state_persist, state_notify.
    apply prop_stamp_lastSynced.
  - unfold State.deleteTask.
    destruct (get (State.state w) "tasks") as [[ | | | | | tasks | ] | ];
      try discriminate.
    destruct (findIndex (State.hasId arg) tasks) as [[i | ] | ];
      try discriminate.
    destruct (filterBy (State.hasOtherId arg) tasks); [ | discriminate ].
    intros H. inversion H; subst.
    rewrite state_dispatch, state_persist, state_notify.
    apply prop_stamp_lastSynced.
  - unfold State.setState. intros H. inversion H; subst.
    rewrite state_persist, state_notify. apply prop_stamp_lastSynced.
  - unfold State.updateState. intros H. inversion H; subst.
    rewrite state_persist, state_notify. apply prop_stamp_lastSynced.
Qed.

(** C2, on the code.  For a valid filter, [setFilter] installs it, calls
    every observer with the new state and dispatches [filter:changed]; the
    storage service is not involved: the store is what it was, and the
    trace grows by the notifications and that event only, with no call to
    [StorageService.save]. *)
Theorem setFilter_does_not_save (filter : value) (w : State.world) :
  Validators.validateFilter filter = true ->
  exists w',
    State.setFilter filter w = State.Return VUndefined w' /\
    prop (State.state w') "filter" = filter /\
    State.storage w' = State.storage w /\
    State.trace w'
    = State.trace w
      ++ map (fun callback => Notified callback (State.getState w'))
             (State.subscribers w)
      ++ [Dispatched "filter:changed" (VObj [("filter", filter)])].
Proof.
  intros Hvalid. unfold State.setFilter. rewrite Hvalid. cbn [negb].
  eexists. split; [ reflexivity | ].
  split; [ apply prop_assign_same | split; [ reflexivity | ] ].
  unfold State.dispatch, State.notifySubscribers, State.emit, State.getState.
  cbn [State.state State.trace State.subscribers State.withState].
  rewrite <- List.app_assoc. reflexivity.
Qed.

Lemma setFilter_does_not_save_witness :
  exists w',
    State.setFilter (VStr "active") readyWorld = State.Return VUndefined w' /\
    prop (State.state w') "filter" = VStr "active" /\
    State.storage w' = emptyStore /\
    State.trace w'
    = [Notified 1 StorageService.getDefaultState;
       Notified 1 (VObj [("tasks", VArr []); ("filter", VStr "active");
                         ("lastSynced", VNull)]);
       Dispatched "filter:changed" (VObj [("filter", VStr "active")])].
Proof.
  destruct (setFilter_does_not_save (VStr "active") readyWorld)
    as (w' & Hcall & Hfilter & Hstore & Htrace).
  - reflexivity.
  - exists w'. split; [ exact Hcall | split; [ exact Hfilter | split ] ].
    + exact Hstore.
    + rewrite Htrace. vm_compute in Hcall. inversion Hcall. reflexivity.
Defined.

(** The sibling [addTask], from the same world, does call
    [StorageService.save] and writes the store. *)
Example addTask_saves :
  let w := after (State.addTask sampleEnv (VStr "Buy milk") readyWorld) in
  In (SaveRequested (State.state w) true) (State.trace w) /\
  slot (State.storage w) = JSON.stringify (State.state w).
Proof. vm_compute. split; [ | reflexivity ]. right. right. left. reflexivity. Qed.

Lemma persistState_fault_trace (w : State.world) (name : string) :
  writeFault (State.storage w) = Some name ->
  In (SaveRequested (State.state w) false) (State.trace (State.persistState w)).
Proof.
  intros Hfault. unfold State.persistState, StorageService.save.
  destruct (negb (StorageService.isValidState (State.state w)));
    [ | rewrite Hfault ];
    cbn [State.trace]; apply in_or_app; right; left; reflexivity.
Qed.

(** C3, on the code.  Over a store that refuses writes, an [addTask] that
    returns has set [lastSynced] to the clock reading although the save it
    requested failed and the store is what it was. *)
Theorem addTask_stamps_failed_save (e : State.env) (title task : value)
        (w w' : State.world) (name : string) :
  writeFault (State.storage w) = Some name ->
  State.addTask e title w = State.Return task w' ->
  prop (State.state w') "lastSynced" = VNum (Int (State.now e 2)) /\
  State.storage w' = State.storage w /\
  In (SaveRequested (State.state w') false) (State.trace w').
Proof.
  intros Hfault Hcall.
  split; [ apply (mutators_stamp_lastSynced e w w' title task); exact Hcall | ].
  unfold State.addTask in Hcall.
  destruct (negb (Validators.isValid (Validators.validateTaskTitle title)));
    [ discriminate | ].
  destruct title; try discriminate.
  destruct (get (State.state w) "tasks") as [tasks | ]; [ | discriminate ].
  destruct (iterate tasks) as [elems | ]; [ | discriminate ].
  inversion Hcall; subst. clear Hcall.
  split.
  - unfold State.dispatch, State.emit. cbn [State.storage].
    rewrite (persistState_write_fault _ name) by exact Hfault. reflexivity.
  - rewrite state_dispatch.
    unfold State.dispatch, State.emit. cbn [State.trace].
    apply in_or_app. left. rewrite state_persist.
    apply (persistState_fault_trace _ name). exact Hfault.
Qed.

(** At [addTask("Buy milk")] on a full store, starting with [lastSynced]
    [null]. *)
Lemma addTask_stamps_failed_save_witness :
  prop (State.state readyWorldFullStore) "lastSynced" = VNull /\
  prop (State.state
          (after (State.addTask sampleEnv (VStr "Buy milk") readyWorldFullStore)))
       "lastSynced"
  = VNum (Int 1709123456791) /\
  slot (State.storage
          (after (State.addTask sampleEnv (VStr "Buy milk") readyWorldFullStore)))
  = None.
Proof.
  destruct (addTask_stamps_failed_save
              sampleEnv (VStr "Buy milk")
              (VObj [("id", VStr "task-1709123456789-abc123");
                     ("title", VStr "Buy milk");
                     ("completed", VBool false);
                     ("createdAt", VNum (Int 1709123456790))])
              readyWorldFullStore
              (after (State.addTask sampleEnv (VStr "Buy milk") readyWorldFullStore))
              "QuotaExceededError")
    as (Hstamp & Hstore & _).
  - reflexivity.
  - vm_compute. reflexivity.
  - split; [ reflexivity | split ].
    + exact Hstamp.
    + rewrite Hstore. reflexivity.
Defined.

(** The quota diagnostic of Scenario E is dispatched on its own channel. *)
Example scenario_E :
  let w := after (State.addTask sampleEnv (VStr "Buy milk") readyWorldFullStore) in
  (exists task, prop (State.state w) "tasks" = VArr [task]) /\
  In (Dispatched "storage:quotaExceeded"
        (VObj [("error", VStr "QuotaExceededError")])) (State.trace w).
Proof.
  vm_compute. split; [ eexists; reflexivity | ].
  do 4 right. left. reflexivity.
Qed.

(* ================================================================= *)
(** * The unvalidated entry points *)





(** With a recognised filter the same object passes the validation of the
    storage service and is written to the store, duplicate id and empty
    title included. *)
Example setState_persists_duplicates :
  let newState := VObj (assign "filter" (VStr "all") (ownProps unvalidatedState)) in
  let w := after (State.setState sampleEnv newState readyWorld) in
  ~ uniqueIds (State.state w) /\
  In (SaveRequested (State.state w) true) (State.trace w) /\
  slot (State.storage w) = JSON.stringify (State.state w).
Proof.
  cbv zeta. split; [ | split ].
  - intros (tasks & Heq & Hnodup).
    vm_compute in Heq. inversion Heq; subst tasks. clear Heq.
    vm_compute in Hnodup.
    inversion Hnodup as [ | x l Hnotin _ ]; subst.
    apply Hnotin. left. reflexivity.
  - vm_compute. right. right. left. reflexivity.
  - vm_compute. reflexivity.
Qed.

(* ================================================================= *)
(** * Snapshots and sharing *)

(** On the sample store the reference model and the tree model agree on
    what [getState] returns. *)
Example heap_getState_agrees :
  let (h, snapshot) := Heap.getState sampleHeap sampleRoot in
  Heap.reify 3 sampleHeap sampleRoot = oneTaskState /\
  Heap.reify 3 h snapshot
  = State.getState {| State.state := oneTaskState; State.subscribers := [];
                      State.storage := emptyStore; State.trace := [] |}.
Proof. split; reflexivity. Qed.

Lemma nth_error_alloc (h : Heap.heap) (c : Heap.cell) :
  nth_error (h ++ [c]) (List.length h) = Some c.
Proof.
  rewrite nth_error_app2 by lia. rewrite Nat.sub_diag. reflexivity.
Qed.

(** The snapshot object is frozen: assigning to one of its properties
    changes nothing. *)
Lemma snapshot_is_frozen (h : Heap.heap) (state : Heap.hvalue) (k : string)
      (x : Heap.hvalue) :
  Heap.write (fst (Heap.getState h state)) (snd (Heap.getState h state)) k x
  = fst (Heap.getState h state).
Proof.
  unfold Heap.getState, Heap.alloc, Heap.write. cbn [fst snd].
  rewrite nth_error_alloc. reflexivity.
Qed.

(** Its properties hold the very values that the properties of [state]
    hold, references included. *)
Lemma snapshot_shares_fields (h : Heap.heap) (l : Heap.loc) (frozen : bool)
      (fs : list (string * Heap.hvalue)) (k : string) :
  nth_error h l = Some (Heap.Obj frozen fs) ->
  Heap.field (fst (Heap.getState h (Heap.HRef l)))
             (snd (Heap.getState h (Heap.HRef l))) k
  = Heap.field h (Heap.HRef l) k.
Proof.
  intros Hcell. unfold Heap.getState, Heap.alloc, Heap.field, Heap.hownProps.
  cbn [fst snd]. rewrite nth_error_alloc, Hcell. reflexivity.
Qed.

(** C5 on a state with one task.  The snapshot returned by [getState]
    holds the module's own [tasks] array, and [getFilteredTasks] returns
    that array itself under [all] and the module's own task objects under
    [active]; writing through them changes what the module's state reads as
    afterwards. *)
Theorem snapshots_share_tasks :
  (let (h1, snapshot) := Heap.getState sampleHeap sampleRoot in
   let h2 := Heap.push h1 (tasksOf h1 snapshot) (Heap.HStr "intruder") in
   let h3 := Heap.write h2 (Heap.first h2 (tasksOf h2 snapshot))
                        "completed" (Heap.HBool true) in
   tasksOf h1 snapshot = tasksOf sampleHeap sampleRoot /\
   Heap.reify 3 h1 sampleRoot = oneTaskState /\
   Heap.reify 3 h3 sampleRoot = tamperedState)
  /\
  (Heap.getFilteredTasks sampleHeap sampleRoot
   = Some (sampleHeap, tasksOf sampleHeap sampleRoot))
  /\
  (match Heap.getFilteredTasks activeHeap sampleRoot with
   | Some (h1, returned) =>
       let h2 := Heap.write h1 (Heap.first h1 returned)
                            "completed" (Heap.HBool true) in
       prop (Heap.reify 3 h1 sampleRoot) "tasks"
       = prop oneTaskState "tasks" /\
       prop (Heap.reify 3 h2 sampleRoot) "tasks"
       = VArr [VObj [("id", VStr "task-1-abc"); ("title", VStr "Buy milk");
                     ("completed", VBool true); ("createdAt", VNum (Int 1))]]
   | None => False
   end).
Proof.
  split; [ | split ].
  - vm_compute. repeat split; reflexivity.
  - vm_compute. reflexivity.
  - vm_compute. split; reflexivity.
Qed.

(* ================================================================= *)
(** * Uniqueness of task ids *)

Lemma decimal_not_id (z : Z) (k : string) :
  k = "id" \/ k = "completed" -> String.eqb k (decimal z) = false.
Proof.
  intros Hk. apply String.eqb_neq. unfold decimal.
  destruct (z <? 0)%Z.
  - destruct Hk as [-> | ->]; discriminate.
  - destruct (Z.to_N z) as [ | p ]; simpl.
    + destruct Hk as [-> | ->]; discriminate.
    + pose proof (DecimalPos.Unsigned.to_uint_nonnil p) as Hnonnil.
      destruct (Pos.to_uint p); simpl; try congruence;
        destruct Hk as [-> | ->]; discriminate.
Qed.

Lemma lookup_indexed (k : string) (i : nat) (l : list value) :
  k = "id" \/ k = "completed" -> lookup k (indexed i l) = None.
Proof.
  intros Hk. revert i. induction l as [ | x rest IH ]; intros i; simpl.
  - reflexivity.
  - rewrite decimal_not_id by assumption. apply IH.
Qed.

(** Spreading a task into a new object keeps its [id]. *)
Lemma prop_ownProps_id (task : value) :
  prop (VObj (ownProps task)) "id" = prop task "id".
Proof.
  destruct task; try reflexivity; unfold prop; simpl;
    rewrite lookup_indexed by (left; reflexivity); reflexivity.
Qed.

Lemma taskIds_setIndex (i : nat) (x : value) (tasks : list value) :
  prop x "id" = prop (nth i tasks VUndefined) "id" ->
  taskIds (setIndex i x tasks) = taskIds tasks.
Proof.
  revert i. induction tasks as [ | y rest IH ]; intros i Hid.
  - destruct i; reflexivity.
  - destruct i as [ | j ]; simpl in *.
    + rewrite Hid. reflexivity.
    + rewrite IH by assumption. reflexivity.
Qed.

Lemma filterBy_taskIds (p : value -> option bool) (tasks kept : list value) :
  filterBy p tasks = Some kept ->
  (forall id, In id (taskIds kept) -> In id (taskIds tasks)) /\
  (NoDup (taskIds tasks) -> NoDup (taskIds kept)).
Proof.
  revert kept. induction tasks as [ | x rest IH ]; intros kept Hkept; simpl in Hkept.
  - inversion Hkept; subst. split; auto.
  - destruct (p x) as [keep | ]; [ | discriminate ].
    destruct (filterBy p rest) as [kept' | ]; [ | discriminate ].
    inversion Hkept; subst kept. clear Hkept.
    destruct (IH kept' eq_refl) as [Hin Hnodup].
    destruct keep; simpl; split.
    + intros id [H | H]; [ left; assumption | right; apply Hin; assumption ].
    + intros H. inversion H as [ | y l Hnotin Hrest ]; subst.
      constructor; [ | apply Hnodup; assumption ].
      intros Hx. apply Hnotin. apply Hin. assumption.
    + intros id H. right. apply Hin. assumption.
    + intros H. inversion H; subst. apply Hnodup. assumption.
Qed.

Lemma NoDup_snoc (ids : list value) (id : value) :
  NoDup ids -> ~ In id ids -> NoDup (ids ++ [id]).
Proof.
  intros Hnodup Hfresh. apply NoDup_app.
  - assumption.
  - constructor; [ intros [] | constructor ].
  - intros a Ha [<- | []]. apply Hfresh. assumption.
Qed.

Lemma uniqueIds_stamp_tasks (fs : list (string * value)) (tasks : list value) (t : Z) :
  NoDup (taskIds tasks) ->
  uniqueIds (State.stamp (assign "tasks" (VArr tasks) fs) t).
Proof.
  intros Hnodup. exists tasks. split; [ | assumption ].
  rewrite prop_stamp_other by discriminate. apply prop_assign_same.
Qed.

Lemma addTask_uniqueIds (e : State.env) (title : value) (w : State.world) :
  uniqueIds (State.state w) -> freshId w e ->
  uniqueIds (State.state (after (State.addTask e title w))).
Proof.
  intros Hunique Hfresh. pose proof Hunique as (tasks & Htasks & Hnodup).
  unfold State.addTask.
  destruct (negb (Validators.isValid (Validators.validateTaskTitle title)));
    [ exact Hunique | ].
  destruct title; try exact Hunique.
  rewrite (prop_get _ _ _ Htasks) by discriminate.
  cbn [iterate after]. rewrite state_dispatch, state_persist, state_notify.
  cbn [State.withState State.state].
  apply uniqueIds_stamp_tasks.
  unfold taskIds. rewrite map_app. apply NoDup_snoc; [ exact Hnodup | ].
  apply (Hfresh tasks Htasks).
Qed.

Lemma toggleTaskCompleted_uniqueIds (e : State.env) (taskId : value) (w : State.world) :
  uniqueIds (State.state w) ->
  uniqueIds (State.state (after (State.toggleTaskCompleted e taskId w))).
Proof.
  intros Hunique. pose proof Hunique as (tasks & Htasks & Hnodup).
  unfold State.toggleTaskCompleted.
  rewrite (prop_get _ _ _ Htasks) by discriminate.
  destruct (findIndex (State.hasId taskId) tasks) as [[i | ] | ];
    try exact Hunique.
  cbn [after]. rewrite state_dispatch, state_persist, state_notify.
  cbn [State.withState State.state].
  apply uniqueIds_stamp_tasks.
  rewrite taskIds_setIndex; [ exact Hnodup | ].
  rewrite prop_assign_other by discriminate. apply prop_ownProps_id.
Qed.

Lemma deleteTask_uniqueIds (e : State.env) (taskId : value) (w : State.world) :
  uniqueIds (State.state w) ->
  uniqueIds (State.state (after (State.deleteTask e taskId w))).
Proof.
  intros Hunique. pose proof Hunique as (tasks & Htasks & Hnodup).
  unfold State.deleteTask.
  rewrite (prop_get _ _ _ Htasks) by discriminate.
  destruct (findIndex (State.hasId taskId) tasks) as [[i | ] | ];
    try exact Hunique.
  destruct (filterBy (State.hasOtherId taskId) tasks) as [kept | ] eqn:Hkept;
    [ | exact Hunique ].
  cbn [after]. rewrite state_dispatch, state_persist, state_notify.
  cbn [State.withState State.state].
  apply uniqueIds_stamp_tasks.
  apply (filterBy_taskIds _ _ _ Hkept). exact Hnodup.
Qed.

Lemma setFilter_uniqueIds (filter : value) (w : State.world) :
  uniqueIds (State.state w) ->
  uniqueIds (State.state (after (State.setFilter filter w))).
Proof.
  intros Hunique. pose proof Hunique as (tasks & Htasks & Hnodup).
  unfold State.setFilter.
  destruct (negb (Validators.validateFilter filter)); [ exact Hunique | ].
  cbn [after]. rewrite state_dispatch, state_notify.
  cbn [State.withState State.state].
  exists tasks. split; [ | exact Hnodup ].
  rewrite prop_assign_other by discriminate.
  destruct (prop_tasks_object _ _ Htasks) as [fs Hfs]. rewrite Hfs in *.
  exact Htasks.
Qed.

Lemma step_uniqueIds (w w' : State.world) :
  step freshId w w' -> uniqueIds (State.state w) -> uniqueIds (State.state w').
Proof.
  intros Hstep Hunique. destruct Hstep.
  - apply addTask_uniqueIds; assumption.
  - apply toggleTaskCompleted_uniqueIds; assumption.
  - apply deleteTask_uniqueIds; assumption.
  - apply setFilter_uniqueIds; assumption.
Qed.

Lemma state_init (w : State.world) :
  State.state (State.init w) = fst (StorageService.load (State.storage w)).
Proof.
  unfold State.init.
  destruct (StorageService.load (State.storage w)) as [loaded diagnostics].
  reflexivity.
Qed.

(** C4, as amended.  When the state that [init] loads has unique task ids
    (the default state has; the validation on load does not look at
    uniqueness), every state reached from it by [addTask] drawing an id that
    no task carries, [toggleTaskCompleted], [deleteTask] and [setFilter]
    has unique task ids. *)
Theorem uniqueIds_reachable (w0 w : State.world) :
  uniqueIds (fst (StorageService.load (State.storage w0))) ->
  reachable freshId (State.init w0) w ->
  uniqueIds (State.state w).
Proof.
  intros Hloaded Hreach.
  induction Hreach as [ | w w' _ IH Hstep ].
  - rewrite state_init. exact Hloaded.
  - eapply step_uniqueIds; eassumption.
Qed.

Lemma uniqueIds_reachable_witness : uniqueIds (State.state worldAB).
Proof.
  apply (uniqueIds_reachable (State.subscribe 1 (State.initial emptyStore)) worldAB).
  - exists []. split; [ reflexivity | constructor ].
  - eapply reachable_step; [ eapply reachable_step; [ apply reachable_start | ] | ].
    + apply (step_addTask _ _ sampleEnv (VStr "A")).
      intros tasks Htasks. vm_compute in Htasks.
      inversion Htasks; subst tasks. intros [].
    + apply (step_addTask _ _ laterEnv (VStr "B")).
      intros tasks Htasks. vm_compute in Htasks.
      inversion Htasks; subst tasks. vm_compute.
      intros [H | []]. discriminate.
Defined.

(** C4 as stated fails, in two ways.  A persisted payload in which two
    tasks share an id passes the validation, and [init] installs it.  And
    over an empty store, two calls of [addTask] that read the same
    millisecond and draw the same random suffix both return, and leave two
    tasks that carry the same id. *)
Lemma duplicate_ids_are_reachable :
  (StorageService.isValidState duplicateState = true /\
   State.state (State.init (State.initial duplicateStore)) = duplicateState /\
   reachable freshId (State.init (State.initial duplicateStore))
             (State.init (State.initial duplicateStore)) /\
   ~ uniqueIds (State.state (State.init (State.initial duplicateStore)))) /\
  (uniqueIds (State.state readyWorld) /\
   (exists first second w1 w2,
      State.addTask sameInstantEnv (VStr "A") readyWorld
      = State.Return first w1 /\
      State.addTask sameInstantEnv (VStr "B") w1 = State.Return second w2 /\
      reachable anyId readyWorld w2 /\
      prop (State.state w2) "tasks" = VArr [first; second] /\
      prop first "id" = prop second "id" /\
      prop first "title" = VStr "A" /\ prop second "title" = VStr "B" /\
      ~ uniqueIds (State.state w2))).
Proof.
  split.
  - assert (Hinstalled :
              State.state (State.init (State.initial duplicateStore))
              = duplicateState) by (vm_compute; reflexivity).
    split; [ reflexivity | split; [ exact Hinstalled | split ] ].
    + apply reachable_start.
    + rewrite Hinstalled. intros (tasks & Heq & Hnodup).
      vm_compute in Heq. inversion Heq; subst tasks. clear Heq.
      vm_compute in Hnodup.
      inversion Hnodup as [ | x l Hnotin _ ]; subst.
      apply Hnotin. left. reflexivity.
  - split.
    { exists []. split; [ reflexivity | constructor ]. }
    exists (newTaskOf sameInstantEnv "A"), (newTaskOf sameInstantEnv "B"),
           (after (State.addTask sameInstantEnv (VStr "A") readyWorld)),
           (after (State.addTask sameInstantEnv (VStr "B")
                     (after (State.addTask sameInstantEnv (VStr "A") readyWorld)))).
    split; [ vm_compute; reflexivity | ].
    split; [ vm_compute; reflexivity | ].
    split.
    { eapply reachable_step; [ eapply reachable_step; [ apply reachable_start | ] | ].
      - apply (step_addTask _ _ sameInstantEnv (VStr "A")). exact I.
      - apply (step_addTask _ _ sameInstantEnv (VStr "B")). exact I. }
    split; [ vm_compute; reflexivity | ].
    split; [ reflexivity | ].
    split; [ reflexivity | ].
    split; [ reflexivity | ].
    intros (tasks & Heq & Hnodup).
    vm_compute in Heq. inversion Heq; subst tasks. clear Heq.
    vm_compute in Hnodup.
    inversion Hnodup as [ | x l Hnotin _ ]; subst.
    apply Hnotin. left. reflexivity.
Qed.

(* ================================================================= *)
(** * Loading *)

(** What [load] returns, case by case. *)
Lemma load_cases (ls : localStorage) :
  fst (StorageService.load ls)
  = match readFault ls, slot ls with
    | Some _, _ => StorageService.getDefaultState
    | None, None => StorageService.getDefaultState
    | None, Some text =>
        match JSON.parse text with
        | None => StorageService.getDefaultState
        | Some v =>
            if StorageService.isValidState v then v
            else StorageService.getDefaultState
        end
    end.
Proof.
  unfold StorageService.load.
  destruct (readFault ls); [ reflexivity | ].
  destruct (slot ls) as [text | ]; [ | reflexivity ].
  destruct (JSON.parse text) as [v | ]; [ | reflexivity ].
  destruct (StorageService.isValidState v); reflexivity.
Qed.

(** C7.  [load] is a total function: every exception raised while reading
    is caught inside it.  When reading the store raises, when the entry is
    absent, when its text does not parse, or when it parses to a value that
    fails the validation, the result is the default empty state. *)
Theorem load_falls_back_to_default (ls : localStorage) :
  readFault ls <> None \/
  slot ls = None \/
  (exists text,
     slot ls = Some text /\
     (JSON.parse text = None \/
      exists v, JSON.parse text = Some v /\ StorageService.isValidState v = false)) ->
  fst (StorageService.load ls)
  = VObj [("tasks", VArr []); ("filter", VStr "all"); ("lastSynced", VNull)].
Proof.
  intros H. rewrite load_cases.
  destruct (readFault ls) as [name | ]; [ reflexivity | ].
  destruct H as [H | [H | (text & Hslot & H)]].
  - congruence.
  - rewrite H. reflexivity.
  - rewrite Hslot. destruct H as [H | (v & Hparse & Hinvalid)].
    + rewrite H. reflexivity.
    + rewrite Hparse, Hinvalid. reflexivity.
Qed.

(** Scenario D: the store holds the text [not json]. *)
Lemma load_falls_back_to_default_witness :
  fst (StorageService.load corruptedStore)
  = VObj [("tasks", VArr []); ("filter", VStr "all"); ("lastSynced", VNull)].
Proof.
  apply (load_falls_back_to_default corruptedStore).
  right. right. exists "not json". split; [ reflexivity | ].
  left. vm_compute. reflexivity.
Defined.
(* ================================================================= *)
(** * The shape of every reachable state *)

Lemma typedState_stamp_tasks (fs : list (string * value)) (tasks : list value) (t : Z) :
  typedState (VObj fs) -> Forall typedTask tasks ->
  typedState (State.stamp (assign "tasks" (VArr tasks) fs) t).
Proof.
  intros (_ & _ & Hfilter & _) Htasks. unfold typedState.
  rewrite prop_stamp_lastSynced.
  rewrite !prop_stamp_other by discriminate.
  rewrite prop_assign_same, prop_assign_other by discriminate.
  split; [ eexists; reflexivity | ].
  split; [ exists tasks; split; [ reflexivity | assumption ] | ].
  split; [ assumption | right; reflexivity ].
Qed.

Lemma typedTask_toggled (task : value) (completed : bool) :
  typedTask task ->
  typedTask (VObj (assign "completed" (VBool completed) (ownProps task))).
Proof.
  intros ([fs ->] & Hid & Htitle & _ & Hcreated). cbn [ownProps].
  unfold typedTask.
  rewrite prop_assign_same. rewrite !prop_assign_other by discriminate.
  split; [ eexists; reflexivity | ]. repeat split; assumption.
Qed.

Lemma Forall_setIndex (P : value -> Prop) (i : nat) (x : value) (l : list value) :
  Forall P l -> (P (nth i l VUndefined) -> P x) -> Forall P (setIndex i x l).
Proof.
  intros Hall. revert i. induction Hall as [ | y rest Hy Hrest IH ]; intros i Hx.
  - destruct i; constructor.
  - destruct i as [ | j ]; simpl.
    + constructor; [ apply Hx; exact Hy | exact Hrest ].
    + constructor; [ exact Hy | apply IH; exact Hx ].
Qed.

Lemma Forall_filterBy (P : value -> Prop) (p : value -> option bool)
      (l kept : list value) :
  filterBy p l = Some kept -> Forall P l -> Forall P kept.
Proof.
  intros Hkept Hall. revert kept Hkept.
  induction Hall as [ | x rest Hx Hrest IH ]; intros kept Hkept; simpl in Hkept.
  - inversion Hkept. constructor.
  - destruct (p x) as [keep | ]; [ | discriminate ].
    destruct (filterBy p rest) as [kept' | ]; [ | discriminate ].
    inversion Hkept; subst. destruct keep; [ constructor | ]; auto.
Qed.

Lemma step_typedState (guard : State.world -> State.env -> Prop) (w w' : State.world) :
  step guard w w' -> typedState (State.state w) -> typedState (State.state w').
Proof.
  intros Hstep Htyped.
  pose proof Htyped as ([fs Hfs] & (tasks & Htasks & Hall) & Hfilter & Hsynced).
  destruct Hstep as [ e title _ | e taskId | e taskId | filter ].
  - unfold State.addTask.
    destruct (negb (Validators.isValid (Validators.validateTaskTitle title)));
      [ exact Htyped | ].
    destruct title; try exact Htyped.
    rewrite (prop_get _ _ _ Htasks) by discriminate.
    cbn [iterate after]. rewrite state_dispatch, state_persist, state_notify.
    cbn [State.withState State.state]. rewrite Hfs in *. cbn [ownProps].
    apply typedState_stamp_tasks; [ exact Htyped | ].
    apply Forall_app. split; [ exact Hall | ].
    constructor; [ | constructor ].
    split; [ eexists; reflexivity | repeat split; reflexivity ].
  - unfold State.toggleTaskCompleted.
    rewrite (prop_get _ _ _ Htasks) by discriminate.
    destruct (findIndex (State.hasId taskId) tasks) as [[i | ] | ];
      try exact Htyped.
    cbn [after]. rewrite state_dispatch, state_persist, state_notify.
    cbn [State.withState State.state]. rewrite Hfs in *. cbn [ownProps].
    apply typedState_stamp_tasks; [ exact Htyped | ].
    apply Forall_setIndex; [ exact Hall | ]. apply typedTask_toggled.
  - unfold State.deleteTask.
    rewrite (prop_get _ _ _ Htasks) by discriminate.
    destruct (findIndex (State.hasId taskId) tasks) as [[i | ] | ];
      try exact Htyped.
    destruct (filterBy (State.hasOtherId taskId) tasks) as [kept | ] eqn:Hkept;
      [ | exact Htyped ].
    cbn [after]. rewrite state_dispatch, state_persist, state_notify.
    cbn [State.withState State.state]. rewrite Hfs in *. cbn [ownProps].
    apply typedState_stamp_tasks; [ exact Htyped | ].
    eapply Forall_filterBy; eassumption.
  - unfold State.setFilter.
    destruct (Validators.validateFilter filter) eqn:Hvalid; cbn [negb];
      [ | exact Htyped ].
    cbn [after]. rewrite state_dispatch, state_notify.
    cbn [State.withState State.state]. rewrite Hfs in *. cbn [ownProps].
    unfold typedState. rewrite prop_assign_same.
    rewrite !prop_assign_other by discriminate.
    split; [ eexists; reflexivity | ].
    split; [ exists tasks; split; assumption | ].
    split; [ | assumption ].
    apply includes_validFilters. exact Hvalid.
Qed.

(** Whatever the store holds, [init] installs a state of the right shape. *)
Lemma init_typedState (w0 : State.world) : typedState (State.state (State.init w0)).
Proof.
  rewrite state_init, load_cases. apply isValidState_typed.
  destruct (readFault (State.storage w0)); [ reflexivity | ].
  destruct (slot (State.storage w0)) as [text | ]; [ | reflexivity ].
  destruct (JSON.parse text) as [v | ]; [ | reflexivity ].
  destruct (StorageService.isValidState v) eqn:Hvalid; [ exact Hvalid | reflexivity ].
Qed.

(** Every state reached from [init] through the four operations is an
    object with an array of well-shaped tasks and a recognised filter. *)
Lemma reachable_typedState (guard : State.world -> State.env -> Prop)
      (w0 w : State.world) :
  reachable guard (State.init w0) w -> typedState (State.state w).
Proof.
  induction 1 as [ | w w' _ IH Hstep ].
  - apply init_typedState.
  - eapply step_typedState; eassumption.
Qed.

(** C9.  In every state reached from [init] through [addTask],
    [toggleTaskCompleted], [deleteTask] and [setFilter], the filter is one
    of [all], [active] and [completed], and [getFilteredTasks] returns the
    tasks it selects, in their order in [tasks]: those with
    [completed == false] under [active], those with [completed == true]
    under [completed], all of them under [all]. *)
Theorem getFilteredTasks_selects (w0 w : State.world) :
  reachable anyId (State.init w0) w ->
  exists tasks f,
    prop (State.state w) "tasks" = VArr tasks /\
    prop (State.state w) "filter" = VStr f /\
    (f = "all" \/ f = "active" \/ f = "completed") /\
    State.getFilteredTasks w = Some (VArr (filter (selectedBy f) tasks)).
Proof.
  intros Hreach.
  destruct (reachable_typedState _ _ _ Hreach)
    as (_ & (tasks & Htasks & Hall) & Hfilter & _).
  assert (Hf : exists f, prop (State.state w) "filter" = VStr f /\
                         (f = "all" \/ f = "active" \/ f = "completed")).
  { destruct Hfilter as [H | [H | H]]; rewrite H; eexists; split;
      try reflexivity; tauto. }
  destruct Hf as (f & Hf & Hcases).
  exists tasks, f. repeat split; try assumption.
  apply getFilteredTasks_filter; try assumption.
  eapply Forall_impl; [ | exact Hall ].
  intros task (_ & _ & _ & Hcompleted & _).
  destruct (prop task "completed"); try discriminate. eexists. reflexivity.
Qed.

Lemma reachable_worldActive :
  reachable anyId (State.init (State.subscribe 1 (State.initial emptyStore)))
            worldActive.
Proof.
  eapply reachable_step; [ eapply reachable_step; [ eapply reachable_step;
    [ eapply reachable_step; [ apply reachable_start | ] | ] | ] | ].
  - apply (step_addTask _ _ sampleEnv (VStr "A")). exact I.
  - apply (step_addTask _ _ laterEnv (VStr "B")). exact I.
  - apply (step_toggleTaskCompleted _ _ laterEnv idOfA).
  - apply (step_setFilter _ _ (VStr "active")).
Defined.

Lemma getFilteredTasks_selects_witness :
  State.getFilteredTasks worldActive = Some (VArr [taskB]).
Proof.
  destruct (getFilteredTasks_selects _ _ reachable_worldActive)
    as (tasks & f & Htasks & Hf & _ & Hget).
  vm_compute in Htasks. inversion Htasks; subst tasks.
  vm_compute in Hf. inversion Hf; subst f.
  exact Hget.
Defined.

(* ================================================================= *)
(** * JSON text: writing and reading back *)

Lemma append_assoc (a b c : string) : ((a ++ b) ++ c = a ++ (b ++ c))%string.
Proof. induction a as [ | x a IH ]; simpl; congruence. Qed.

Lemma append_empty_r (a : string) : (a ++ EmptyString)%string = a.
Proof. induction a as [ | x a IH ]; simpl; congruence. Qed.

Lemma append_length (a b : string) :
  String.length (a ++ b) = String.length a + String.length b.
Proof. induction a as [ | x a IH ]; simpl; congruence. Qed.

(** ** Strings *)

Lemma parseChars_quoteChar (c : ascii) (t : string) :
  JSON.parseChars (JSON.quoteChar c ++ t) = JSON.consChar c (JSON.parseChars t).
Proof.
  destruct c as [[] [] [] [] [] [] [] []]; reflexivity.
Qed.

Lemma parseChars_quoteChars (s rest : string) :
  JSON.parseChars (JSON.quoteChars s ++ String JSON.dquote rest) = Some (s, rest).
Proof.
  induction s as [ | c s IH ]; simpl.
  - reflexivity.
  - rewrite append_assoc, parseChars_quoteChar, IH. reflexivity.
Qed.

Lemma quoteChar_length (c : ascii) : 1 <= String.length (JSON.quoteChar c).
Proof.
  destruct c as [[] [] [] [] [] [] [] []]; vm_compute; lia.
Qed.

(** ** Numerals *)

Lemma to_uint_normal (n : N) : Decimal.unorm (N.to_uint n) = N.to_uint n.
Proof.
  rewrite <- (DecimalN.Unsigned.of_to n) at 2.
  rewrite DecimalN.Unsigned.to_of. reflexivity.
Qed.

Lemma to_uint_nonnil (n : N) : N.to_uint n <> Decimal.Nil.
Proof.
  rewrite <- to_uint_normal. apply unorm_nonnil.
Qed.

Lemma leadingZero_to_uint (n : N) : JSON.leadingZero (N.to_uint n) = false.
Proof.
  pose proof (to_uint_normal n) as Hnormal.
  destruct (N.to_uint n) as [ | u | u | u | u | u | u | u | u | u | u ];
    try reflexivity.
  destruct u as [ | u | u | u | u | u | u | u | u | u | u ]; try reflexivity;
    exfalso; rewrite unorm_D0 in Hnormal;
    match type of Hnormal with
    | Decimal.unorm ?d = _ =>
        assert (Hlen : Decimal.nb_digits (Decimal.unorm d) <= Decimal.nb_digits d)
          by (apply nb_digits_unorm; discriminate);
        rewrite Hnormal in Hlen; simpl in Hlen; lia
    end.
Qed.

Lemma splitSign_digits (u : Decimal.uint) (rest : string) :
  u <> Decimal.Nil ->
  JSON.splitSign (NilEmpty.string_of_uint u ++ rest)
  = (false, (NilEmpty.string_of_uint u ++ rest)%string).
Proof.
  intros Hu. destruct u; try reflexivity. congruence.
Qed.

Section Numerals.

(** What follows the numeral in the text does not continue it. *)
Variable rest : string.
Hypothesis Hrest : endsNumber rest = true.

Lemma endsNumber_continues : JSON.continuesNumber rest = false.
Proof.
  destruct rest as [ | c r ]; [ reflexivity | ].
  unfold endsNumber in Hrest. destruct (JSON.digitOf c); [ discriminate | ].
  apply negb_true_iff in Hrest. exact Hrest.
Qed.

Lemma scanDigits_string_of_uint (u : Decimal.uint) :
  JSON.scanDigits (NilEmpty.string_of_uint u ++ rest) = (u, rest).
Proof.
  induction u as [ | u IH | u IH | u IH | u IH | u IH | u IH | u IH | u IH | u IH | u IH ];
    simpl; try (rewrite IH; reflexivity).
  destruct rest as [ | c r ]; [ reflexivity | ].
  simpl in *. destruct (JSON.digitOf c); [ discriminate | reflexivity ].
Qed.

Lemma parseNumber_digits (negative : bool) (n : N) :
  (let (u, rest') := JSON.scanDigits (NilEmpty.string_of_uint (N.to_uint n) ++ rest) in
   match u with
   | Decimal.Nil => None
   | _ =>
       if JSON.leadingZero u then None
       else if JSON.continuesNumber rest' then None
       else
         let m := Z.of_N (N.of_uint u) in
         Some (VNum (Int (if negative then (- m)%Z else m)), rest')
   end)
  = Some (VNum (Int (if negative then (- Z.of_N n)%Z else Z.of_N n)), rest).
Proof.
  rewrite scanDigits_string_of_uint.
  pose proof (to_uint_nonnil n) as Hnonnil.
  pose proof (leadingZero_to_uint n) as Hzero.
  pose proof (DecimalN.Unsigned.of_to n) as Hvalue.
  destruct (N.to_uint n); try congruence;
    rewrite Hzero, endsNumber_continues; cbv zeta;
    rewrite Hvalue; reflexivity.
Qed.

Lemma parseNumber_decimal (z : Z) :
  JSON.parseNumber (decimal z ++ rest) = Some (VNum (Int z), rest).
Proof.
  unfold JSON.parseNumber, decimal.
  destruct (z <? 0)%Z eqn:Hsign.
  - cbn [append JSON.splitSign].
    replace (JSON.splitSign
               (String "-" (NilEmpty.string_of_uint (N.to_uint (Z.abs_N z)) ++ rest)))
      with (true, (NilEmpty.string_of_uint (N.to_uint (Z.abs_N z)) ++ rest)%string)
      by reflexivity.
    rewrite (parseNumber_digits true).
    apply Z.ltb_lt in Hsign. rewrite N2Z.inj_abs_N.
    replace (- Z.abs z)%Z with z by lia. reflexivity.
  - rewrite splitSign_digits by apply to_uint_nonnil.
    rewrite (parseNumber_digits false).
    apply Z.ltb_ge in Hsign. rewrite Z2N.id by assumption. reflexivity.
Qed.

End Numerals.

(** ** Property lists read back *)

Lemma distinctKeys_NoDup (fs : list (string * value)) :
  distinctKeys fs = true -> NoDup (map fst fs).
Proof.
  induction fs as [ | [k v] rest IH ]; simpl; intros H.
  - constructor.
  - apply andb_true_iff in H. destruct H as [Hfresh Hrest].
    constructor; [ | apply IH; assumption ].
    intros Hin. apply negb_true_iff in Hfresh.
    apply in_map_iff in Hin. destruct Hin as ([k' v'] & Hk & Hin).
    simpl in Hk. subst k'.
    assert (Hex : existsb (fun kv => String.eqb k (fst kv)) rest = true).
    { apply existsb_exists. exists (k, v'). split; [ assumption | ].
      apply String.eqb_refl. }
    congruence.
Qed.

Lemma assign_fresh (k : string) (v : value) (fs : list (string * value)) :
  ~ In k (map fst fs) -> assign k v fs = fs ++ [(k, v)].
Proof.
  induction fs as [ | [k' v'] rest IH ]; simpl; intros Hfresh.
  - reflexivity.
  - destruct (String.eqb_spec k k') as [-> | Hne].
    + exfalso. apply Hfresh. left. reflexivity.
    + rewrite IH; [ reflexivity | ]. intros Hin. apply Hfresh. right. assumption.
Qed.

Lemma fold_assign_distinct (fs acc : list (string * value)) :
  NoDup (map fst acc ++ map fst fs) ->
  fold_left (fun a kv => assign (fst kv) (snd kv) a) fs acc = acc ++ fs.
Proof.
  revert acc. induction fs as [ | [k v] rest IH ]; intros acc Hnodup; simpl.
  - rewrite List.app_nil_r. reflexivity.
  - simpl in Hnodup.
    assert (Hfresh : ~ In k (map fst acc)).
    { apply NoDup_remove_2 in Hnodup. intros Hin. apply Hnodup.
      apply in_or_app. left. assumption. }
    rewrite assign_fresh by assumption.
    rewrite IH.
    + rewrite <- List.app_assoc. reflexivity.
    + rewrite map_app. simpl. rewrite <- List.app_assoc. exact Hnodup.
Qed.

Lemma objectOf_distinct (fs : list (string * value)) :
  distinctKeys fs = true -> JSON.objectOf fs = fs.
Proof.
  intros H. unfold JSON.objectOf.
  rewrite fold_assign_distinct; [ reflexivity | ].
  simpl. apply distinctKeys_NoDup. assumption.
Qed.

(** ** The layout written by [stringify] *)

Lemma stringify_array (elems : list value) :
  JSON.stringify (VArr elems)
  = Some ("[" ++ String.concat "," (map itemText elems) ++ "]")%string.
Proof.
  reflexivity.
Qed.

Lemma stringify_object (fields : list (string * value)) :
  JSON.stringify (VObj fields)
  = Some ("{" ++ String.concat "," (memberTexts fields) ++ "}")%string.
Proof.
  reflexivity.
Qed.

Lemma plainData_object (fields : list (string * value)) :
  plainData (VObj fields)
  = distinctKeys fields && forallb (fun kv => plainData (snd kv)) fields.
Proof.
  simpl. f_equal.
  induction fields as [ | [k x] rest IH ]; simpl; [ reflexivity | ].
  rewrite IH. reflexivity.
Qed.

(** An induction principle that reaches the values nested in arrays and
    objects. *)
Lemma value_induction (P : value -> Prop) :
  P VUndefined -> P VNull -> (forall b, P (VBool b)) ->
  (forall n, P (VNum n)) -> (forall s, P (VStr s)) ->
  (forall elems, Forall P elems -> P (VArr elems)) ->
  (forall fields, Forall (fun kv => P (snd kv)) fields -> P (VObj fields)) ->
  forall v, P v.
Proof.
  intros Hundefined Hnull Hbool Hnum Hstr Harr Hobj.
  fix self 1.
  intros [ | | b | n | s | elems | fields ].
  - exact Hundefined.
  - exact Hnull.
  - apply Hbool.
  - apply Hnum.
  - apply Hstr.
  - apply Harr. induction elems as [ | x rest IH ]; constructor.
    + apply self.
    + exact IH.
  - apply Hobj. induction fields as [ | [k x] rest IH ]; constructor.
    + apply self.
    + exact IH.
Qed.

(** ** Dispatch on the first character *)

Ltac each_start H tac :=
  repeat (destruct H as [<- | H]; [ tac | ]); destruct H.

Lemma skipSpace_value (c : ascii) (t : string) :
  startsValue c -> JSON.skipSpace (String c t) = String c t.
Proof. intros H. unfold startsValue in H. each_start H reflexivity. Qed.

Lemma decimal_head (z : Z) :
  exists c t, decimal z = String c t /\
    In c ["-"; "0"; "1"; "2"; "3"; "4"; "5"; "6"; "7"; "8"; "9"]%char.
Proof.
  unfold decimal. destruct (z <? 0)%Z.
  - eexists. eexists. split; [ reflexivity | left; reflexivity ].
  - pose proof (to_uint_nonnil (Z.to_N z)) as Hnonnil.
    destruct (N.to_uint (Z.to_N z)); try congruence; simpl;
      eexists; eexists; (split; [ reflexivity | ]); simpl; tauto.
Qed.

Lemma parseValue_number (n : nat) (c : ascii) (t : string) :
  In c ["-"; "0"; "1"; "2"; "3"; "4"; "5"; "6"; "7"; "8"; "9"]%char ->
  JSON.parseValue (S n) (String c t) = JSON.parseNumber (String c t).
Proof. intros H. each_start H reflexivity. Qed.

Lemma parseValue_array (n : nat) (c : ascii) (b : string) :
  startsValue c ->
  JSON.parseValue (S n) (String "[" (String c b))
  = match JSON.parseElements n (String c b) with
    | Some (elems, rest) => Some (VArr elems, rest)
    | None => None
    end.
Proof. intros H. unfold startsValue in H. each_start H reflexivity. Qed.

Lemma parseValue_object (n : nat) (b : string) :
  JSON.parseValue (S n) (String "{" (String JSON.dquote b))
  = match JSON.parseMembers n (String JSON.dquote b) with
    | Some (members, rest) => Some (VObj (JSON.objectOf members), rest)
    | None => None
    end.
Proof. reflexivity. Qed.

(** ** Scalars *)

Lemma readsBack_null : readsBack VNull.
Proof.
  exists "null". split; [ reflexivity | split ].
  - eexists. eexists. split; [ reflexivity | unfold startsValue; simpl; tauto ].
  - intros n rest Hn _. destruct n; [ simpl in Hn; lia | reflexivity ].
Qed.

Lemma readsBack_bool (b : bool) : readsBack (VBool b).
Proof.
  destruct b.
  - exists "true". split; [ reflexivity | split ].
    + eexists. eexists. split; [ reflexivity | unfold startsValue; simpl; tauto ].
    + intros n rest Hn _. destruct n; [ simpl in Hn; lia | reflexivity ].
  - exists "false". split; [ reflexivity | split ].
    + eexists. eexists. split; [ reflexivity | unfold startsValue; simpl; tauto ].
    + intros n rest Hn _. destruct n; [ simpl in Hn; lia | reflexivity ].
Qed.

Lemma readsBack_int (z : Z) : readsBack (VNum (Int z)).
Proof.
  exists (decimal z). split; [ reflexivity | ].
  destruct (decimal_head z) as (c & t & Heq & Hc).
  split.
  - exists c, t. split; [ assumption | ].
    unfold startsValue. simpl in *. tauto.
  - intros n rest Hn Hrest.
    destruct n; [ rewrite Heq in Hn; simpl in Hn; lia | ].
    rewrite <- (parseNumber_decimal rest Hrest z).
    rewrite Heq. cbn [append]. apply parseValue_number. assumption.
Qed.

Lemma readsBack_string (s : string) : readsBack (VStr s).
Proof.
  exists (JSON.quote s). split; [ reflexivity | split ].
  - eexists. eexists. split; [ reflexivity | ].
    unfold startsValue. simpl. tauto.
  - intros n rest Hn _. destruct n; [ simpl in Hn; lia | ].
    unfold JSON.quote. cbn [append]. rewrite append_assoc. cbn [append].
    cbn [JSON.parseValue JSON.skipSpace].
    replace (JSON.isJsonSpace JSON.dquote) with false by reflexivity.
    replace (Ascii.eqb JSON.dquote "n") with false by reflexivity.
    replace (Ascii.eqb JSON.dquote "t") with false by reflexivity.
    replace (Ascii.eqb JSON.dquote "f") with false by reflexivity.
    replace (Ascii.eqb JSON.dquote JSON.dquote) with true by reflexivity.
    rewrite parseChars_quoteChars. reflexivity.
Qed.

(** ** Arrays *)

Lemma concat_cons (x y : string) (l : list string) :
  String.concat "," (x :: y :: l)
  = (x ++ "," ++ String.concat "," (y :: l))%string.
Proof. reflexivity. Qed.

Lemma readsBack_itemText (x : value) :
  readsBack x ->
  JSON.stringify x = Some (itemText x) /\
  (exists c t', itemText x = String c t' /\ startsValue c) /\
  forall n rest,
    String.length (itemText x) <= n -> endsNumber rest = true ->
    JSON.parseValue n (itemText x ++ rest) = Some (x, rest).
Proof.
  intros (t & Hs & Hhead & Hparse). unfold itemText. rewrite Hs.
  split; [ reflexivity | split; assumption ].
Qed.

Lemma parseElements_items (elems : list value) :
  elems <> [] -> Forall readsBack elems ->
  forall n rest,
    S (String.length (String.concat "," (map itemText elems))) <= n ->
    JSON.parseElements n
      (String.concat "," (map itemText elems) ++ String "]" rest)
    = Some (elems, rest).
Proof.
  intros Hne Hall. induction Hall as [ | x l Hx Hl IH ]; [ congruence | clear Hne ].
  intros n rest Hn.
  destruct (readsBack_itemText x Hx) as (_ & (c & t' & Hhead & _) & Hparse).
  destruct n as [ | n ]; [ lia | ]. apply le_S_n in Hn.
  destruct l as [ | y l ].
  - cbn [map String.concat] in *. cbn [JSON.parseElements].
    rewrite Hparse by (try reflexivity; assumption). reflexivity.
  - cbn [map] in *. rewrite concat_cons in *.
    rewrite !append_length in Hn. cbn [String.length] in Hn.
    rewrite !append_assoc. cbn [append]. cbn [JSON.parseElements].
    rewrite Hparse by (try reflexivity; lia).
    cbn [JSON.skipSpace].
    replace (JSON.isJsonSpace ",") with false by reflexivity.
    replace (Ascii.eqb "," ",") with true by reflexivity.
    rewrite IH; [ reflexivity | discriminate | ].
    rewrite Hhead in Hn. cbn [String.length] in Hn. lia.
Qed.

Lemma concat_head (c : ascii) (t : string) (l : list string) :
  exists b, String.concat "," (String c t :: l) = String c b.
Proof.
  destruct l as [ | y l ]; [ eexists; reflexivity | ].
  rewrite concat_cons. eexists. reflexivity.
Qed.

Lemma readsBack_array (elems : list value) :
  Forall readsBack elems -> readsBack (VArr elems).
Proof.
  intros Hall. eexists. split; [ apply stringify_array | split ].
  - eexists. eexists. split; [ reflexivity | ]. unfold startsValue. simpl. tauto.
  - intros n rest Hn _.
    cbn [append String.length] in Hn. rewrite append_length in Hn.
    cbn [String.length] in Hn.
    destruct n as [ | n ]; [ lia | ].
    cbn [append]. rewrite append_assoc. cbn [append].
    destruct elems as [ | x l ].
    + reflexivity.
    + inversion Hall as [ | x' l' Hx Hl ]; subst.
      destruct (readsBack_itemText x Hx) as (_ & (c & t' & Hhead & Hc) & _).
      pose proof (parseElements_items (x :: l)) as Hitems.
      cbn [map] in *. rewrite Hhead in *.
      destruct (concat_head c t' (map itemText l)) as [b Hb].
      rewrite Hb in *. cbn [append]. rewrite parseValue_array by assumption.
      specialize (Hitems ltac:(discriminate) Hall n rest).
      cbn [append] in Hitems. rewrite Hitems; [ reflexivity | lia ].
Qed.

(** ** Objects *)

Lemma member_layout (k t tail : string) :
  ((JSON.quote k ++ ":" ++ t) ++ tail)%string
  = String JSON.dquote
      (JSON.quoteChars k ++ String JSON.dquote (String ":" (t ++ tail))).
Proof.
  unfold JSON.quote. cbn [append]. rewrite !append_assoc. reflexivity.
Qed.

Lemma parseMembers_member (n : nat) (k tail : string) :
  JSON.parseMembers (S n)
    (String JSON.dquote (JSON.quoteChars k ++ String JSON.dquote (String ":" tail)))
  = match JSON.parseValue n tail with
    | None => None
    | Some (v, r3) =>
        match JSON.skipSpace r3 with
        | EmptyString => None
        | String c r4 =>
            if Ascii.eqb c "," then
              match JSON.parseMembers n r4 with
              | Some (ms, rest) => Some ((k, v) :: ms, rest)
              | None => None
              end
            else if Ascii.eqb c "}" then Some ([(k, v)], r4)
            else None
        end
    end.
Proof.
  cbn [JSON.parseMembers JSON.skipSpace].
  replace (JSON.isJsonSpace JSON.dquote) with false by reflexivity.
  replace (Ascii.eqb JSON.dquote JSON.dquote) with true by reflexivity.
  cbn [negb]. rewrite parseChars_quoteChars.
  cbn [JSON.skipSpace].
  replace (JSON.isJsonSpace ":") with false by reflexivity.
  replace (Ascii.eqb ":" ":") with true by reflexivity.
  reflexivity.
Qed.

Lemma memberTexts_cons (k : string) (x : value) (fields : list (string * value)) :
  readsBack x ->
  memberTexts ((k, x) :: fields)
  = (JSON.quote k ++ ":" ++ itemText x)%string :: memberTexts fields.
Proof.
  intros Hx. destruct (readsBack_itemText x Hx) as (Hs & _).
  cbn [memberTexts]. rewrite Hs. reflexivity.
Qed.

Lemma memberTexts_nonempty (fields : list (string * value)) :
  fields <> [] -> Forall (fun kv => readsBack (snd kv)) fields ->
  exists m ms b,
    memberTexts fields = m :: ms /\
    String.concat "," (m :: ms) = String JSON.dquote b.
Proof.
  intros Hne Hall. destruct Hall as [ | [k x] l Hx Hl ]; [ congruence | ].
  rewrite memberTexts_cons by exact Hx.
  eexists. eexists.
  destruct (concat_head JSON.dquote
              (JSON.quoteChars k ++ String JSON.dquote EmptyString
               ++ ":" ++ itemText x)%string (memberTexts l)) as [b Hb].
  exists b. split; [ reflexivity | ].
  rewrite <- Hb. unfold JSON.quote. cbn [append].
  rewrite !append_assoc. reflexivity.
Qed.

Lemma parseMembers_members (fields : list (string * value)) :
  fields <> [] -> Forall (fun kv => readsBack (snd kv)) fields ->
  forall n rest,
    S (String.length (String.concat "," (memberTexts fields))) <= n ->
    JSON.parseMembers n
      (String.concat "," (memberTexts fields) ++ String "}" rest)
    = Some (fields, rest).
Proof.
  intros Hne Hall.
  induction Hall as [ | [k x] l Hx Hl IH ]; [ congruence | clear Hne ].
  intros n rest Hn. cbn [snd] in Hx.
  destruct (readsBack_itemText x Hx) as (_ & (c & t' & Hhead & _) & Hparse).
  rewrite memberTexts_cons in * by exact Hx.
  destruct n as [ | n ]; [ lia | ]. apply le_S_n in Hn.
  destruct l as [ | [k' y] l ].
  - cbn [memberTexts String.concat] in *.
    rewrite member_layout, parseMembers_member.
    rewrite !append_length in Hn. cbn [String.length] in Hn.
    rewrite Hparse by (try reflexivity; lia). reflexivity.
  - assert (Hy : readsBack y) by (inversion Hl; assumption).
    rewrite (memberTexts_cons k' y l Hy) in *.
    rewrite concat_cons in *.
    rewrite !append_length in Hn. cbn [String.length] in Hn.
    rewrite append_assoc, member_layout, parseMembers_member.
    rewrite Hparse by (try reflexivity; lia).
    cbn [append JSON.skipSpace].
    replace (JSON.isJsonSpace ",") with false by reflexivity.
    replace (Ascii.eqb "," ",") with true by reflexivity.
    rewrite IH; [ reflexivity | discriminate | ].
    rewrite Hhead in Hn. cbn [String.length] in Hn. lia.
Qed.

Lemma readsBack_object (fields : list (string * value)) :
  distinctKeys fields = true ->
  Forall (fun kv => readsBack (snd kv)) fields ->
  readsBack (VObj fields).
Proof.
  intros Hdistinct Hall. eexists. split; [ apply stringify_object | split ].
  - eexists. eexists. split; [ reflexivity | ]. unfold startsValue. simpl. tauto.
  - intros n rest Hn _.
    cbn [append String.length] in Hn. rewrite append_length in Hn.
    cbn [String.length] in Hn.
    destruct n as [ | n ]; [ lia | ].
    cbn [append]. rewrite append_assoc. cbn [append].
    destruct fields as [ | kv l ].
    + reflexivity.
    + pose proof (parseMembers_members (kv :: l) ltac:(discriminate) Hall n rest)
        as Hmembers.
      destruct (memberTexts_nonempty (kv :: l) ltac:(discriminate) Hall)
        as (m & ms & b & Hm & Hb).
      rewrite Hm, Hb in *. cbn [append] in *.
      rewrite parseValue_object, Hmembers by lia.
      rewrite objectOf_distinct by assumption. reflexivity.
Qed.

Create HintDb json discriminated.
#[local] Hint Resolve readsBack_null readsBack_bool readsBack_int
  readsBack_string : json.

(** Every value of plain data is written as a text that reads back as the
    same value. *)
Lemma plainData_readsBack (v : value) : plainData v = true -> readsBack v.
Proof.
  induction v as [ | | b | n | s | elems IH | fields IH ] using value_induction;
    intros Hplain; auto with json.
  - discriminate.
  - destruct n; try discriminate. auto with json.
  - apply readsBack_array. cbn [plainData] in Hplain.
    rewrite forallb_forall in Hplain. rewrite Forall_forall in *.
    intros x Hx. apply IH; [ assumption | ]. apply Hplain. assumption.
  - rewrite plainData_object in Hplain. apply andb_true_iff in Hplain.
    destruct Hplain as [Hdistinct Hall].
    apply readsBack_object; [ assumption | ].
    rewrite forallb_forall in Hall. rewrite Forall_forall in *.
    intros kv Hkv. apply IH; [ assumption | ]. apply Hall. assumption.
Qed.

(** [JSON.parse(JSON.stringify(v))] is [v] on plain data. *)
Lemma parse_stringify (v : value) :
  plainData v = true ->
  exists t, JSON.stringify v = Some t /\ JSON.parse t = Some v.
Proof.
  intros Hplain.
  destruct (plainData_readsBack v Hplain) as (t & Hs & _ & Hparse).
  exists t. split; [ assumption | ].
  unfold JSON.parse.
  rewrite <- (append_empty_r t) at 2.
  rewrite Hparse by (try reflexivity; lia). reflexivity.
Qed.

(* ================================================================= *)
(** * The reader does not depend on its fuel *)

Lemma skipSpace_length (s : string) :
  String.length (JSON.skipSpace s) <= String.length s.
Proof.
  induction s as [ | c s IH ]; simpl; [ lia | ].
  destruct (JSON.isJsonSpace c); simpl; lia.
Qed.

Lemma skipSpace_cons (s r : string) (c : ascii) :
  JSON.skipSpace s = String c r -> String.length r < String.length s.
Proof.
  intros H. pose proof (skipSpace_length s) as Hlen.
  rewrite H in Hlen. simpl in Hlen. lia.
Qed.

Lemma stripPrefix_length (p s r : string) :
  JSON.stripPrefix p s = Some r -> String.length r <= String.length s.
Proof.
  revert s. induction p as [ | a p IH ]; intros s H; simpl in H.
  - inversion H; subst. lia.
  - destruct s as [ | b s ]; [ discriminate | ].
    destruct (Ascii.eqb a b); [ | discriminate ].
    apply IH in H. simpl. lia.
Qed.

Lemma consChar_length (c : ascii) (o : option (string * string)) (k r : string) (n : nat) :
  JSON.consChar c o = Some (k, r) ->
  (forall k' r', o = Some (k', r') -> String.length r' < n) ->
  String.length r < n.
Proof.
  destruct o as [[k' r'] | ]; simpl; intros H Hn; [ | discriminate ].
  inversion H; subst. apply (Hn k'). reflexivity.
Qed.

Lemma parseChars_length (s k r : string) :
  JSON.parseChars s = Some (k, r) -> String.length r < String.length s.
Proof.
  assert (Hall : forall n s k r,
             String.length s <= n -> JSON.parseChars s = Some (k, r) ->
             String.length r < String.length s).
  { clear s k r. induction n as [ | n IH ]; intros s k r Hle H.
    - destruct s; [ discriminate | simpl in Hle; lia ].
    - destruct s as [ | c rest ]; [ discriminate | ].
      simpl in Hle. cbn [JSON.parseChars] in H.
      destruct (Ascii.eqb c JSON.dquote).
      { inversion H; subst. simpl. lia. }
      destruct (Ascii.eqb c JSON.backslash).
      + destruct rest as [ | e rest1 ]; [ discriminate | ].
        simpl in Hle. destruct (JSON.unescape e).
        * apply (consChar_length _ _ _ _ (String.length rest1)) in H.
          -- simpl. lia.
          -- intros k' r' Hrec. apply IH in Hrec; lia.
        * destruct (Ascii.eqb e "u"); [ | discriminate ].
          destruct rest1 as [ | h1 [ | h2 [ | h3 [ | h4 rest2 ] ] ] ];
            try discriminate.
          destruct (JSON.unicodeEscape h1 h2 h3 h4); [ | discriminate ].
          simpl in Hle.
          apply (consChar_length _ _ _ _ (String.length rest2)) in H.
          -- simpl. lia.
          -- intros k' r' Hrec. apply IH in Hrec; lia.
      + destruct (N_of_ascii c <? 32)%N; [ discriminate | ].
        apply (consChar_length _ _ _ _ (String.length rest)) in H.
        * simpl. lia.
        * intros k' r' Hrec. apply IH in Hrec; lia. }
  apply (Hall (String.length s)). lia.
Qed.

Lemma scanDigits_length (s r : string) (u : Decimal.uint) :
  JSON.scanDigits s = (u, r) ->
  String.length r <= String.length s /\
  (u <> Decimal.Nil -> String.length r < String.length s).
Proof.
  revert u r. induction s as [ | c s IH ]; intros u r H; simpl in H.
  - inversion H; subst. split; [ lia | congruence ].
  - destruct (JSON.digitOf c) as [d | ].
    + destruct (JSON.scanDigits s) as [u' r'] eqn:Hrec.
      inversion H; subst. destruct (IH u' r eq_refl) as [Hle _].
      simpl. split; intros; lia.
    + inversion H; subst. split; [ lia | congruence ].
Qed.

Lemma parseNumber_length (s r : string) (v : value) :
  JSON.parseNumber s = Some (v, r) -> String.length r < String.length s.
Proof.
  unfold JSON.parseNumber. intros H.
  destruct (JSON.splitSign s) as [negative digits] eqn:Hsign.
  assert (Hdigits : String.length digits <= String.length s).
  { unfold JSON.splitSign in Hsign.
    destruct s as [ | c s' ]; [ inversion Hsign; subst; simpl; lia | ].
    destruct (Ascii.eqb_spec c "-") as [-> | Hne].
    - inversion Hsign; subst. simpl. lia.
    - assert (Heq : (negative, digits) = (false, String c s')).
      { rewrite <- Hsign.
        destruct c as [[] [] [] [] [] [] [] []]; try reflexivity.
        exfalso. apply Hne. reflexivity. }
      inversion Heq; subst. lia. }
  destruct (JSON.scanDigits digits) as [u rest] eqn:Hscan.
  destruct (scanDigits_length _ _ _ Hscan) as [_ Hlt].
  destruct u; try discriminate;
    destruct (JSON.leadingZero _); try discriminate;
    destruct (JSON.continuesNumber rest); try discriminate;
    inversion H; subst;
    (assert (String.length r < String.length digits) by (apply Hlt; discriminate));
    lia.
Qed.

Ltac replay :=
  cbn [JSON.parseValue JSON.parseElements JSON.parseMembers];
  repeat match goal with
         | E : ?x = _ |- context [?x] => rewrite E
         end;
  cbn [negb].

(** A successful read consumes at least one character, and succeeds with
    the same result on any fuel that is at least the number of characters
    consumed. *)
Lemma parse_fuel (n : nat) :
  (forall s v r,
     JSON.parseValue n s = Some (v, r) ->
     String.length r < String.length s /\
     forall m, String.length s <= m + String.length r ->
               JSON.parseValue m s = Some (v, r)) /\
  (forall s l r,
     JSON.parseElements n s = Some (l, r) ->
     String.length r < String.length s /\
     forall m, String.length s <= m + String.length r ->
               JSON.parseElements m s = Some (l, r)) /\
  (forall s l r,
     JSON.parseMembers n s = Some (l, r) ->
     String.length r < String.length s /\
     forall m, String.length s <= m + String.length r ->
               JSON.parseMembers m s = Some (l, r)).
Proof.
  induction n as [ | n (IHv & IHe & IHm) ].
  { repeat split; intros; discriminate. }
  split; [ | split ].
  - intros s v r H. cbn [JSON.parseValue] in H.
    destruct (JSON.skipSpace s) as [ | c t ] eqn:Hskip; [ discriminate | ].
    pose proof (skipSpace_cons _ _ _ Hskip) as Hlen.
    destruct (Ascii.eqb c "n") eqn:En.
    { destruct (JSON.stripPrefix "ull" t) as [r' | ] eqn:Hp; inversion H; subst.
      pose proof (stripPrefix_length _ _ _ Hp).
      split; [ lia | ]. intros [ | m ] Hm; [ lia | ]. replay. reflexivity. }
    destruct (Ascii.eqb c "t") eqn:Et.
    { destruct (JSON.stripPrefix "rue" t) as [r' | ] eqn:Hp; inversion H; subst.
      pose proof (stripPrefix_length _ _ _ Hp).
      split; [ lia | ]. intros [ | m ] Hm; [ lia | ]. replay. reflexivity. }
    destruct (Ascii.eqb c "f") eqn:Ef.
    { destruct (JSON.stripPrefix "alse" t) as [r' | ] eqn:Hp; inversion H; subst.
      pose proof (stripPrefix_length _ _ _ Hp).
      split; [ lia | ]. intros [ | m ] Hm; [ lia | ]. replay. reflexivity. }
    destruct (Ascii.eqb c JSON.dquote) eqn:Eq.
    { destruct (JSON.parseChars t) as [[str r'] | ] eqn:Hp; inversion H; subst.
      pose proof (parseChars_length _ _ _ Hp).
      split; [ lia | ]. intros [ | m ] Hm; [ lia | ]. replay. reflexivity. }
    destruct (Ascii.eqb c "[") eqn:Ea.
    { destruct (JSON.skipSpace t) as [ | c' r' ] eqn:Hskip2; [ discriminate | ].
      pose proof (skipSpace_cons _ _ _ Hskip2) as Hlen2.
      destruct (Ascii.eqb c' "]") eqn:Eclose.
      - inversion H; subst.
        split; [ lia | ]. intros [ | m ] Hm; [ lia | ]. replay. reflexivity.
      - destruct (JSON.parseElements n (String c' r')) as [[elems rest] | ] eqn:Hrec;
          inversion H; subst.
        destruct (IHe _ _ _ Hrec) as [Hlt Hfuel]. simpl in Hlt.
        split; [ lia | ]. intros [ | m ] Hm; [ lia | ]. replay.
        rewrite (Hfuel m) by (simpl; lia). reflexivity. }
    destruct (Ascii.eqb c "{") eqn:Eo.
    { destruct (JSON.skipSpace t) as [ | c' r' ] eqn:Hskip2; [ discriminate | ].
      pose proof (skipSpace_cons _ _ _ Hskip2) as Hlen2.
      destruct (Ascii.eqb c' "}") eqn:Eclose.
      - inversion H; subst.
        split; [ lia | ]. intros [ | m ] Hm; [ lia | ]. replay. reflexivity.
      - destruct (JSON.parseMembers n (String c' r')) as [[members rest] | ] eqn:Hrec;
          inversion H; subst.
        destruct (IHm _ _ _ Hrec) as [Hlt Hfuel]. simpl in Hlt.
        split; [ lia | ]. intros [ | m ] Hm; [ lia | ]. replay.
        rewrite (Hfuel m) by (simpl; lia). reflexivity. }
    pose proof (parseNumber_length _ _ _ H) as Hnum. simpl in Hnum.
    split; [ lia | ]. intros [ | m ] Hm; [ lia | ]. replay. reflexivity.
  - intros s l r H. cbn [JSON.parseElements] in H.
    destruct (JSON.parseValue n s) as [[v r1] | ] eqn:Hv; [ | discriminate ].
    destruct (IHv _ _ _ Hv) as [Hlt1 Hfuel1].
    destruct (JSON.skipSpace r1) as [ | c r' ] eqn:Hskip; [ discriminate | ].
    pose proof (skipSpace_cons _ _ _ Hskip) as Hlen.
    destruct (Ascii.eqb c ",") eqn:Ecomma.
    + destruct (JSON.parseElements n r') as [[vs rest] | ] eqn:Hrec;
        inversion H; subst.
      destruct (IHe _ _ _ Hrec) as [Hlt2 Hfuel2].
      split; [ lia | ]. intros [ | m ] Hm; [ lia | ].
      cbn [JSON.parseElements].
      rewrite (Hfuel1 m) by lia. rewrite Hskip, Ecomma.
      rewrite (Hfuel2 m) by lia. reflexivity.
    + destruct (Ascii.eqb c "]") eqn:Eclose; inversion H; subst.
      split; [ lia | ]. intros [ | m ] Hm; [ lia | ].
      cbn [JSON.parseElements].
      rewrite (Hfuel1 m) by lia. rewrite Hskip, Ecomma, Eclose. reflexivity.
  - intros s l r H. cbn [JSON.parseMembers] in H.
    destruct (JSON.skipSpace s) as [ | q t ] eqn:Hskip0; [ discriminate | ].
    pose proof (skipSpace_cons _ _ _ Hskip0) as Hlen0.
    destruct (Ascii.eqb q JSON.dquote) eqn:Eq; [ | discriminate ].
    cbn [negb] in H.
    destruct (JSON.parseChars t) as [[k r1] | ] eqn:Hkey; [ | discriminate ].
    pose proof (parseChars_length _ _ _ Hkey) as Hlenk.
    destruct (JSON.skipSpace r1) as [ | colon r2 ] eqn:Hskip1; [ discriminate | ].
    pose proof (skipSpace_cons _ _ _ Hskip1) as Hlen1.
    destruct (Ascii.eqb colon ":") eqn:Ecolon; [ | discriminate ].
    cbn [negb] in H.
    destruct (JSON.parseValue n r2) as [[v r3] | ] eqn:Hv; [ | discriminate ].
    destruct (IHv _ _ _ Hv) as [Hlt1 Hfuel1].
    destruct (JSON.skipSpace r3) as [ | c r4 ] eqn:Hskip; [ discriminate | ].
    pose proof (skipSpace_cons _ _ _ Hskip) as Hlen.
    destruct (Ascii.eqb c ",") eqn:Ecomma.
    + destruct (JSON.parseMembers n r4) as [[ms rest] | ] eqn:Hrec;
        inversion H; subst.
      destruct (IHm _ _ _ Hrec) as [Hlt2 Hfuel2].
      split; [ lia | ]. intros [ | m ] Hm; [ lia | ].
      cbn [JSON.parseMembers].
      rewrite Hskip0, Eq, Hkey, Hskip1, Ecolon. cbn [negb].
      rewrite (Hfuel1 m) by lia. rewrite Hskip, Ecomma.
      rewrite (Hfuel2 m) by lia. reflexivity.
    + destruct (Ascii.eqb c "}") eqn:Eclose; inversion H; subst.
      split; [ lia | ]. intros [ | m ] Hm; [ lia | ].
      cbn [JSON.parseMembers].
      rewrite Hskip0, Eq, Hkey, Hskip1, Ecolon. cbn [negb].
      rewrite (Hfuel1 m) by lia. rewrite Hskip, Ecomma, Eclose. reflexivity.
Qed.

(** [parse] returns what the reader finds on any fuel: if the text reads
    as [v], up to trailing white space, with some fuel, then [JSON.parse]
    returns [v]. *)
Lemma parse_any_fuel (n : nat) (text rest : string) (v : value) :
  JSON.parseValue n text = Some (v, rest) ->
  JSON.skipSpace rest = EmptyString ->
  JSON.parse text = Some v.
Proof.
  intros Hread Hrest.
  destruct (parse_fuel n) as (Hv & _ & _).
  destruct (Hv _ _ _ Hread) as [_ Hfuel].
  unfold JSON.parse. rewrite (Hfuel (S (String.length text))) by lia.
  rewrite Hrest. reflexivity.
Qed.

(* ================================================================= *)
(** * Saving and loading *)

(** C6, as amended.  For every state of plain data (no [undefined] and no
    non-finite number inside) that the validation accepts, over a store
    that takes the write and can be read, [save] returns [true] without a
    diagnostic and the next [load] returns that very state. *)
Theorem save_then_load (s : value) (ls : localStorage) :
  StorageService.isValidState s = true ->
  plainData s = true ->
  writeFault ls = None ->
  readFault ls = None ->
  exists ls',
    StorageService.save s ls = (true, ls', []) /\
    StorageService.load ls' = (s, []).
Proof.
  intros Hvalid Hplain Hwrite Hread.
  destruct (parse_stringify s Hplain) as (t & Hs & Hparse).
  exists (StorageService.setItem ls (JSON.stringify s)). split.
  - unfold StorageService.save. rewrite Hvalid, Hwrite. reflexivity.
  - unfold StorageService.load, StorageService.setItem.
    cbn [readFault slot]. rewrite Hread, Hs, Hparse, Hvalid. reflexivity.
Qed.

Lemma save_then_load_witness :
  exists ls',
    StorageService.save duplicateState emptyStore = (true, ls', []) /\
    StorageService.load ls' = (duplicateState, []).
Proof.
  apply (save_then_load duplicateState emptyStore); reflexivity.
Defined.

(** C6 as stated fails: a state with one more property, holding [NaN],
    passes the validation and is saved, and what [load] returns differs
    from it. *)
Lemma save_then_load_loses_NaN :
  StorageService.isValidState noteState = true /\
  StorageService.save noteState emptyStore
  = (true, StorageService.setItem emptyStore (JSON.stringify noteState), []) /\
  fst (StorageService.load
         (StorageService.setItem emptyStore (JSON.stringify noteState)))
  <> noteState.
Proof.
  split; [ reflexivity | split; [ reflexivity | ] ].
  vm_compute. discriminate.
Qed.

(** A task created at [NaN] is accepted and saved with [createdAt] written
    as [null]; the saved payload then fails the validation, and [load]
    returns the default state. *)
Example save_then_load_drops_tasks :
  StorageService.isValidState nanTaskState = true /\
  fst (fst (StorageService.save nanTaskState emptyStore)) = true /\
  fst (StorageService.load (snd (fst (StorageService.save nanTaskState emptyStore))))
  = StorageService.getDefaultState.
Proof.
  split; [ reflexivity | split; [ reflexivity | ] ].
  vm_compute. reflexivity.
Qed.

(* ================================================================= *)
(** * Scenarios of the specification *)

(** Scenario A: from the default state, [addTask("Buy milk")] leaves one
    task, not completed, with a non-empty id. *)
Example scenario_A :
  State.addTask sampleEnv (VStr "Buy milk") readyWorld
  = State.Return
      (VObj [("id", VStr "task-1709123456789-abc123");
             ("title", VStr "Buy milk");
             ("completed", VBool false);
             ("createdAt", VNum (Int 1709123456790))])
      (after (State.addTask sampleEnv (VStr "Buy milk") readyWorld))
  /\ prop (State.state (after (State.addTask sampleEnv (VStr "Buy milk") readyWorld)))
          "tasks"
     = VArr [VObj [("id", VStr "task-1709123456789-abc123");
                   ("title", VStr "Buy milk");
                   ("completed", VBool false);
                   ("createdAt", VNum (Int 1709123456790))]].
Proof. split; vm_compute; reflexivity. Qed.

(** Scenario C: a task is added and deleted again. *)
Example scenario_C :
  let w := after (State.deleteTask laterEnv idOfA
                    (after (State.addTask sampleEnv (VStr "A") readyWorld))) in
  prop (State.state w) "tasks" = VArr [] /\
  State.getActiveTaskCount w = Some 0.
Proof. split; vm_compute; reflexivity. Qed.

(** Scenario F: [setFilter("bogus")] throws and changes nothing. *)
Example scenario_F :
  State.setFilter (VStr "bogus") worldAB
  = State.Throw "Invalid filter value" worldAB.
Proof. reflexivity. Qed.

(** Toggling a task twice brings [completed] back. *)
Example toggle_twice :
  prop (State.state worldToggled) "tasks" = VArr [taskA true; taskB] /\
  prop (State.state (after (State.toggleTaskCompleted laterEnv idOfA worldToggled)))
       "tasks"
  = VArr [taskA false; taskB].
Proof. split; vm_compute; reflexivity. Qed.

(** An unknown id is reported and changes nothing. *)
Example toggle_unknown_id :
  State.toggleTaskCompleted laterEnv (VStr "task-0-none") worldAB
  = State.Throw "Task not found" worldAB.
Proof. reflexivity. Qed.

(* ================================================================= *)
(** * The task operations in detail *)

Lemma typedTask_get (task : value) (k : string) :
  typedTask task -> get task k = Some (prop task k).
Proof.
  intros ([fs ->] & _). reflexivity.
Qed.

Lemma findIndexFrom_indexOfId (taskId : value) (tasks : list value) (i : nat) :
  Forall typedTask tasks ->
  findIndexFrom (State.hasId taskId) i tasks = Some (indexOfId taskId i tasks).
Proof.
  intros Hall. revert i. induction Hall as [ | task rest Htask _ IH ]; intros i.
  - reflexivity.
  - cbn [findIndexFrom indexOfId]. unfold State.hasId at 1.
    rewrite (typedTask_get task "id" Htask).
    destruct (strict_eq (prop task "id") taskId); [ reflexivity | apply IH ].
Qed.

Lemma filterBy_hasOtherId (taskId : value) (tasks : list value) :
  Forall typedTask tasks ->
  filterBy (State.hasOtherId taskId) tasks
  = Some (filter (hasOtherIdb taskId) tasks).
Proof.
  induction 1 as [ | task rest Htask _ IH ]; [ reflexivity | ].
  cbn [filterBy filter]. unfold State.hasOtherId at 1.
  rewrite (typedTask_get task "id" Htask), IH. reflexivity.
Qed.

Lemma indexOfId_none (taskId : value) (tasks : list value) (i : nat) :
  indexOfId taskId i tasks = None <->
  Forall (fun task => strict_eq (prop task "id") taskId = false) tasks.
Proof.
  revert i. induction tasks as [ | task rest IH ]; intros i; simpl.
  - split; [ constructor | reflexivity ].
  - destruct (strict_eq (prop task "id") taskId) eqn:Hid.
    + split; [ discriminate | ]. intros H. inversion H. congruence.
    + rewrite IH. split; intros H.
      * constructor; assumption.
      * inversion H; assumption.
Qed.

Lemma indexOfId_middle (taskId : value) (before after : list value) (task : value)
      (i : nat) :
  strict_eq (prop task "id") taskId = true ->
  Forall (fun t => strict_eq (prop t "id") taskId = false) before ->
  indexOfId taskId i (before ++ task :: after) = Some (i + List.length before).
Proof.
  intros Hid Hbefore. revert i.
  induction Hbefore as [ | t rest Ht _ IH ]; intros i; simpl.
  - rewrite Hid. f_equal. lia.
  - rewrite Ht, IH. f_equal. lia.
Qed.

Lemma setIndex_middle (before after : list value) (old new : value) :
  setIndex (List.length before) new (before ++ old :: after)
  = before ++ new :: after.
Proof.
  induction before as [ | x before IH ]; simpl; [ reflexivity | ].
  rewrite IH. reflexivity.
Qed.

Lemma nth_middle_value (before after : list value) (x : value) :
  nth (List.length before) (before ++ x :: after) VUndefined = x.
Proof.
  induction before as [ | y before IH ]; simpl; [ reflexivity | exact IH ].
Qed.

Lemma acceptableTitle_valid (s : string) :
  acceptableTitle s ->
  Validators.validateTaskTitle (VStr s)
  = {| Validators.isValid := true; Validators.message := EmptyString |}.
Proof.
  intros [Hmin Hmax]. unfold Validators.validateTaskTitle.
  unfold Validators.MIN_TITLE_LENGTH, Validators.MAX_TITLE_LENGTH.
  destruct (Nat.ltb_spec (String.length (trim s)) 1) as [H | _]; [ lia | ].
  destruct (Nat.ltb_spec 100 (String.length (trim s))) as [H | _]; [ lia | ].
  destruct (matchesOnlyWhitespace s) eqn:Hws; [ | reflexivity ].
  exfalso. destruct s as [ | c s ]; [ discriminate | ].
  unfold matchesOnlyWhitespace in Hws. apply trim_empty in Hws.
  rewrite Hws in Hmin. simpl in Hmin. lia.
Qed.

(** What the three operations on tasks return and leave, when they go
    through. *)
Lemma addTask_returns (e : State.env) (s : string) (w : State.world) (tasks : list value) :
  acceptableTitle s ->
  prop (State.state w) "tasks" = VArr tasks ->
  State.addTask e (VStr s) w
  = State.Return (newTaskOf e s)
      (State.dispatch
         (State.persistState
            (State.notifySubscribers
               (State.withState w
                  (State.stamp
                     (assign "tasks" (VArr (tasks ++ [newTaskOf e s]))
                             (ownProps (State.state w)))
                     (State.now e 2)))))
         "task:created" (VObj [("task", newTaskOf e s)])).
Proof.
  intros Htitle Htasks. unfold State.addTask.
  rewrite (acceptableTitle_valid s Htitle). cbn [Validators.isValid negb].
  rewrite (prop_get _ _ _ Htasks) by discriminate. reflexivity.
Qed.

Lemma toggleTaskCompleted_returns (e : State.env) (taskId : value) (w : State.world)
      (before after : list value) (task : value) :
  prop (State.state w) "tasks" = VArr (before ++ task :: after) ->
  Forall typedTask (before ++ task :: after) ->
  strict_eq (prop task "id") taskId = true ->
  Forall (fun t => strict_eq (prop t "id") taskId = false) before ->
  State.toggleTaskCompleted e taskId w
  = State.Return (VBool (negb (truthy (prop task "completed"))))
      (State.dispatch
         (State.persistState
            (State.notifySubscribers
               (State.withState w
                  (State.stamp
                     (assign "tasks" (VArr (before ++ toggled task :: after))
                             (ownProps (State.state w)))
                     (State.now e 0)))))
         "task:updated" (VObj [("task", toggled task)])).
Proof.
  intros Htasks Htyped Hid Hbefore. unfold State.toggleTaskCompleted.
  rewrite (prop_get _ _ _ Htasks) by discriminate.
  unfold findIndex. rewrite findIndexFrom_indexOfId by assumption.
  rewrite (indexOfId_middle taskId before after task 0) by assumption.
  cbn [Nat.add].
  rewrite nth_middle_value, setIndex_middle. reflexivity.
Qed.

Lemma state_after_mutation (w : State.world) (s : value) (name : string) (detail : value) :
  State.state
    (State.dispatch
       (State.persistState (State.notifySubscribers (State.withState w s)))
       name detail)
  = s.
Proof. rewrite state_dispatch, state_persist, state_notify. reflexivity. Qed.

Lemma subscribers_persist (w : State.world) :
  State.subscribers (State.persistState w) = State.subscribers w.
Proof.
  unfold State.persistState.
  destruct (StorageService.save (State.state w) (State.storage w)) as [[ok ls] evs].
  reflexivity.
Qed.

Lemma prop_ownProps_object (s : value) (k : string) (tasks : list value) :
  prop s "tasks" = VArr tasks -> prop (VObj (ownProps s)) k = prop s k.
Proof.
  intros Htasks. destruct (prop_tasks_object _ _ Htasks) as [fs ->]. reflexivity.
Qed.

(** X1.  [addTask] with a title of 1 to 100 characters after trimming
    returns a new task carrying the trimmed title, [completed] [false], the
    generated id and the creation time; the task is appended after the
    existing ones, the filter and the subscribers stay, and all this
    whatever the store does with the save. *)
Theorem addTask_appends (e : State.env) (s : string) (w : State.world)
        (tasks : list value) :
  acceptableTitle s ->
  prop (State.state w) "tasks" = VArr tasks ->
  exists w',
    State.addTask e (VStr s) w = State.Return (newTaskOf e s) w' /\
    prop (State.state w') "tasks" = VArr (tasks ++ [newTaskOf e s]) /\
    prop (State.state w') "filter" = prop (State.state w) "filter" /\
    State.subscribers w' = State.subscribers w.
Proof.
  intros Htitle Htasks. eexists.
  split; [ apply addTask_returns; eassumption | ].
  rewrite state_after_mutation.
  split; [ | split ].
  - rewrite prop_stamp_other by discriminate. apply prop_assign_same.
  - rewrite prop_stamp_other by discriminate.
    rewrite prop_assign_other by discriminate.
    eapply prop_ownProps_object; eassumption.
  - unfold State.dispatch, State.emit. cbn [State.subscribers].
    rewrite subscribers_persist. reflexivity.
Qed.

Lemma addTask_appends_witness :
  exists w',
    State.addTask sampleEnv (VStr "  Buy milk ") readyWorld
    = State.Return (newTaskOf sampleEnv "  Buy milk ") w' /\
    prop (State.state w') "tasks" = VArr ([] ++ [newTaskOf sampleEnv "  Buy milk "]) /\
    prop (State.state w') "filter" = prop (State.state readyWorld) "filter" /\
    State.subscribers w' = State.subscribers readyWorld.
Proof.
  apply (addTask_appends sampleEnv "  Buy milk " readyWorld []).
  - split; vm_compute; lia.
  - reflexivity.
Defined.

Lemma toggled_props (task : value) :
  typedTask task ->
  prop (toggled task) "completed" = VBool (negb (truthy (prop task "completed"))) /\
  forall k, k <> "completed" -> prop (toggled task) k = prop task k.
Proof.
  intros ([fs ->] & _). unfold toggled. cbn [ownProps]. split.
  - apply prop_assign_same.
  - intros k Hk. apply prop_assign_other. assumption.
Qed.

(** X2.  [toggleTaskCompleted(id)] changes the first task carrying that id
    and no other: in the new state it is replaced, in place, by a task
    whose [completed] is negated and whose other properties are the same;
    the call returns the new [completed], and the filter stays. *)
Theorem toggleTaskCompleted_flips_first (e : State.env) (taskId : value)
        (w : State.world) (before after : list value) (task : value) :
  prop (State.state w) "tasks" = VArr (before ++ task :: after) ->
  Forall typedTask (before ++ task :: after) ->
  strict_eq (prop task "id") taskId = true ->
  Forall (fun t => strict_eq (prop t "id") taskId = false) before ->
  exists w' task',
    State.toggleTaskCompleted e taskId w
    = State.Return (VBool (negb (truthy (prop task "completed")))) w' /\
    prop (State.state w') "tasks" = VArr (before ++ task' :: after) /\
    prop task' "completed" = VBool (negb (truthy (prop task "completed"))) /\
    (forall k, k <> "completed" -> prop task' k = prop task k) /\
    prop (State.state w') "filter" = prop (State.state w) "filter".
Proof.
  intros Htasks Htyped Hid Hbefore.
  assert (Htask : typedTask task).
  { apply Forall_app in Htyped. destruct Htyped as [_ H].
    exact (Forall_inv H). }
  eexists. exists (toggled task).
  split;
    [ apply (toggleTaskCompleted_returns e taskId w before after task); assumption
    | ].
  rewrite state_after_mutation.
  destruct (toggled_props task Htask) as [Hcompleted Hother].
  split; [ | split; [ exact Hcompleted | split; [ exact Hother | ] ] ].
  - rewrite prop_stamp_other by discriminate. apply prop_assign_same.
  - rewrite prop_stamp_other by discriminate.
    rewrite prop_assign_other by discriminate.
    eapply prop_ownProps_object; eassumption.
Qed.

Lemma toggleTaskCompleted_flips_first_witness :
  exists w' task',
    State.toggleTaskCompleted laterEnv idOfA worldAB
    = State.Return (VBool true) w' /\
    prop (State.state w') "tasks" = VArr ([] ++ task' :: [taskB]) /\
    prop task' "completed" = VBool true /\
    (forall k, k <> "completed" -> prop task' k = prop (taskA false) k) /\
    prop (State.state w') "filter" = prop (State.state worldAB) "filter".
Proof.
  apply (toggleTaskCompleted_flips_first laterEnv idOfA worldAB [] [taskB] (taskA false)).
  - reflexivity.
  - repeat constructor; try (eexists; reflexivity).
  - reflexivity.
  - constructor.
Defined.

Lemma assign_assign (k : string) (v v' : value) (fs : list (string * value)) :
  assign k v (assign k v' fs) = assign k v fs.
Proof.
  induction fs as [ | [k0 v0] rest IH ]; simpl.
  - rewrite String.eqb_refl. reflexivity.
  - destruct (String.eqb k k0) eqn:Hk; simpl.
    + rewrite String.eqb_refl. reflexivity.
    + rewrite Hk, IH. reflexivity.
Qed.

Lemma assign_lookup (k : string) (v : value) (fs : list (string * value)) :
  lookup k fs = Some v -> assign k v fs = fs.
Proof.
  induction fs as [ | [k0 v0] rest IH ]; simpl; [ discriminate | ].
  destruct (String.eqb_spec k k0) as [-> | Hne].
  - intros H. inversion H. reflexivity.
  - intros H. rewrite IH by assumption. reflexivity.
Qed.

Lemma toggled_toggled (task : value) : typedTask task -> toggled (toggled task) = task.
Proof.
  intros ([fs ->] & _ & _ & Hcompleted & _).
  unfold toggled at 2. cbn [ownProps].
  assert (Hlookup : exists c, lookup "completed" fs = Some (VBool c)).
  { unfold prop in Hcompleted. simpl in Hcompleted.
    destruct (lookup "completed" fs) as [[ | | c | | | | ] | ]; try discriminate.
    exists c. reflexivity. }
  destruct Hlookup as [c Hlookup].
  unfold toggled. rewrite prop_assign_same. cbn [ownProps truthy].
  rewrite assign_assign.
  unfold prop. simpl. rewrite Hlookup. cbn [truthy].
  rewrite Bool.negb_involutive. rewrite assign_lookup by assumption. reflexivity.
Qed.

Lemma typedTask_toggled_task (task : value) : typedTask task -> typedTask (toggled task).
Proof. apply typedTask_toggled. Qed.

Lemma Forall_middle (P : value -> Prop) (before after : list value) (x y : value) :
  Forall P (before ++ x :: after) -> P y -> Forall P (before ++ y :: after).
Proof.
  intros Hall Hy. apply Forall_app in Hall. destruct Hall as [Hb Ha].
  apply Forall_app. split; [ assumption | ].
  constructor; [ assumption | exact (Forall_inv_tail Ha) ].
Qed.

Lemma prop_tasks_after_mutation (w : State.world) (tasks : list value) (t : Z)
      (name : string) (detail : value) :
  prop (State.state
          (State.dispatch
             (State.persistState
                (State.notifySubscribers
                   (State.withState w
                      (State.stamp (assign "tasks" (VArr tasks)
                                           (ownProps (State.state w))) t))))
             name detail)) "tasks"
  = VArr tasks.
Proof.
  rewrite state_after_mutation, prop_stamp_other by discriminate.
  apply prop_assign_same.
Qed.

(** X3.  Toggling the same task twice gives back the task list as it was:
    the second call returns the original [completed], and [tasks] of the
    resulting state is [tasks] of the state before the first call. *)
Theorem toggleTaskCompleted_twice (e1 e2 : State.env) (taskId : value)
        (w : State.world) (before after : list value) (task : value) :
  prop (State.state w) "tasks" = VArr (before ++ task :: after) ->
  Forall typedTask (before ++ task :: after) ->
  strict_eq (prop task "id") taskId = true ->
  Forall (fun t => strict_eq (prop t "id") taskId = false) before ->
  exists w1 w2 c,
    prop task "completed" = VBool c /\
    State.toggleTaskCompleted e1 taskId w = State.Return (VBool (negb c)) w1 /\
    State.toggleTaskCompleted e2 taskId w1 = State.Return (VBool c) w2 /\
    prop (State.state w2) "tasks" = prop (State.state w) "tasks".
Proof.
  intros Htasks Htyped Hid Hbefore.
  assert (Htask : typedTask task).
  { apply Forall_app in Htyped. destruct Htyped as [_ H]. exact (Forall_inv H). }
  assert (Hc : exists c, prop task "completed" = VBool c).
  { destruct Htask as (_ & _ & _ & H & _).
    destruct (prop task "completed"); try discriminate. eexists. reflexivity. }
  destruct Hc as [c Hc].
  destruct (toggled_props task Htask) as [Hcompleted Hother].
  pose proof (toggleTaskCompleted_returns e1 taskId w before after task
                Htasks Htyped Hid Hbefore) as Hfirst.
  rewrite Hc in Hfirst. cbn [truthy] in Hfirst.
  eexists. eexists. exists c.
  split; [ exact Hc | split; [ exact Hfirst | ] ].
  match type of Hfirst with
  | _ = State.Return _ ?w1 =>
      pose proof (toggleTaskCompleted_returns e2 taskId w1 before after (toggled task))
        as Hsecond
  end.
  rewrite prop_tasks_after_mutation in Hsecond.
  specialize (Hsecond eq_refl).
  specialize (Hsecond (Forall_middle _ _ _ _ _ Htyped (typedTask_toggled_task _ Htask))).
  rewrite (Hother "id") in Hsecond by discriminate.
  specialize (Hsecond Hid Hbefore).
  rewrite Hcompleted, Hc in Hsecond. cbn [truthy] in Hsecond.
  rewrite Bool.negb_involutive in Hsecond.
  split; [ exact Hsecond | ].
  rewrite prop_tasks_after_mutation.
  rewrite toggled_toggled by assumption. symmetry. exact Htasks.
Qed.

Lemma toggleTaskCompleted_twice_witness :
  exists w1 w2 c,
    prop (taskA false) "completed" = VBool c /\
    State.toggleTaskCompleted laterEnv idOfA worldAB
    = State.Return (VBool (negb c)) w1 /\
    State.toggleTaskCompleted sampleEnv idOfA w1 = State.Return (VBool c) w2 /\
    prop (State.state w2) "tasks" = prop (State.state worldAB) "tasks".
Proof.
  apply (toggleTaskCompleted_twice laterEnv sampleEnv idOfA worldAB [] [taskB]
           (taskA false)).
  - reflexivity.
  - repeat constructor; try (eexists; reflexivity).
  - reflexivity.
  - constructor.
Defined.

Lemma indexOfId_found (taskId : value) (tasks : list value) :
  (exists task, In task tasks /\ strict_eq (prop task "id") taskId = true) ->
  exists i, indexOfId taskId 0 tasks = Some i.
Proof.
  intros (task & Hin & Hid).
  destruct (indexOfId taskId 0 tasks) as [i | ] eqn:Hindex; [ eauto | ].
  apply indexOfId_none in Hindex. rewrite Forall_forall in Hindex.
  rewrite (Hindex task Hin) in Hid. discriminate.
Qed.

Lemma deleteTask_returns (e : State.env) (taskId : value) (w : State.world)
      (tasks : list value) (i : nat) :
  prop (State.state w) "tasks" = VArr tasks ->
  Forall typedTask tasks ->
  indexOfId taskId 0 tasks = Some i ->
  State.deleteTask e taskId w
  = State.Return VUndefined
      (State.dispatch
         (State.persistState
            (State.notifySubscribers
               (State.withState w
                  (State.stamp
                     (assign "tasks" (VArr (filter (hasOtherIdb taskId) tasks))
                             (ownProps (State.state w)))
                     (State.now e 0)))))
         "task:deleted" (VObj [("task", nth i tasks VUndefined)])).
Proof.
  intros Htasks Htyped Hindex. unfold State.deleteTask.
  rewrite (prop_get _ _ _ Htasks) by discriminate.
  unfold findIndex. rewrite findIndexFrom_indexOfId by assumption.
  rewrite Hindex, filterBy_hasOtherId by assumption. reflexivity.
Qed.

Lemma filter_shorter (taskId : value) (tasks : list value) :
  (exists task, In task tasks /\ strict_eq (prop task "id") taskId = true) ->
  List.length (filter (hasOtherIdb taskId) tasks) < List.length tasks.
Proof.
  intros (task & Hin & Hid).
  induction tasks as [ | t rest IH ]; [ destruct Hin | ].
  simpl. pose proof (filter_length_le (hasOtherIdb taskId) rest) as Hle.
  destruct Hin as [-> | Hin].
  - unfold hasOtherIdb at 1. rewrite Hid. simpl. lia.
  - specialize (IH Hin). destruct (hasOtherIdb taskId t); simpl; lia.
Qed.

(** X4.  [deleteTask(id)], when some task carries that id, leaves exactly
    the tasks with another id, in their order; the list gets shorter and
    the filter stays. *)
Theorem deleteTask_removes (e : State.env) (taskId : value) (w : State.world)
        (tasks : list value) :
  prop (State.state w) "tasks" = VArr tasks ->
  Forall typedTask tasks ->
  (exists task, In task tasks /\ strict_eq (prop task "id") taskId = true) ->
  exists w',
    State.deleteTask e taskId w = State.Return VUndefined w' /\
    prop (State.state w') "tasks" = VArr (filter (hasOtherIdb taskId) tasks) /\
    List.length (filter (hasOtherIdb taskId) tasks) < List.length tasks /\
    prop (State.state w') "filter" = prop (State.state w) "filter".
Proof.
  intros Htasks Htyped Hfound.
  destruct (indexOfId_found taskId tasks Hfound) as [i Hindex].
  eexists.
  split; [ apply (deleteTask_returns e taskId w tasks i); assumption | ].
  split; [ apply prop_tasks_after_mutation | ].
  split; [ apply filter_shorter; assumption | ].
  rewrite state_after_mutation, prop_stamp_other by discriminate.
  rewrite prop_assign_other by discriminate.
  eapply prop_ownProps_object; eassumption.
Qed.

Lemma deleteTask_removes_witness :
  exists w',
    State.deleteTask laterEnv idOfA worldAB = State.Return VUndefined w' /\
    prop (State.state w') "tasks" = VArr [taskB] /\
    1 < 2 /\
    prop (State.state w') "filter" = VStr "all".
Proof.
  apply (deleteTask_removes laterEnv idOfA worldAB [taskA false; taskB]).
  - reflexivity.
  - repeat constructor; try (eexists; reflexivity).
  - exists (taskA false). split; [ left; reflexivity | reflexivity ].
Defined.

(** X5.  With an id that no task carries, [toggleTaskCompleted] and
    [deleteTask] throw [Task not found] and leave everything as it was:
    state, subscribers, store and trace. *)
Theorem unknown_id_is_rejected (e : State.env) (taskId : value) (w : State.world)
        (tasks : list value) :
  prop (State.state w) "tasks" = VArr tasks ->
  Forall typedTask tasks ->
  Forall (fun task => strict_eq (prop task "id") taskId = false) tasks ->
  State.toggleTaskCompleted e taskId w = State.Throw "Task not found" w /\
  State.deleteTask e taskId w = State.Throw "Task not found" w.
Proof.
  intros Htasks Htyped Hnone.
  apply (indexOfId_none taskId tasks 0) in Hnone.
  unfold State.toggleTaskCompleted, State.deleteTask.
  rewrite (prop_get _ _ _ Htasks) by discriminate.
  unfold findIndex. rewrite findIndexFrom_indexOfId by assumption.
  rewrite Hnone. split; reflexivity.
Qed.

Lemma unknown_id_is_rejected_witness :
  State.toggleTaskCompleted laterEnv (VStr "task-0-none") worldAB
  = State.Throw "Task not found" worldAB /\
  State.deleteTask laterEnv (VStr "task-0-none") worldAB
  = State.Throw "Task not found" worldAB.
Proof.
  apply (unknown_id_is_rejected laterEnv (VStr "task-0-none") worldAB
           [taskA false; taskB]).
  - reflexivity.
  - repeat constructor; try (eexists; reflexivity).
  - repeat constructor.
Defined.

Lemma typedTask_newTaskOf (e : State.env) (s : string) : typedTask (newTaskOf e s).
Proof.
  split; [ eexists; reflexivity | repeat split; reflexivity ].
Qed.

Lemma filter_hasOtherIdb_all (taskId : value) (tasks : list value) :
  Forall (fun task => strict_eq (prop task "id") taskId = false) tasks ->
  filter (hasOtherIdb taskId) tasks = tasks.
Proof.
  induction 1 as [ | task rest Htask _ IH ]; simpl; [ reflexivity | ].
  unfold hasOtherIdb at 1. rewrite Htask, IH. reflexivity.
Qed.

(** X6.  Deleting the task that [addTask] has just returned gives back the
    task list as it was, provided no earlier task carried the generated
    id. *)
Theorem addTask_then_deleteTask (e e' : State.env) (s : string) (w : State.world)
        (tasks : list value) :
  acceptableTitle s ->
  prop (State.state w) "tasks" = VArr tasks ->
  Forall typedTask tasks ->
  Forall (fun task => strict_eq (prop task "id") (prop (newTaskOf e s) "id") = false)
         tasks ->
  exists w1 w2,
    State.addTask e (VStr s) w = State.Return (newTaskOf e s) w1 /\
    State.deleteTask e' (prop (newTaskOf e s) "id") w1 = State.Return VUndefined w2 /\
    prop (State.state w2) "tasks" = VArr tasks.
Proof.
  intros Htitle Htasks Htyped Hfresh.
  assert (Hnew : strict_eq (prop (newTaskOf e s) "id") (prop (newTaskOf e s) "id") = true).
  { unfold newTaskOf, prop. simpl. apply String.eqb_refl. }
  assert (Hindex : exists i,
             indexOfId (prop (newTaskOf e s) "id") 0 (tasks ++ [newTaskOf e s]) = Some i).
  { apply indexOfId_found. exists (newTaskOf e s). split; [ | exact Hnew ].
    apply in_or_app. right. left. reflexivity. }
  destruct Hindex as [i Hindex].
  eexists. eexists.
  split; [ apply addTask_returns; eassumption | ].
  split.
  - apply (deleteTask_returns e' _ _ (tasks ++ [newTaskOf e s]) i).
    + apply prop_tasks_after_mutation.
    + apply Forall_app. split; [ assumption | ].
      constructor; [ apply typedTask_newTaskOf | constructor ].
    + exact Hindex.
  - rewrite prop_tasks_after_mutation.
    rewrite filter_app, filter_hasOtherIdb_all by assumption.
    cbn [filter]. unfold hasOtherIdb. rewrite Hnew. cbn [negb].
    rewrite List.app_nil_r. reflexivity.
Qed.

Lemma addTask_then_deleteTask_witness :
  exists w1 w2,
    State.addTask laterEnv (VStr "B") (after (State.addTask sampleEnv (VStr "A") readyWorld))
    = State.Return (newTaskOf laterEnv "B") w1 /\
    State.deleteTask sampleEnv (prop (newTaskOf laterEnv "B") "id") w1
    = State.Return VUndefined w2 /\
    prop (State.state w2) "tasks" = VArr [taskA false].
Proof.
  apply (addTask_then_deleteTask laterEnv sampleEnv "B"
           (after (State.addTask sampleEnv (VStr "A") readyWorld)) [taskA false]).
  - split; vm_compute; lia.
  - reflexivity.
  - repeat constructor; try (eexists; reflexivity).
  - repeat constructor.
Defined.

Lemma typedTask_completed (tasks : list value) :
  Forall typedTask tasks ->
  Forall (fun task => exists b, prop task "completed" = VBool b) tasks.
Proof.
  intros Hall. eapply Forall_impl; [ | exact Hall ].
  intros task (_ & _ & _ & Hcompleted & _).
  destruct (prop task "completed"); try discriminate. eexists. reflexivity.
Qed.

(** After [setFilter(f)], [getFilteredTasks()] returns the tasks that [f]
    selects. *)
Lemma setFilter_then_getFilteredTasks (f : string) (w : State.world)
      (tasks : list value) :
  prop (State.state w) "tasks" = VArr tasks ->
  Forall typedTask tasks ->
  f = "all" \/ f = "active" \/ f = "completed" ->
  State.getFilteredTasks (after (State.setFilter (VStr f) w))
  = Some (VArr (filter (selectedBy f) tasks)).
Proof.
  intros Htasks Htyped Hf.
  assert (Hvalid : Validators.validateFilter (VStr f) = true).
  { destruct Hf as [-> | [-> | ->]]; reflexivity. }
  unfold State.setFilter. rewrite Hvalid. cbn [negb after].
  apply (getFilteredTasks_filter _ tasks f).
  - rewrite state_dispatch, state_notify. cbn [State.withState State.state].
    rewrite prop_assign_other by discriminate.
    rewrite (prop_ownProps_object _ _ _ Htasks). exact Htasks.
  - apply typedTask_completed. assumption.
  - rewrite state_dispatch, state_notify. cbn [State.withState State.state].
    apply prop_assign_same.
  - exact Hf.
Qed.

(** X7.  [getActiveTaskCount()] is the number of tasks that
    [getFilteredTasks()] returns once the filter is [active]. *)
Theorem getActiveTaskCount_matches_filter (w : State.world) (tasks : list value) :
  prop (State.state w) "tasks" = VArr tasks ->
  Forall typedTask tasks ->
  exists shown,
    State.getFilteredTasks (after (State.setFilter (VStr "active") w))
    = Some (VArr shown) /\
    State.getActiveTaskCount w = Some (List.length shown) /\
    List.length shown <= List.length tasks.
Proof.
  intros Htasks Htyped.
  pose proof (typedTask_completed tasks Htyped) as Hbool.
  exists (filter (completedIs false) tasks). split; [ | split ].
  - rewrite (setFilter_then_getFilteredTasks "active" w tasks) by tauto.
    reflexivity.
  - unfold State.getActiveTaskCount.
    rewrite (prop_get _ _ _ Htasks) by discriminate.
    rewrite filterBy_isActive by assumption. reflexivity.
  - apply filter_length_le.
Qed.

Lemma getActiveTaskCount_matches_filter_witness :
  exists shown,
    State.getFilteredTasks (after (State.setFilter (VStr "active") worldToggled))
    = Some (VArr shown) /\
    State.getActiveTaskCount worldToggled = Some (List.length shown) /\
    List.length shown <= 2.
Proof.
  apply (getActiveTaskCount_matches_filter worldToggled [taskA true; taskB]).
  - reflexivity.
  - repeat constructor; try (eexists; reflexivity).
Defined.

Lemma completedIs_exclusive (task : value) :
  (exists b, prop task "completed" = VBool b) ->
  completedIs true task = negb (completedIs false task).
Proof.
  intros [b Hb]. unfold completedIs. rewrite Hb. destruct b; reflexivity.
Qed.

Lemma filter_partition_length (p q : value -> bool) (l : list value) :
  Forall (fun x => q x = negb (p x)) l ->
  List.length (filter p l) + List.length (filter q l) = List.length l.
Proof.
  induction 1 as [ | x rest Hx _ IH ]; simpl; [ reflexivity | ].
  rewrite Hx. destruct (p x); simpl; lia.
Qed.

(** X8.  The [active] view and the [completed] view split the tasks: a
    task is in one of them exactly when it is in [tasks], it is never in
    both, and their lengths add up to the number of tasks. *)
Theorem active_and_completed_partition (w : State.world) (tasks : list value) :
  prop (State.state w) "tasks" = VArr tasks ->
  Forall typedTask tasks ->
  exists active completed,
    State.getFilteredTasks (after (State.setFilter (VStr "active") w))
    = Some (VArr active) /\
    State.getFilteredTasks (after (State.setFilter (VStr "completed") w))
    = Some (VArr completed) /\
    List.length active + List.length completed = List.length tasks /\
    (forall task, In task tasks <-> In task active \/ In task completed) /\
    (forall task, In task active -> In task completed -> False).
Proof.
  intros Htasks Htyped.
  pose proof (typedTask_completed tasks Htyped) as Hbool.
  exists (filter (completedIs false) tasks), (filter (completedIs true) tasks).
  split; [ rewrite (setFilter_then_getFilteredTasks "active" w tasks) by tauto;
           reflexivity | ].
  split; [ rewrite (setFilter_then_getFilteredTasks "completed" w tasks) by tauto;
           reflexivity | ].
  split; [ | split ].
  - apply filter_partition_length.
    eapply Forall_impl; [ | exact Hbool ]. apply completedIs_exclusive.
  - intros task. rewrite !filter_In. split.
    + intros Hin. rewrite Forall_forall in Hbool.
      rewrite (completedIs_exclusive task (Hbool task Hin)).
      destruct (completedIs false task); simpl; tauto.
    + tauto.
  - intros task Ha Hc. apply filter_In in Ha. apply filter_In in Hc.
    destruct Ha as [Hin Ha]. destruct Hc as [_ Hc].
    rewrite Forall_forall in Hbool.
    rewrite (completedIs_exclusive task (Hbool task Hin)), Ha in Hc. discriminate.
Qed.

Lemma active_and_completed_partition_witness :
  exists active completed,
    State.getFilteredTasks (after (State.setFilter (VStr "active") worldToggled))
    = Some (VArr active) /\
    State.getFilteredTasks (after (State.setFilter (VStr "completed") worldToggled))
    = Some (VArr completed) /\
    List.length active + List.length completed = 2 /\
    (forall task, In task [taskA true; taskB] <-> In task active \/ In task completed) /\
    (forall task, In task active -> In task completed -> False).
Proof.
  apply (active_and_completed_partition worldToggled [taskA true; taskB]).
  - reflexivity.
  - repeat constructor; try (eexists; reflexivity).
Defined.

(* ================================================================= *)
(** * The filter, the observers and the merge of [updateState] *)

Lemma validateFilter_recognised (filter : value) :
  Validators.validateFilter filter = true <-> recognisedFilter filter.
Proof. exact (includes_validFilters filter). Qed.

(** X9.  [setFilter] throws "Invalid filter value" and leaves the module as
    it was for every argument other than the three strings ['all'],
    ['active'] and ['completed']; for one of the three it returns, the
    filter of the state is the argument, every other property of the state
    reads as before, and the observers subscribed are the same. *)
Theorem setFilter_changes_only_filter (filter : value) (w : State.world) :
  (~ recognisedFilter filter ->
   State.setFilter filter w = State.Throw "Invalid filter value" w) /\
  (recognisedFilter filter ->
   exists w',
     State.setFilter filter w = State.Return VUndefined w' /\
     prop (State.state w') "filter" = filter /\
     (forall k, k <> "filter" ->
                prop (State.state w') k = prop (State.getState w) k) /\
     State.subscribers w' = State.subscribers w).
Proof.
  split; intros Hf; unfold State.setFilter.
  - destruct (Validators.validateFilter filter) eqn:Hv; [ | reflexivity ].
    exfalso. apply Hf. apply validateFilter_recognised. exact Hv.
  - apply validateFilter_recognised in Hf. rewrite Hf. cbn [negb].
    eexists. split; [ reflexivity | ].
    rewrite state_dispatch, state_notify. cbn [State.withState State.state].
    split; [ apply prop_assign_same | ].
    split; [ | reflexivity ].
    intros k Hk. apply prop_assign_other. exact Hk.
Qed.

(** X10.  Every state the module reaches from [init] by [addTask],
    [toggleTaskCompleted], [deleteTask] and [setFilter], whatever their
    arguments and whether they return or throw, is accepted by the
    validation of the storage service: [save] never refuses it as an
    invalid state. *)
Theorem reachable_state_passes_validation
        (guard : State.world -> State.env -> Prop) (w0 w : State.world) :
  reachable guard (State.init w0) w ->
  StorageService.isValidState (State.state w) = true.
Proof.
  intros Hreach. apply isValidState_typed.
  exact (reachable_typedState guard w0 w Hreach).
Qed.

Lemma reachable_state_passes_validation_witness :
  StorageService.isValidState (State.state worldActive) = true.
Proof.
  exact (reachable_state_passes_validation
           anyId (State.subscribe 1 (State.initial emptyStore)) worldActive
           reachable_worldActive).
Defined.

(** ** What observers are told *)

Lemma notifications_app (a b : list event) :
  notifications (a ++ b) = notifications a ++ notifications b.
Proof.
  induction a as [ | ev a IH ]; [ reflexivity | ].
  destruct ev; simpl; rewrite IH; reflexivity.
Qed.

Lemma notifications_map (s : value) (subs : list nat) :
  notifications (map (fun callback => Notified callback s) subs)
  = map (fun callback => (callback, s)) subs.
Proof. induction subs as [ | c subs IH ]; simpl; congruence. Qed.

Lemma notifications_handleStorageError (name : string) :
  notifications (StorageService.handleStorageError name) = [].
Proof.
  unfold StorageService.handleStorageError.
  destruct (String.eqb name "QuotaExceededError"); [ reflexivity | ].
  destruct (String.eqb name "SecurityError"); reflexivity.
Qed.

Lemma notifications_persist (w : State.world) :
  notifications (State.trace (State.persistState w))
  = notifications (State.trace w).
Proof.
  unfold State.persistState, StorageService.save.
  destruct (StorageService.isValidState (State.state w)); cbn [negb].
  - destruct (writeFault (State.storage w)) as [ name | ];
      cbn [State.trace negb]; rewrite notifications_app; cbn [notifications];
      rewrite ?notifications_app, ?notifications_handleStorageError;
      cbn [notifications app]; rewrite List.app_nil_r; reflexivity.
  - cbn [State.trace negb]. rewrite notifications_app. cbn [notifications app].
    rewrite List.app_nil_r. reflexivity.
Qed.

Lemma notifications_notify (w : State.world) :
  notifications (State.trace (State.notifySubscribers w))
  = notifications (State.trace w)
    ++ map (fun callback => (callback, State.getState w)) (State.subscribers w).
Proof.
  unfold State.notifySubscribers, State.emit. cbn [State.trace].
  rewrite notifications_app, notifications_map. reflexivity.
Qed.

Lemma notifications_dispatch (w : State.world) (name : string) (detail : value) :
  notifications (State.trace (State.dispatch w name detail))
  = notifications (State.trace w).
Proof.
  unfold State.dispatch, State.emit. cbn [State.trace].
  rewrite notifications_app. cbn [notifications]. apply List.app_nil_r.
Qed.

Lemma subscribers_dispatch (w : State.world) (name : string) (detail : value) :
  State.subscribers (State.dispatch w name detail) = State.subscribers w.
Proof. reflexivity. Qed.

(** The notifications of a change of state followed by a save and an
    event.  The state installed is an object, and the snapshot handed to
    the observers reads as that object, property by property. *)
Lemma notifications_mutation (w : State.world) (fields : list (string * value))
      (name : string) (detail : value) :
  let w' := State.dispatch
              (State.persistState
                 (State.notifySubscribers (State.withState w (VObj fields))))
              name detail in
  notifications (State.trace w')
  = notifications (State.trace w)
    ++ map (fun callback => (callback, State.state w')) (State.subscribers w)
  /\ State.subscribers w' = State.subscribers w.
Proof.
  cbv zeta. split.
  - rewrite notifications_dispatch, notifications_persist, notifications_notify.
    rewrite state_dispatch, state_persist, state_notify. reflexivity.
  - rewrite subscribers_dispatch, subscribers_persist. reflexivity.
Qed.

Lemma notifications_saved (w : State.world) (fields : list (string * value)) :
  let w' := State.persistState
              (State.notifySubscribers (State.withState w (VObj fields))) in
  notifications (State.trace w')
  = notifications (State.trace w)
    ++ map (fun callback => (callback, State.state w')) (State.subscribers w)
  /\ State.subscribers w' = State.subscribers w.
Proof.
  cbv zeta. split.
  - rewrite notifications_persist, notifications_notify.
    rewrite state_persist, state_notify. reflexivity.
  - rewrite subscribers_persist. reflexivity.
Qed.

(** What one call tells the observers. *)
Lemma run_notifications (c : call) (w : State.world) :
  match run c w with
  | State.Return _ w' =>
      notifications (State.trace w')
      = notifications (State.trace w)
        ++ map (fun callback => (callback, State.state w'))
               (State.subscribers w)
      /\ State.subscribers w' = State.subscribers w
  | State.Throw _ w' => w' = w
  end.
Proof.
  destruct c as [ e title | e taskId | e taskId | filter | e newState | e updates ];
    cbn [run].
  - unfold State.addTask.
    destruct (Validators.isValid (Validators.validateTaskTitle title));
      cbn [negb]; [ | reflexivity ].
    destruct title; try reflexivity.
    destruct (get (State.state w) "tasks") as [ tasks | ]; [ | reflexivity ].
    destruct (iterate tasks) as [ elems | ]; [ | reflexivity ].
    unfold State.stamp. apply notifications_mutation.
  - unfold State.toggleTaskCompleted.
    destruct (get (State.state w) "tasks") as [ [ | | | | | tasks | ] | ];
      try reflexivity.
    destruct (findIndex (State.hasId taskId) tasks) as [ [ i | ] | ];
      try reflexivity.
    unfold State.stamp. apply notifications_mutation.
  - unfold State.deleteTask.
    destruct (get (State.state w) "tasks") as [ [ | | | | | tasks | ] | ];
      try reflexivity.
    destruct (findIndex (State.hasId taskId) tasks) as [ [ i | ] | ];
      try reflexivity.
    destruct (filterBy (State.hasOtherId taskId) tasks) as [ kept | ];
      [ | reflexivity ].
    unfold State.stamp. apply notifications_mutation.
  - unfold State.setFilter.
    destruct (Validators.validateFilter filter); cbn [negb]; [ | reflexivity ].
    split; [ | reflexivity ].
    rewrite notifications_dispatch, notifications_notify.
    rewrite state_dispatch, state_notify. reflexivity.
  - unfold State.setState, State.stamp. apply notifications_saved.
  - unfold State.updateState, State.stamp. apply notifications_saved.
Qed.

(** X11.  A call of [addTask], [toggleTaskCompleted], [deleteTask],
    [setFilter], [setState] or [updateState] that returns has called every
    subscribed observer exactly once, in subscription order, and has called
    nobody else; the snapshot each observer is handed is the state the call
    leaves, property by property.  A call that throws has called no
    observer and has left the module as it was. *)
Theorem call_notifies_each_subscriber_once (c : call) (w : State.world) :
  match run c w with
  | State.Return _ w' =>
      notifications (State.trace w')
      = notifications (State.trace w)
        ++ map (fun callback => (callback, State.state w'))
               (State.subscribers w)
  | State.Throw _ w' =>
      w' = w
  end.
Proof.
  pose proof (run_notifications c w) as H.
  destruct (run c w) as [ r w' | err w' ]; [ apply H | exact H ].
Qed.

Lemma runAll_snoc (calls : list call) (c : call) (w : State.world) :
  runAll (calls ++ [c]) w = after (run c (runAll calls w)).
Proof. unfold runAll. rewrite fold_left_app. reflexivity. Qed.

(** Calls neither add nor remove observers, and tell only those
    subscribed. *)
Lemma runAll_notifications (calls : list call) (w : State.world) :
  State.subscribers (runAll calls w) = State.subscribers w /\
  exists later,
    notifications (State.trace (runAll calls w))
    = notifications (State.trace w) ++ later /\
    forall callback snapshot,
      In (callback, snapshot) later -> In callback (State.subscribers w).
Proof.
  induction calls as [ | c calls IH ] using rev_ind.
  - split; [ reflexivity | ]. exists []. split.
    + symmetry. apply List.app_nil_r.
    + intros callback snapshot [].
  - destruct IH as (Hsubs & later & Htrace & Hin).
    rewrite runAll_snoc.
    pose proof (run_notifications c (runAll calls w)) as Hrun.
    destruct (run c (runAll calls w)) as [ r w' | err w' ]; cbn [after].
    + destruct Hrun as (Hnote & Hsame). split; [ congruence | ].
      eexists. split.
      * rewrite Hnote, Htrace, <- List.app_assoc. reflexivity.
      * intros callback snapshot Hmem. apply in_app_or in Hmem.
        destruct Hmem as [ Hmem | Hmem ]; [ exact (Hin _ _ Hmem) | ].
        apply in_map_iff in Hmem. destruct Hmem as (cb & Heq & Hcb).
        inversion Heq; subst. rewrite <- Hsubs. exact Hcb.
    + subst w'. split; [ exact Hsubs | ]. exists later. split; assumption.
Qed.

(** X12.  Once the function returned by [subscribe(callback)] has been
    called, no sequence of calls of the state-changing operations calls
    [callback] again, however often it had been subscribed. *)
Theorem unsubscribed_observer_is_not_called
        (callback : nat) (calls : list call) (w : State.world) :
  exists later,
    notifications (State.trace (runAll calls (State.unsubscribe callback w)))
    = notifications (State.trace w) ++ later /\
    forall snapshot, ~ In (callback, snapshot) later.
Proof.
  destruct (runAll_notifications calls (State.unsubscribe callback w))
    as (_ & later & Htrace & Hin).
  exists later. split; [ exact Htrace | ].
  intros snapshot Hmem. apply Hin in Hmem.
  unfold State.unsubscribe in Hmem. cbn [State.subscribers] in Hmem.
  apply filter_In in Hmem. destruct Hmem as [_ Hne].
  rewrite Nat.eqb_refl in Hne. discriminate.
Qed.

(* ================================================================= *)
(** * What memory holds is what a reload finds *)

(** ** Plain data is kept by the operations *)

Lemma existsb_assign (k' k : string) (v : value) (fs : list (string * value)) :
  existsb (fun kv => String.eqb k' (fst kv)) (assign k v fs)
  = existsb (fun kv => String.eqb k' (fst kv)) fs || String.eqb k' k.
Proof.
  induction fs as [ | [k0 v0] rest IH ]; simpl.
  - apply orb_comm.
  - destruct (String.eqb_spec k k0) as [ -> | Hne ]; simpl.
    + destruct (String.eqb k' k0), (existsb _ rest); reflexivity.
    + rewrite IH. rewrite orb_assoc. reflexivity.
Qed.

Lemma distinctKeys_assign (k : string) (v : value) (fs : list (string * value)) :
  distinctKeys fs = true -> distinctKeys (assign k v fs) = true.
Proof.
  induction fs as [ | [k0 v0] rest IH ]; simpl; intros H.
  - reflexivity.
  - apply andb_true_iff in H. destruct H as [Hfresh Hrest].
    destruct (String.eqb_spec k k0) as [ -> | Hne ]; simpl.
    + rewrite Hfresh, Hrest. reflexivity.
    + rewrite existsb_assign, (IH Hrest).
      apply negb_true_iff in Hfresh. rewrite Hfresh.
      assert (Hk : String.eqb k0 k = false).
      { apply String.eqb_neq. congruence. }
      rewrite Hk. reflexivity.
Qed.

Lemma forallb_assign (P : value -> bool) (k : string) (v : value)
      (fs : list (string * value)) :
  forallb (fun kv => P (snd kv)) fs = true -> P v = true ->
  forallb (fun kv => P (snd kv)) (assign k v fs) = true.
Proof.
  intros Hall Hv. induction fs as [ | [k0 v0] rest IH ]; simpl in *.
  - rewrite Hv. reflexivity.
  - apply andb_true_iff in Hall. destruct Hall as [H0 Hrest].
    destruct (String.eqb k k0); simpl.
    + rewrite Hv, Hrest. reflexivity.
    + rewrite H0, (IH Hrest). reflexivity.
Qed.

Lemma plainData_assign (k : string) (v : value) (fs : list (string * value)) :
  plainData (VObj fs) = true -> plainData v = true ->
  plainData (VObj (assign k v fs)) = true.
Proof.
  rewrite !plainData_object. intros H Hv.
  apply andb_true_iff in H. destruct H as [Hkeys Hall].
  rewrite (distinctKeys_assign _ _ _ Hkeys).
  rewrite (forallb_assign plainData _ _ _ Hall Hv). reflexivity.
Qed.

Lemma plainData_lookup (k : string) (v : value) (fs : list (string * value)) :
  plainData (VObj fs) = true -> lookup k fs = Some v -> plainData v = true.
Proof.
  rewrite plainData_object. intros H Hk.
  apply andb_true_iff in H. destruct H as [_ Hall].
  induction fs as [ | [k0 v0] rest IH ]; simpl in *; [ discriminate | ].
  apply andb_true_iff in Hall. destruct Hall as [H0 Hrest].
  destruct (String.eqb k k0).
  - inversion Hk; subst. exact H0.
  - exact (IH Hrest Hk).
Qed.

Lemma plainData_tasks (s : value) (tasks : list value) :
  plainData s = true -> prop s "tasks" = VArr tasks ->
  forallb plainData tasks = true.
Proof.
  intros Hplain Htasks.
  destruct (prop_tasks_object _ _ Htasks) as [fs ->].
  unfold prop, get in Htasks.
  destruct (lookup "tasks" fs) as [ v | ] eqn:Hk; [ | discriminate ].
  subst v. exact (plainData_lookup _ _ _ Hplain Hk).
Qed.

Lemma plainData_stamp_tasks (fs : list (string * value)) (tasks : list value)
      (t : Z) :
  plainData (VObj fs) = true -> forallb plainData tasks = true ->
  plainData (State.stamp (assign "tasks" (VArr tasks) fs) t) = true.
Proof.
  intros Hfs Htasks. unfold State.stamp.
  apply plainData_assign; [ | reflexivity ].
  apply plainData_assign; assumption.
Qed.

Lemma forallb_Forall (P : value -> bool) (l : list value) :
  forallb P l = true <-> Forall (fun x => P x = true) l.
Proof.
  rewrite forallb_forall, Forall_forall. reflexivity.
Qed.

Lemma step_plainData (guard : State.world -> State.env -> Prop)
      (w w' : State.world) :
  step guard w w' -> typedState (State.state w) ->
  plainData (State.state w) = true -> plainData (State.state w') = true.
Proof.
  intros Hstep Htyped Hplain.
  pose proof Htyped as ([fs Hfs] & (tasks & Htasks & Hall) & Hfilter & Hsynced).
  pose proof (plainData_tasks _ _ Hplain Htasks) as Hplains.
  destruct Hstep as [ e title _ | e taskId | e taskId | filter ].
  - unfold State.addTask.
    destruct (negb (Validators.isValid (Validators.validateTaskTitle title)));
      [ exact Hplain | ].
    destruct title; try exact Hplain.
    rewrite (prop_get _ _ _ Htasks) by discriminate.
    cbn [iterate after]. rewrite state_dispatch, state_persist, state_notify.
    cbn [State.withState State.state]. rewrite Hfs in *. cbn [ownProps].
    apply plainData_stamp_tasks; [ exact Hplain | ].
    rewrite forallb_app, Hplains. reflexivity.
  - unfold State.toggleTaskCompleted.
    rewrite (prop_get _ _ _ Htasks) by discriminate.
    destruct (findIndex (State.hasId taskId) tasks) as [[i | ] | ];
      try exact Hplain.
    cbn [after]. rewrite state_dispatch, state_persist, state_notify.
    cbn [State.withState State.state]. rewrite Hfs in *. cbn [ownProps].
    apply plainData_stamp_tasks; [ exact Hplain | ].
    apply forallb_Forall.
    assert (Hboth : Forall (fun task => typedTask task /\ plainData task = true)
                           tasks).
    { apply forallb_Forall in Hplains. rewrite Forall_forall in *.
      intros task Hin. split; auto. }
    assert (Hnew : Forall (fun task => typedTask task /\ plainData task = true)
                          (setIndex i
                             (VObj (assign "completed"
                                      (VBool (negb (truthy (prop (nth i tasks VUndefined)
                                                                 "completed"))))
                                      (ownProps (nth i tasks VUndefined))))
                             tasks)).
    { apply Forall_setIndex; [ exact Hboth | ].
      intros [Ht Hp]. split; [ apply typedTask_toggled; exact Ht | ].
      destruct Ht as ([tf Htf] & _). rewrite Htf in *. cbn [ownProps].
      apply plainData_assign; [ exact Hp | reflexivity ]. }
    rewrite Forall_forall in *. intros task Hin. apply (Hnew task Hin).
  - unfold State.deleteTask.
    rewrite (prop_get _ _ _ Htasks) by discriminate.
    destruct (findIndex (State.hasId taskId) tasks) as [[i | ] | ];
      try exact Hplain.
    destruct (filterBy (State.hasOtherId taskId) tasks) as [kept | ] eqn:Hkept;
      [ | exact Hplain ].
    cbn [after]. rewrite state_dispatch, state_persist, state_notify.
    cbn [State.withState State.state]. rewrite Hfs in *. cbn [ownProps].
    apply plainData_stamp_tasks; [ exact Hplain | ].
    apply forallb_Forall.
    apply (Forall_filterBy _ _ _ _ Hkept). apply forallb_Forall. exact Hplains.
  - unfold State.setFilter.
    destruct (Validators.validateFilter filter) eqn:Hvalid; cbn [negb];
      [ | exact Hplain ].
    cbn [after]. rewrite state_dispatch, state_notify.
    cbn [State.withState State.state]. rewrite Hfs in *. cbn [ownProps].
    apply plainData_assign; [ exact Hplain | ].
    apply validateFilter_recognised in Hvalid.
    destruct Hvalid as [ -> | [ -> | -> ] ]; reflexivity.
Qed.

(** ** Saving and reading back *)

Lemma save_load (s : value) (ls : localStorage) :
  StorageService.isValidState s = true ->
  plainData s = true ->
  writeFault ls = None ->
  readFault ls = None ->
  StorageService.save s ls
  = (true, StorageService.setItem ls (JSON.stringify s), []) /\
  StorageService.load (StorageService.setItem ls (JSON.stringify s)) = (s, []).
Proof.
  intros Hvalid Hplain Hwrite Hread.
  destruct (parse_stringify s Hplain) as (t & Hs & Hparse). split.
  - unfold StorageService.save. rewrite Hvalid, Hwrite. reflexivity.
  - unfold StorageService.load, StorageService.setItem.
    cbn [readFault slot]. rewrite Hread, Hs, Hparse, Hvalid. reflexivity.
Qed.

Lemma storage_persist (w : State.world) :
  StorageService.isValidState (State.state w) = true ->
  writeFault (State.storage w) = None ->
  State.storage (State.persistState w)
  = StorageService.setItem (State.storage w) (JSON.stringify (State.state w)).
Proof.
  intros Hvalid Hwrite. unfold State.persistState, StorageService.save.
  rewrite Hvalid, Hwrite. reflexivity.
Qed.

(** The three operations that save: when one returns, the world it leaves
    is the one left by a change of state, the notification, the save and an
    event. *)
Lemma saving_call_shape (e : State.env) (arg r : value) (w w' : State.world) :
  State.addTask e arg w = State.Return r w' \/
  State.toggleTaskCompleted e arg w = State.Return r w' \/
  State.deleteTask e arg w = State.Return r w' ->
  exists s name detail,
    w' = State.dispatch
           (State.persistState (State.notifySubscribers (State.withState w s)))
           name detail /\
    In name ["task:created"; "task:updated"; "task:deleted"].
Proof.
  intros [ H | [ H | H ] ].
  - unfold State.addTask in H.
    destruct (Validators.isValid (Validators.validateTaskTitle arg));
      cbn [negb] in H; [ | discriminate ].
    destruct arg; try discriminate.
    destruct (get (State.state w) "tasks") as [ tasks | ]; [ | discriminate ].
    destruct (iterate tasks) as [ elems | ]; [ | discriminate ].
    inversion H. eexists _, _, _. split; [ reflexivity | simpl; auto ].
  - unfold State.toggleTaskCompleted in H.
    destruct (get (State.state w) "tasks") as [ [ | | | | | tasks | ] | ];
      try discriminate.
    destruct (findIndex (State.hasId arg) tasks) as [ [ i | ] | ];
      try discriminate.
    inversion H. eexists _, _, _. split; [ reflexivity | simpl; auto ].
  - unfold State.deleteTask in H.
    destruct (get (State.state w) "tasks") as [ [ | | | | | tasks | ] | ];
      try discriminate.
    destruct (findIndex (State.hasId arg) tasks) as [ [ i | ] | ];
      try discriminate.
    destruct (filterBy (State.hasOtherId arg) tasks) as [ kept | ];
      [ | discriminate ].
    inversion H. eexists _, _, _. split; [ reflexivity | simpl; auto ].
Qed.

Lemma saving_call_step (e : State.env) (arg r : value) (w w' : State.world) :
  State.addTask e arg w = State.Return r w' \/
  State.toggleTaskCompleted e arg w = State.Return r w' \/
  State.deleteTask e arg w = State.Return r w' ->
  step anyId w w'.
Proof.
  intros [ H | [ H | H ] ].
  - replace w' with (after (State.addTask e arg w)) by (rewrite H; reflexivity).
    apply step_addTask. exact I.
  - replace w' with (after (State.toggleTaskCompleted e arg w))
      by (rewrite H; reflexivity).
    apply step_toggleTaskCompleted.
  - replace w' with (after (State.deleteTask e arg w)) by (rewrite H; reflexivity).
    apply step_deleteTask.
Qed.

(** X13.  Over a store that can be written and read, in a module whose
    state is a well-shaped state of plain data (no [undefined] and no
    non-finite number inside), when [addTask], [toggleTaskCompleted] or
    [deleteTask] returns, the store holds the state the call leaves: a page
    that starts afresh on that store and calls [init] has that very state,
    [lastSynced] included. *)
Theorem reload_restores_state
        (w w' : State.world) (e : State.env) (arg r : value) :
  typedState (State.state w) ->
  plainData (State.state w) = true ->
  writeFault (State.storage w) = None ->
  readFault (State.storage w) = None ->
  State.addTask e arg w = State.Return r w' \/
  State.toggleTaskCompleted e arg w = State.Return r w' \/
  State.deleteTask e arg w = State.Return r w' ->
  State.state (State.init (State.initial (State.storage w'))) = State.state w'.
Proof.
  intros Htyped Hplain Hwrite Hread Hcall.
  pose proof (saving_call_step e arg r w w' Hcall) as Hstep.
  pose proof (step_plainData anyId w w' Hstep Htyped Hplain) as Hplain'.
  pose proof (step_typedState anyId w w' Hstep Htyped) as Htyped'.
  apply isValidState_typed in Htyped'.
  destruct (saving_call_shape e arg r w w' Hcall) as (s & name & detail & Hw' & _).
  assert (Hs : State.state w' = s).
  { rewrite Hw'. apply state_after_mutation. }
  rewrite Hs in *.
  assert (Hstore : State.storage w'
                   = StorageService.setItem (State.storage w) (JSON.stringify s)).
  { rewrite Hw'. unfold State.dispatch. cbn [State.emit State.storage].
    rewrite storage_persist; [ reflexivity | exact Htyped' | exact Hwrite ]. }
  rewrite state_init. cbn [State.initial State.storage]. rewrite Hstore.
  destruct (save_load s (State.storage w) Htyped' Hplain' Hwrite Hread) as [_ Hload].
  rewrite Hload. reflexivity.
Qed.

Lemma reload_restores_state_witness :
  State.state
    (State.init
       (State.initial
          (State.storage
             (after (State.toggleTaskCompleted laterEnv idOfA worldAB)))))
  = State.state (after (State.toggleTaskCompleted laterEnv idOfA worldAB)).
Proof.
  apply (reload_restores_state
           worldAB (after (State.toggleTaskCompleted laterEnv idOfA worldAB))
           laterEnv idOfA (VBool true)).
  - apply isValidState_typed. reflexivity.
  - reflexivity.
  - reflexivity.
  - reflexivity.
  - right. left. vm_compute. reflexivity.
Defined.

(** ** The merge of [updateState] *)

Lemma lookup_app (k : string) (a b : list (string * value)) :
  lookup k (a ++ b)
  = match lookup k a with
    | Some v => Some v
    | None => lookup k b
    end.
Proof.
  induction a as [ | [k0 v0] a IH ]; simpl; [ reflexivity | ].
  destruct (String.eqb k k0); [ reflexivity | exact IH ].
Qed.

(** In [{...a, ...b}] a key reads as [b] has it, at its last occurrence
    should the list name it twice, and else as [a] has it. *)
Lemma lookup_merge (k : string) (a b : list (string * value)) :
  lookup k (merge a b)
  = match lookup k (rev b) with
    | Some v => Some v
    | None => lookup k a
    end.
Proof.
  unfold merge. revert a. induction b as [ | [k0 v0] b IH ]; intros a.
  - reflexivity.
  - cbn [fold_left fst snd rev]. rewrite IH, lookup_app.
    destruct (lookup k (rev b)) as [ v | ]; [ reflexivity | ].
    cbn [lookup]. destruct (String.eqb_spec k k0) as [ -> | Hne ].
    + apply lookup_assign_same.
    + apply lookup_assign_other. exact Hne.
Qed.

(** X15.  [updateState(updates)] always returns.  Afterwards [lastSynced]
    is the clock reading, also when [updates] names [lastSynced]; every
    other property reads as [updates] has it when [updates] has it, and as
    the state had it before otherwise. *)
Theorem updateState_merges (e : State.env) (updates : value) (w : State.world) :
  exists w',
    State.updateState e updates w = State.Return VUndefined w' /\
    prop (State.state w') "lastSynced" = VNum (Int (State.now e 0)) /\
    forall k, k <> "lastSynced" ->
      prop (State.state w') k
      = match lookup k (rev (ownProps updates)) with
        | Some v => v
        | None => prop (State.getState w) k
        end.
Proof.
  eexists. split; [ reflexivity | ].
  rewrite state_persist, state_notify. cbn [State.withState State.state].
  split; [ apply prop_stamp_lastSynced | ].
  intros k Hk. rewrite (prop_stamp_other _ _ _ Hk).
  unfold prop at 1, get. rewrite lookup_merge.
  destruct (lookup k (rev (ownProps updates))) as [ v | ]; reflexivity.
Qed.

(* ================================================================= *)
(** * The validators and the identifiers *)

(** What [validateTaskTitle] lets through. *)
Lemma validateTaskTitle_valid (title : value) :
  Validators.isValid (Validators.validateTaskTitle title) = true ->
  exists s, title = VStr s /\ acceptableTitle s.
Proof.
  destruct title as [ | | b | n | s | l | fs ]; simpl; try discriminate.
  intros H. exists s. split; [ reflexivity | ].
  unfold Validators.MIN_TITLE_LENGTH, Validators.MAX_TITLE_LENGTH in H.
  destruct (Nat.ltb (String.length (trim s)) 1) eqn:Hmin; [ discriminate | ].
  destruct (Nat.ltb 100 (String.length (trim s))) eqn:Hmax; [ discriminate | ].
  apply Nat.ltb_ge in Hmin. apply Nat.ltb_ge in Hmax.
  split; assumption.
Qed.

(** X16.  [validateTaskTitle] accepts exactly the strings that, once
    trimmed, have between 1 and 100 characters; it accepts nothing that is
    not a string, and the message of an accepted title is empty. *)
Theorem validateTaskTitle_accepts_iff (title : value) :
  (Validators.isValid (Validators.validateTaskTitle title) = true <->
   exists s, title = VStr s /\ acceptableTitle s) /\
  (Validators.isValid (Validators.validateTaskTitle title) = true ->
   Validators.message (Validators.validateTaskTitle title) = EmptyString).
Proof.
  split; [ split | ].
  - apply validateTaskTitle_valid.
  - intros (s & -> & Hs). rewrite (acceptableTitle_valid s Hs). reflexivity.
  - intros H. destruct (validateTaskTitle_valid title H) as (s & -> & Hs).
    rewrite (acceptableTitle_valid s Hs). reflexivity.
Qed.

Lemma matchesOnlyWhitespace_trim (s : string) :
  matchesOnlyWhitespace s = true -> trim s = EmptyString.
Proof.
  intros H. apply trim_empty. destruct s; [ discriminate | exact H ].
Qed.

(** Of a string, [validateTaskTitle] says one of three things. *)
Lemma validateTaskTitle_string (s : string) :
  (String.length (trim s) < 1 /\
   Validators.validateTaskTitle (VStr s)
   = {| Validators.isValid := false;
        Validators.message := "Task cannot be empty" |}) \/
  (100 < String.length (trim s) /\
   Validators.validateTaskTitle (VStr s)
   = {| Validators.isValid := false;
        Validators.message := "Task title must be 100 characters or less" |}) \/
  (acceptableTitle s /\
   Validators.validateTaskTitle (VStr s)
   = {| Validators.isValid := true; Validators.message := EmptyString |}).
Proof.
  unfold Validators.validateTaskTitle.
  unfold Validators.MIN_TITLE_LENGTH, Validators.MAX_TITLE_LENGTH.
  destruct (Nat.ltb (String.length (trim s)) 1) eqn:Hmin.
  { left. apply Nat.ltb_lt in Hmin. split; [ exact Hmin | reflexivity ]. }
  destruct (Nat.ltb 100 (String.length (trim s))) eqn:Hmax.
  { right. left. apply Nat.ltb_lt in Hmax. split; [ exact Hmax | reflexivity ]. }
  right. right. apply Nat.ltb_ge in Hmin. apply Nat.ltb_ge in Hmax.
  destruct (matchesOnlyWhitespace s) eqn:Hws.
  - apply matchesOnlyWhitespace_trim in Hws. rewrite Hws in Hmin.
    simpl in Hmin. lia.
  - split; [ split; assumption | reflexivity ].
Qed.

(** X17.  The last check of [validateTaskTitle] never fires: no argument
    is answered with "Task cannot contain only whitespace".  A title made
    of white space only has already been answered with "Task cannot be
    empty", because the length check before it looks at the trimmed
    title. *)
Theorem whitespace_message_is_never_given (title : value) :
  Validators.message (Validators.validateTaskTitle title)
  <> "Task cannot contain only whitespace" /\
  (forall s, title = VStr s -> allWhiteSpace s = true ->
     Validators.validateTaskTitle title
     = {| Validators.isValid := false;
          Validators.message := "Task cannot be empty" |}).
Proof.
  split.
  - destruct title as [ | | b | n | s | l | fs ]; try (simpl; discriminate).
    destruct (validateTaskTitle_string s) as [ [_ ->] | [ [_ ->] | [_ ->] ] ];
      simpl; discriminate.
  - intros s -> Hws. apply trim_empty in Hws.
    destruct (validateTaskTitle_string s) as [ [_ H] | [ [Hlen _] | [[Hlen _] _] ] ].
    + exact H.
    + rewrite Hws in Hlen. simpl in Hlen. lia.
    + rewrite Hws in Hlen. simpl in Hlen. lia.
Qed.

(** ** [validateTaskObject] *)

Lemma prop_lookup (fs : list (string * value)) (k : string) (v : value) :
  prop (VObj fs) k = v -> v <> VUndefined -> lookup k fs = Some v.
Proof.
  unfold prop, get. destruct (lookup k fs) as [ x | ]; intros H Hv.
  - congruence.
  - congruence.
Qed.

Lemma hasProperty_prop (task : value) (k : string) (v : value) :
  prop task k = v -> v <> VUndefined -> Validators.hasProperty k task = true.
Proof.
  intros H Hv. destruct task as [ | | b | n | s | l | fs ];
    try (exfalso; apply Hv; symmetry; exact H).
  unfold Validators.hasProperty. rewrite (prop_lookup fs k v H Hv). reflexivity.
Qed.

Lemma taskInvariant_acceptableTitle (title : string) :
  trim title <> EmptyString /\ String.length (trim title) <= 100 <->
  acceptableTitle title.
Proof.
  unfold acceptableTitle. split; intros [H1 H2]; split; try assumption.
  - destruct (trim title); [ congruence | simpl; lia ].
  - intros Hempty. rewrite Hempty in H1. simpl in H1. lia.
Qed.

Lemma hasLengthZero_string (id : string) :
  Validators.hasLengthZero (VStr id) = false <-> id <> EmptyString.
Proof.
  destruct id; simpl; split; congruence.
Qed.

(** A task that meets the Task invariants passes [validateTaskObject]. *)
Lemma taskInvariant_validateTaskObject (task : value) :
  taskInvariant task -> Validators.validateTaskObject task = true.
Proof.
  intros (id & title & completed & createdAt
          & Hid & Hid' & Htitle & Htrim & Hlen & Hcompleted & Hcreated & Hpos).
  assert (Hobj : exists fs, task = VObj fs).
  { destruct task; try discriminate. eexists. reflexivity. }
  destruct Hobj as [fs ->].
  unfold Validators.validateTaskObject.
  rewrite (hasProperty_prop _ "id" _ Hid) by discriminate.
  rewrite (hasProperty_prop _ "title" _ Htitle) by discriminate.
  rewrite (hasProperty_prop _ "completed" _ Hcompleted) by discriminate.
  rewrite (hasProperty_prop _ "createdAt" _ Hcreated) by discriminate.
  rewrite Hid, Htitle, Hcompleted, Hcreated.
  assert (Hzero : Validators.hasLengthZero (VStr id) = false)
    by (apply hasLengthZero_string; exact Hid').
  rewrite Hzero.
  rewrite (acceptableTitle_valid title)
    by (apply taskInvariant_acceptableTitle; split; assumption).
  cbn. destruct (createdAt <=? 0)%Z eqn:Hle; [ | reflexivity ].
  apply Z.leb_le in Hle. lia.
Qed.

(** What [validateTaskObject] lets through. *)
Lemma validateTaskObject_true (task : value) :
  Validators.validateTaskObject task = true ->
  (exists fs, task = VObj fs) /\
  (exists id, prop task "id" = VStr id /\ id <> EmptyString) /\
  (exists title, prop task "title" = VStr title /\ acceptableTitle title) /\
  (exists completed, prop task "completed" = VBool completed) /\
  (exists n, prop task "createdAt" = VNum n /\
             Validators.notPositive (VNum n) = false).
Proof.
  unfold Validators.validateTaskObject. intros H.
  destruct (negb (truthy task) || negb (jstype_eqb (typeof task) TObject))
    eqn:Hobj; [ discriminate | ].
  destruct (negb (Validators.hasProperty "id" task)
            || negb (Validators.hasProperty "title" task)
            || negb (Validators.hasProperty "completed" task)
            || negb (Validators.hasProperty "createdAt" task)) eqn:Hhas;
    [ discriminate | ].
  destruct (negb (jstype_eqb (typeof (prop task "id")) TString)
            || Validators.hasLengthZero (prop task "id")) eqn:Hid;
    [ discriminate | ].
  destruct (negb (Validators.isValid
                    (Validators.validateTaskTitle (prop task "title"))))
    eqn:Htitle; [ discriminate | ].
  destruct (negb (jstype_eqb (typeof (prop task "completed")) TBoolean))
    eqn:Hcompleted; [ discriminate | ].
  destruct (negb (jstype_eqb (typeof (prop task "createdAt")) TNumber)
            || Validators.notPositive (prop task "createdAt")) eqn:Hcreated;
    [ discriminate | ].
  apply orb_false_iff in Hid. destruct Hid as [Hid Hzero].
  apply orb_false_iff in Hcreated. destruct Hcreated as [Hcreated Hpos].
  apply negb_false_iff in Hid, Htitle, Hcompleted, Hcreated.
  split.
  { apply orb_false_iff in Hhas. destruct Hhas as [_ Hhas].
    apply negb_false_iff in Hhas.
    destruct task; try discriminate. eexists. reflexivity. }
  split.
  { destruct (prop task "id") as [ | | b | n | id | l | fs' ]; try discriminate.
    exists id. split; [ reflexivity | ].
    apply hasLengthZero_string. exact Hzero. }
  split.
  { destruct (validateTaskTitle_valid _ Htitle) as (s & Hs & Hok).
    exists s. split; assumption. }
  split.
  { destruct (prop task "completed") as [ | | b | n | s | l | fs' ];
      try discriminate.
    exists b. reflexivity. }
  destruct (prop task "createdAt") as [ | | b | n | s | l | fs' ];
    try discriminate.
  exists n. split; [ reflexivity | exact Hpos ].
Qed.

(** Whatever is an object with these five facts passes
    [validateTaskObject]. *)
Lemma validateTaskObject_intro (fs : list (string * value)) (id title : string)
      (completed : bool) (n : number) :
  prop (VObj fs) "id" = VStr id -> id <> EmptyString ->
  prop (VObj fs) "title" = VStr title -> acceptableTitle title ->
  prop (VObj fs) "completed" = VBool completed ->
  prop (VObj fs) "createdAt" = VNum n ->
  Validators.notPositive (VNum n) = false ->
  Validators.validateTaskObject (VObj fs) = true.
Proof.
  intros Hid Hid' Htitle Hok Hcompleted Hcreated Hpos.
  unfold Validators.validateTaskObject.
  rewrite (hasProperty_prop _ "id" _ Hid) by discriminate.
  rewrite (hasProperty_prop _ "title" _ Htitle) by discriminate.
  rewrite (hasProperty_prop _ "completed" _ Hcompleted) by discriminate.
  rewrite (hasProperty_prop _ "createdAt" _ Hcreated) by discriminate.
  rewrite Hid, Htitle, Hcompleted, Hcreated, Hpos.
  assert (Hzero : Validators.hasLengthZero (VStr id) = false)
    by (apply hasLengthZero_string; exact Hid').
  rewrite Hzero, (acceptableTitle_valid title Hok). reflexivity.
Qed.

(** X18.  [validateTaskObject] accepts every task that meets the Task
    invariants of the data model; whatever it accepts also passes the
    storage service's [isValidTask]; a task it accepts whose [createdAt] is
    an integer meets the Task invariants; and it does not ask for an
    integer: a task it accepts is still accepted when its [createdAt] is
    replaced by [NaN], since [NaN <= 0] is false. *)
Theorem validateTaskObject_accepts (task : value) :
  (taskInvariant task -> Validators.validateTaskObject task = true) /\
  (Validators.validateTaskObject task = true ->
   StorageService.isValidTask task = true) /\
  (Validators.validateTaskObject task = true ->
   (exists z, prop task "createdAt" = VNum (Int z)) ->
   taskInvariant task) /\
  (Validators.validateTaskObject task = true ->
   Validators.validateTaskObject
     (VObj (assign "createdAt" (VNum NaN) (ownProps task))) = true).
Proof.
  split; [ apply taskInvariant_validateTaskObject | ].
  split; [ | split ].
  - intros H.
    destruct (validateTaskObject_true task H)
      as ([fs ->] & (id & Hid & _) & (title & Htitle & _) & (c & Hc) & (n & Hn & _)).
    unfold StorageService.isValidTask. rewrite Hid, Htitle, Hc, Hn. reflexivity.
  - intros H (z & Hz).
    destruct (validateTaskObject_true task H)
      as (_ & (id & Hid & Hid') & (title & Htitle & Hok) & (c & Hc) & (n & Hn & Hpos)).
    apply taskInvariant_acceptableTitle in Hok. destruct Hok as [Htrim Hlen].
    exists id, title, c, z. repeat split; try assumption.
    rewrite Hz in Hn. inversion Hn; subst n. simpl in Hpos.
    apply Z.leb_gt in Hpos. exact Hpos.
  - intros H.
    destruct (validateTaskObject_true task H)
      as ([fs ->] & (id & Hid & Hid') & (title & Htitle & Hok) & (c & Hc) & _).
    cbn [ownProps].
    apply (validateTaskObject_intro _ id title c NaN); try assumption.
    + rewrite prop_assign_other by discriminate. exact Hid.
    + rewrite prop_assign_other by discriminate. exact Htitle.
    + rewrite prop_assign_other by discriminate. exact Hc.
    + apply prop_assign_same.
    + reflexivity.
Qed.

(** ** The task that [addTask] creates *)

Lemma trimStart_head (s : string) :
  trimStart s = EmptyString \/
  exists c r, trimStart s = String c r /\ isWhiteSpace c = false.
Proof.
  induction s as [ | c s IH ]; simpl; [ left; reflexivity | ].
  destruct (isWhiteSpace c) eqn:Hc; [ exact IH | ].
  right. exists c, s. split; [ reflexivity | exact Hc ].
Qed.

Lemma trimEnd_head (c : ascii) (r : string) :
  isWhiteSpace c = false -> exists r', trimEnd (String c r) = String c r'.
Proof.
  intros Hc. simpl. rewrite Hc.
  destruct (trimEnd r); eexists; reflexivity.
Qed.

Lemma trimEnd_idempotent (s : string) : trimEnd (trimEnd s) = trimEnd s.
Proof.
  induction s as [ | c s IH ]; [ reflexivity | ].
  simpl. destruct (trimEnd s) as [ | c' kept ] eqn:Hkept.
  - destruct (isWhiteSpace c) eqn:Hc; [ reflexivity | ].
    simpl. rewrite Hc. reflexivity.
  - change (trimEnd (String c (String c' kept))) with
      (match trimEnd (String c' kept) with
       | EmptyString =>
           if isWhiteSpace c then EmptyString else String c EmptyString
       | String a b => String c (String a b)
       end).
    rewrite IH. reflexivity.
Qed.

Lemma trim_idempotent (s : string) : trim (trim s) = trim s.
Proof.
  unfold trim.
  destruct (trimStart_head s) as [ -> | (c & r & -> & Hc) ]; [ reflexivity | ].
  destruct (trimEnd_head c r Hc) as [r' Hr'].
  replace (trimStart (trimEnd (String c r))) with (trimEnd (String c r)).
  - apply trimEnd_idempotent.
  - rewrite Hr'. simpl. rewrite Hc. reflexivity.
Qed.

Lemma generateUniqueId_nonempty (t : Z) (r : string) :
  Utils.generateUniqueId t r <> EmptyString.
Proof. unfold Utils.generateUniqueId. simpl. discriminate. Qed.

Lemma taskInvariant_newTaskOf (e : State.env) (s : string) :
  acceptableTitle s -> (0 < State.now e 1)%Z -> taskInvariant (newTaskOf e s).
Proof.
  intros Hs Hnow.
  exists (Utils.generateUniqueId (State.now e 0) (State.randomSuffix e)),
         (trim s), false, (State.now e 1).
  apply taskInvariant_acceptableTitle in Hs. destruct Hs as [Htrim Hlen].
  rewrite trim_idempotent.
  repeat split; try reflexivity; try assumption.
  apply generateUniqueId_nonempty.
Qed.

(** What [addTask] returns when it returns. *)
Lemma addTask_returned (e : State.env) (title task : value) (w w' : State.world) :
  State.addTask e title w = State.Return task w' ->
  exists s, title = VStr s /\ acceptableTitle s /\ task = newTaskOf e s.
Proof.
  unfold State.addTask. intros H.
  destruct (Validators.isValid (Validators.validateTaskTitle title)) eqn:Hvalid;
    cbn [negb] in H; [ | discriminate ].
  destruct (validateTaskTitle_valid title Hvalid) as (s & -> & Hs).
  exists s. split; [ reflexivity | ]. split; [ exact Hs | ].
  destruct (get (State.state w) "tasks") as [ tasks | ]; [ | discriminate ].
  destruct (iterate tasks) as [ elems | ]; [ | discriminate ].
  inversion H. reflexivity.
Qed.

(** X19.  When the clock reads a positive time, the task that [addTask]
    returns meets the Task invariants of the data model (non-empty string
    id, trimmed title of 1 to 100 characters, [completed] false, positive
    integer [createdAt]), its title is the argument trimmed, and it passes
    [validateTaskObject], [validateTaskId] and the storage service's
    [isValidTask]. *)
Theorem addTask_creates_valid_task
        (e : State.env) (title task : value) (w w' : State.world) :
  (0 < State.now e 1)%Z ->
  State.addTask e title w = State.Return task w' ->
  taskInvariant task /\
  (exists s, title = VStr s /\ prop task "title" = VStr (trim s)) /\
  prop task "completed" = VBool false /\
  Validators.validateTaskObject task = true /\
  Validators.validateTaskId (prop task "id") = true /\
  StorageService.isValidTask task = true.
Proof.
  intros Hnow H.
  destruct (addTask_returned e title task w w' H) as (s & -> & Hs & ->).
  pose proof (taskInvariant_newTaskOf e s Hs Hnow) as Hinv.
  split; [ exact Hinv | ].
  split; [ exists s; split; reflexivity | ].
  split; [ reflexivity | ].
  split; [ apply taskInvariant_validateTaskObject; exact Hinv | ].
  split; [ | reflexivity ].
  unfold newTaskOf, Validators.validateTaskId. cbn [prop get lookup].
  unfold Utils.generateUniqueId. reflexivity.
Qed.

Lemma addTask_creates_valid_task_witness :
  taskInvariant (newTaskOf sampleEnv "  Buy milk  ") /\
  Validators.validateTaskObject (newTaskOf sampleEnv "  Buy milk  ") = true.
Proof.
  destruct (addTask_creates_valid_task
              sampleEnv (VStr "  Buy milk  ") (newTaskOf sampleEnv "  Buy milk  ")
              readyWorld
              (after (State.addTask sampleEnv (VStr "  Buy milk  ") readyWorld)))
    as (Hinv & _ & _ & Hobject & _).
  - reflexivity.
  - vm_compute. reflexivity.
  - split; assumption.
Defined.

(** ** Identifiers *)

Lemma endsNumber_dash (r : string) : endsNumber (String "-" r) = true.
Proof. reflexivity. Qed.

(** X20.  [generateUniqueId] builds different identifiers from different
    readings: two identifiers are equal only when both the timestamp and
    the random suffix are equal.  Every identifier is a non-empty string
    and so passes [validateTaskId]. *)
Theorem generateUniqueId_injective (t t' : Z) (r r' : string) :
  (Utils.generateUniqueId t r = Utils.generateUniqueId t' r' ->
   t = t' /\ r = r') /\
  Validators.validateTaskId (VStr (Utils.generateUniqueId t r)) = true.
Proof.
  split; [ | reflexivity ].
  unfold Utils.generateUniqueId. intros H.
  cbn [append] in H. inversion H as [Hrest].
  change ("-" ++ r)%string with (String "-" r) in Hrest.
  change ("-" ++ r')%string with (String "-" r') in Hrest.
  pose proof (parseNumber_decimal (String "-" r) (endsNumber_dash r) t) as Hleft.
  pose proof (parseNumber_decimal (String "-" r') (endsNumber_dash r') t') as Hright.
  rewrite Hrest in Hleft. rewrite Hleft in Hright.
  inversion Hright. split; reflexivity.
Qed.

(** X21.  [isEmptyOrWhitespace] is true of everything that is not a string,
    and of a string exactly when every character of it is white space;
    these are the strings that [validateTaskTitle] answers with "Task
    cannot be empty". *)
Theorem isEmptyOrWhitespace_agrees_with_validation (str : value) :
  (Utils.isEmptyOrWhitespace str = false <->
   exists s, str = VStr s /\ allWhiteSpace s = false) /\
  (forall s, str = VStr s ->
     (Utils.isEmptyOrWhitespace str = true <->
      Validators.message (Validators.validateTaskTitle str)
      = "Task cannot be empty")).
Proof.
  assert (Hstring : forall s,
             Utils.isEmptyOrWhitespace (VStr s) = allWhiteSpace s).
  { intros s. unfold Utils.isEmptyOrWhitespace.
    destruct (allWhiteSpace s) eqn:Hws.
    - apply trim_empty in Hws. rewrite Hws. reflexivity.
    - destruct (trim s) eqn:Htrim; [ | reflexivity ].
      apply trim_empty in Htrim. congruence. }
  split.
  - split.
    + destruct str as [ | | b | n | s | l | fs ]; try discriminate.
      rewrite Hstring. intros H. exists s. split; [ reflexivity | exact H ].
    + intros (s & -> & Hs). rewrite Hstring. exact Hs.
  - intros s ->. rewrite Hstring. split.
    + intros Hws. apply trim_empty in Hws.
      destruct (validateTaskTitle_string s)
        as [ [_ ->] | [ [Hlen _] | [[Hlen _] _] ] ].
      * reflexivity.
      * rewrite Hws in Hlen. simpl in Hlen. lia.
      * rewrite Hws in Hlen. simpl in Hlen. lia.
    + intros Hmsg.
      destruct (validateTaskTitle_string s)
        as [ [Hlen _] | [ [_ H] | [_ H] ] ].
      * apply trim_empty. destruct (trim s); [ reflexivity | simpl in Hlen; lia ].
      * rewrite H in Hmsg. simpl in Hmsg. discriminate.
      * rewrite H in Hmsg. simpl in Hmsg. discriminate.
Qed.

(* ================================================================= *)
(** * Failures of the store, and what the page shows *)

Lemma shown_app (a b : list event) :
  TodoApp.shown (a ++ b) = TodoApp.shown a ++ TodoApp.shown b.
Proof. apply flat_map_app. Qed.

Lemma shown_notified (s : value) (subs : list nat) :
  TodoApp.shown (map (fun callback => Notified callback s) subs) = [].
Proof. induction subs as [ | c subs IH ]; [ reflexivity | exact IH ]. Qed.

Lemma shown_handleStorageError (name : string) :
  TodoApp.shown (StorageService.handleStorageError name)
  = if String.eqb name "QuotaExceededError" then TodoApp.handleQuotaExceeded
    else TodoApp.handleStorageError.
Proof.
  unfold StorageService.handleStorageError.
  destruct (String.eqb name "QuotaExceededError"); [ reflexivity | ].
  destruct (String.eqb name "SecurityError"); reflexivity.
Qed.

Lemma shown_task_event (name : string) (detail : value) :
  In name ["task:created"; "task:updated"; "task:deleted"] ->
  TodoApp.shown [Dispatched name detail] = [].
Proof.
  intros [ <- | [ <- | [ <- | [] ] ] ]; reflexivity.
Qed.

(** X22.  When the store refuses the write during [addTask],
    [toggleTaskCompleted] or [deleteTask] in a module started by [init],
    the call still returns and the store is left as it was; the page shows
    exactly one notification for it: the warning that the storage limit is
    reached when the error is a [QuotaExceededError], and the notice that
    storage is unavailable for every other error. *)
Theorem failed_save_is_reported_once
        (w0 w w' : State.world) (e : State.env) (arg r : value) (name : string) :
  reachable anyId (State.init w0) w ->
  writeFault (State.storage w) = Some name ->
  State.addTask e arg w = State.Return r w' \/
  State.toggleTaskCompleted e arg w = State.Return r w' \/
  State.deleteTask e arg w = State.Return r w' ->
  State.storage w' = State.storage w /\
  exists added,
    State.trace w' = State.trace w ++ added /\
    In (SaveRequested (State.state w') false) added /\
    TodoApp.shown added
    = if String.eqb name "QuotaExceededError" then TodoApp.handleQuotaExceeded
      else TodoApp.handleStorageError.
Proof.
  intros Hreach Hwrite Hcall.
  assert (Hreach' : reachable anyId (State.init w0) w').
  { eapply reachable_step; [ exact Hreach | ].
    exact (saving_call_step e arg r w w' Hcall). }
  pose proof (reachable_typedState _ _ _ Hreach') as Hvalid.
  apply isValidState_typed in Hvalid.
  destruct (saving_call_shape e arg r w w' Hcall)
    as (s & event & detail & Hw' & Hevent).
  assert (Hs : State.state w' = s).
  { rewrite Hw'. apply state_after_mutation. }
  rewrite Hs in *. rewrite Hw'.
  unfold State.dispatch, State.persistState, State.notifySubscribers,
    State.emit, State.withState, StorageService.save.
  cbn [State.state State.storage State.trace State.subscribers].
  rewrite Hvalid, Hwrite. cbn [negb State.storage State.trace].
  split; [ reflexivity | ].
  eexists. split.
  { rewrite <- !List.app_assoc. reflexivity. }
  split.
  { apply in_or_app. right. apply in_or_app. left. left. reflexivity. }
  rewrite !shown_app. unfold State.getState. cbn [State.state].
  rewrite shown_notified.
  change (SaveRequested s false
            :: StorageService.handleStorageError name
               ++ [ConsoleWarn "Failed to persist state to LocalStorage"])
    with ([SaveRequested s false]
            ++ StorageService.handleStorageError name
               ++ [ConsoleWarn "Failed to persist state to LocalStorage"]).
  rewrite !shown_app, shown_handleStorageError.
  rewrite (shown_task_event event detail Hevent).
  cbn [TodoApp.shown flat_map TodoApp.windowListeners app].
  repeat rewrite List.app_nil_r. reflexivity.
Qed.

Lemma failed_save_is_reported_once_witness :
  State.storage (after (State.addTask sampleEnv (VStr "A") readyWorldFullStore))
  = fullStore /\
  exists added,
    State.trace (after (State.addTask sampleEnv (VStr "A") readyWorldFullStore))
    = State.trace readyWorldFullStore ++ added /\
    TodoApp.shown added = TodoApp.handleQuotaExceeded.
Proof.
  destruct (failed_save_is_reported_once
              (State.subscribe 1 (State.initial fullStore)) readyWorldFullStore
              (after (State.addTask sampleEnv (VStr "A") readyWorldFullStore))
              sampleEnv (VStr "A") (newTaskOf sampleEnv "A") "QuotaExceededError")
    as (Hstore & added & Htrace & _ & Hshown).
  - apply reachable_start.
  - reflexivity.
  - left. vm_compute. reflexivity.
  - split; [ exact Hstore | ]. exists added. split; [ exact Htrace | exact Hshown ].
Defined.

(** X23.  After a [clear] that returns [true] the entry is gone: [load]
    returns the default empty state, and a module that calls [init] over
    the store has no tasks.  When removing the entry raises, [clear] returns
    [false], logs the failure and leaves the store as it was. *)
Theorem clear_then_load (ls : localStorage) :
  (exists ls',
     StorageService.clear None ls = (true, ls', []) /\
     fst (StorageService.load ls') = StorageService.getDefaultState /\
     prop (State.state (State.init (State.initial ls'))) "tasks" = VArr []) /\
  (forall name,
     StorageService.clear (Some name) ls
     = (false, ls, [ConsoleError "Failed to clear LocalStorage:"])).
Proof.
  split; [ | reflexivity ].
  eexists. split; [ reflexivity | ].
  assert (Hload : forall ls0,
             slot ls0 = None ->
             fst (StorageService.load ls0) = StorageService.getDefaultState).
  { intros ls0 Hslot. rewrite load_cases, Hslot.
    destruct (readFault ls0); reflexivity. }
  split.
  - apply Hload. reflexivity.
  - rewrite state_init. cbn [State.initial State.storage].
    rewrite Hload by reflexivity. reflexivity.
Qed.

(* ================================================================= *)
(** * The array that [getFilteredTasks] returns *)

Lemma nth_error_replace_other (l l' : Heap.loc) (c : Heap.cell) (h : Heap.heap) :
  l <> l' -> nth_error (Heap.replace l' c h) l = nth_error h l.
Proof.
  revert l l'. induction h as [ | c0 h IH ]; intros l l' Hne.
  - destruct l'; reflexivity.
  - destruct l' as [ | l' ], l as [ | l ]; simpl; try reflexivity.
    + congruence.
    + apply IH. congruence.
Qed.

Lemma push_fresh (h : Heap.heap) (c : Heap.cell) (x : Heap.hvalue) (l : Heap.loc) :
  l < List.length h ->
  nth_error (Heap.push (h ++ [c]) (Heap.HRef (List.length h)) x) l
  = nth_error h l.
Proof.
  intros Hl. unfold Heap.push. rewrite nth_error_alloc.
  destruct c as [ frozen fs | elems ].
  - apply nth_error_app1. exact Hl.
  - rewrite nth_error_replace_other by lia. apply nth_error_app1. exact Hl.
Qed.

Lemma arrayFilter_fresh (h h' : Heap.heap) (want : bool) (tasks r : Heap.hvalue) :
  Heap.arrayFilter h want tasks = Some (h', r) ->
  r = Heap.HRef (List.length h) /\ exists c, h' = h ++ [c].
Proof.
  unfold Heap.arrayFilter. intros H.
  destruct tasks as [ | | b | n | s | l ]; try discriminate.
  destruct (nth_error h l) as [ [ frozen fs | elems ] | ]; try discriminate.
  destruct (Heap.filterTasks h want elems) as [ kept | ]; [ | discriminate ].
  unfold Heap.alloc in H. inversion H. split; [ reflexivity | ].
  eexists. reflexivity.
Qed.

(** X24.  Under the filters [active] and [completed], [getFilteredTasks]
    returns an array of its own: whatever is pushed onto the result, every
    object and array that existed before the call is as it was.  Under
    every other filter the result is the module's own [tasks] array, and
    nothing is allocated. *)
Theorem getFilteredTasks_array_identity
        (h h' : Heap.heap) (state tasks filter r : Heap.hvalue) :
  Heap.field h state "tasks" = Some tasks ->
  Heap.field h state "filter" = Some filter ->
  Heap.getFilteredTasks h state = Some (h', r) ->
  if Heap.isString filter "active" || Heap.isString filter "completed"
  then forall x l, l < List.length h ->
                   nth_error (Heap.push h' r x) l = nth_error h l
  else h' = h /\ r = tasks.
Proof.
  intros Htasks Hfilter H. unfold Heap.getFilteredTasks in H.
  rewrite Htasks, Hfilter in H.
  destruct (Heap.isString filter "active") eqn:Hactive; cbn [orb].
  - destruct (arrayFilter_fresh _ _ _ _ _ H) as (-> & c & ->).
    intros x l Hl. apply push_fresh. exact Hl.
  - destruct (Heap.isString filter "completed") eqn:Hcompleted.
    + destruct (arrayFilter_fresh _ _ _ _ _ H) as (-> & c & ->).
      intros x l Hl. apply push_fresh. exact Hl.
    + inversion H. split; reflexivity.
Qed.

Lemma getFilteredTasks_array_identity_witness :
  nth_error
    (Heap.push (activeHeap ++ [Heap.Arr [Heap.HRef 0]]) (Heap.HRef 3)
               (Heap.HStr "intruder")) 1
  = nth_error activeHeap 1.
Proof.
  pose proof (getFilteredTasks_array_identity
                activeHeap (activeHeap ++ [Heap.Arr [Heap.HRef 0]])
                sampleRoot (Heap.HRef 1) (Heap.HStr "active") (Heap.HRef 3)
                eq_refl eq_refl eq_refl) as H.
  cbn [Heap.isString orb] in H.
  apply (H (Heap.HStr "intruder") 1). simpl. lia.
Defined.

(* ================================================================= *)
(** * The form handler *)

(** X25.  What submitting the form does, in a module whose state holds an
    array of tasks.  For a text that has 1 to 100 characters once trimmed,
    the task is appended, and the input box and its error are cleared.  For
    every other text the module is left exactly as it was and one error
    message is shown, which is "Task cannot be empty" or "Task title must
    be 100 characters or less": the other messages of the validator are
    never shown by the form. *)
Theorem handleTaskSubmit_outcome
        (e : State.env) (title : string) (w : State.world) (tasks : list value) :
  prop (State.state w) "tasks" = VArr tasks ->
  (acceptableTitle title ->
   exists w',
     TodoApp.handleTaskSubmit e title w
     = (w', [TodoApp.ClearInput; TodoApp.ClearInputError]) /\
     prop (State.state w') "tasks" = VArr (tasks ++ [newTaskOf e title])) /\
  (~ acceptableTitle title ->
   exists message,
     TodoApp.handleTaskSubmit e title w = (w, [TodoApp.ShowInputError message]) /\
     (message = "Task cannot be empty" \/
      message = "Task title must be 100 characters or less")).
Proof.
  intros Htasks. unfold TodoApp.handleTaskSubmit. split.
  - intros Hok. rewrite (addTask_returns e title w tasks Hok Htasks).
    eexists. split; [ reflexivity | ].
    apply prop_tasks_after_mutation.
  - intros Hbad. unfold State.addTask.
    destruct (validateTaskTitle_string title)
      as [ [_ H] | [ [_ H] | [Hok _] ] ]; [ | | contradiction ];
      rewrite H; cbn [negb Validators.isValid Validators.message];
      eexists; (split; [ reflexivity | ]); [ left | right ]; reflexivity.
Qed.

Lemma handleTaskSubmit_outcome_witness :
  exists message,
    TodoApp.handleTaskSubmit sampleEnv "   " worldAB
    = (worldAB, [TodoApp.ShowInputError message]) /\
    (message = "Task cannot be empty" \/
     message = "Task title must be 100 characters or less").
Proof.
  destruct (handleTaskSubmit_outcome sampleEnv "   " worldAB
              [taskA false; taskB]) as [_ H].
  - vm_compute. reflexivity.
  - apply H. unfold acceptableTitle. simpl. lia.
Defined.

(* ================================================================= *)
(** * The theme *)

Lemma orLight_nonempty (a : option string) :
  String.eqb (ThemeManager.orLight a) EmptyString = false.
Proof.
  destruct a as [ s | ]; [ | reflexivity ].
  unfold ThemeManager.orLight, ThemeManager.present.
  destruct (String.eqb s EmptyString) eqn:Hs; [ reflexivity | exact Hs ].
Qed.

Lemma orLight_absent (a : option string) :
  ThemeManager.present a = false -> ThemeManager.orLight a = "light".
Proof.
  destruct a as [ s | ]; [ | reflexivity ].
  unfold ThemeManager.orLight. intros ->. reflexivity.
Qed.

(** X26.  [ThemeManager.init] never follows the system preference: the
    theme it applies is the same whether the system prefers dark or not,
    because [getSavedTheme] has already put [light] in the place of a
    missing entry.  On a first visit it applies [light]; the listener for a
    later change of the system preference, on the same page, does apply the
    system's theme. *)
Theorem init_ignores_system_preference (prefersDark : bool) (p : ThemeManager.page) :
  ThemeManager.init prefersDark p = ThemeManager.init (negb prefersDark) p /\
  (ThemeManager.storeFault p = None ->
   ThemeManager.present (ThemeManager.themeEntry p) = false ->
   ThemeManager.init prefersDark p
   = ThemeManager.Returned (ThemeManager.applyTheme "light" p) /\
   ThemeManager.systemThemeChanged true p
   = ThemeManager.Returned (ThemeManager.applyTheme "dark" p)).
Proof.
  assert (Hinit : forall b,
             ThemeManager.init b p
             = match ThemeManager.storeFault p with
               | Some _ => ThemeManager.Raised p
               | None =>
                   ThemeManager.Returned
                     (ThemeManager.applyTheme
                        (ThemeManager.orLight (ThemeManager.themeEntry p)) p)
               end).
  { intros b. unfold ThemeManager.init, ThemeManager.getSavedTheme.
    destruct (ThemeManager.storeFault p); [ reflexivity | ].
    rewrite orLight_nonempty. reflexivity. }
  split; [ rewrite !Hinit; reflexivity | ].
  intros Hfault Habsent. split.
  - rewrite Hinit, Hfault, (orLight_absent _ Habsent). reflexivity.
  - unfold ThemeManager.systemThemeChanged. rewrite Hfault, Habsent. reflexivity.
Qed.

(** X27.  Over a store that works, [toggleTheme] applies and saves the same
    theme: [light] when the page was dark and [dark] in every other case;
    and when the page is loaded again, [init] applies the theme that was
    saved, whatever the system prefers.  Over a store that raises,
    [toggleTheme] has changed the theme of the page before the exception
    leaves it, and nothing is saved. *)
Theorem toggleTheme_persists (p : ThemeManager.page) :
  (ThemeManager.storeFault p = None ->
   exists theme p',
     ThemeManager.toggleTheme p = ThemeManager.Returned p' /\
     theme = (if String.eqb (ThemeManager.orLight (ThemeManager.dataTheme p)) "dark"
              then "light" else "dark") /\
     ThemeManager.dataTheme p' = Some theme /\
     ThemeManager.themeEntry p' = Some theme /\
     forall prefersDark,
       ThemeManager.init prefersDark (ThemeManager.reloaded p')
       = ThemeManager.Returned
           (ThemeManager.applyTheme theme (ThemeManager.reloaded p'))) /\
  (ThemeManager.storeFault p <> None ->
   exists p',
     ThemeManager.toggleTheme p = ThemeManager.Raised p' /\
     ThemeManager.dataTheme p' <> ThemeManager.dataTheme p /\
     ThemeManager.themeEntry p' = ThemeManager.themeEntry p).
Proof.
  split.
  - intros Hfault. unfold ThemeManager.toggleTheme, ThemeManager.saveTheme.
    cbn [ThemeManager.applyTheme ThemeManager.storeFault].
    rewrite Hfault. eexists _, _.
    split; [ reflexivity | ]. split; [ reflexivity | ].
    split; [ reflexivity | ]. split; [ reflexivity | ].
    intros prefersDark.
    unfold ThemeManager.init, ThemeManager.getSavedTheme, ThemeManager.reloaded.
    cbn [ThemeManager.storeFault ThemeManager.themeEntry ThemeManager.dataTheme
         ThemeManager.applyTheme].
    unfold ThemeManager.DARK_THEME, ThemeManager.LIGHT_THEME.
    destruct (String.eqb (ThemeManager.orLight (ThemeManager.dataTheme p)) "dark");
      reflexivity.
  - intros Hfault. unfold ThemeManager.toggleTheme, ThemeManager.saveTheme.
    cbn [ThemeManager.applyTheme ThemeManager.storeFault].
    destruct (ThemeManager.storeFault p) as [ name | ]; [ | congruence ].
    eexists. split; [ reflexivity | ].
    split; [ | reflexivity ].
    cbn [ThemeManager.dataTheme].
    unfold ThemeManager.DARK_THEME, ThemeManager.LIGHT_THEME.
    destruct (String.eqb_spec (ThemeManager.orLight (ThemeManager.dataTheme p))
                              "dark") as [ Hdark | Hother ].
    + intros Heq. rewrite <- Heq in Hdark. simpl in Hdark. discriminate.
    + intros Heq. rewrite <- Heq in Hother. apply Hother. reflexivity.
Qed.

(* ================================================================= *)
(** * The snapshot that [getState] returns *)

(** X28.  [getState] returns an object of its own, different from the
    state object and from every object that existed before: each of its
    properties reads as the property of the state does, references
    included; assigning to a property of the snapshot changes nothing, and
    every object and array of the module is as it was before the call. *)
Theorem getState_snapshot_is_fresh_and_frozen
        (h : Heap.heap) (l : Heap.loc) (frozen : bool)
        (fs : list (string * Heap.hvalue)) (k : string) (x : Heap.hvalue) :
  nth_error h l = Some (Heap.Obj frozen fs) ->
  snd (Heap.getState h (Heap.HRef l)) = Heap.HRef (List.length h) /\
  l < List.length h /\
  Heap.field (fst (Heap.getState h (Heap.HRef l)))
             (snd (Heap.getState h (Heap.HRef l))) k
  = Heap.field h (Heap.HRef l) k /\
  Heap.write (fst (Heap.getState h (Heap.HRef l)))
             (snd (Heap.getState h (Heap.HRef l))) k x
  = fst (Heap.getState h (Heap.HRef l)) /\
  (forall l', l' < List.length h ->
              nth_error (fst (Heap.getState h (Heap.HRef l))) l' = nth_error h l').
Proof.
  intros Hcell. split; [ reflexivity | ].
  split.
  { apply nth_error_Some. rewrite Hcell. discriminate. }
  split; [ exact (snapshot_shares_fields h l frozen fs k Hcell) | ].
  split; [ apply snapshot_is_frozen | ].
  intros l' Hl'. unfold Heap.getState, Heap.alloc. cbn [fst].
  apply nth_error_app1. exact Hl'.
Qed.

Lemma getState_snapshot_is_fresh_and_frozen_witness :
  snd (Heap.getState sampleHeap sampleRoot) = Heap.HRef 3 /\
  Heap.write (fst (Heap.getState sampleHeap sampleRoot))
             (snd (Heap.getState sampleHeap sampleRoot))
             "filter" (Heap.HStr "completed")
  = fst (Heap.getState sampleHeap sampleRoot).
Proof.
  destruct (getState_snapshot_is_fresh_and_frozen
              sampleHeap 2 false
              [("tasks", Heap.HRef 1); ("filter", Heap.HStr "all");
               ("lastSynced", Heap.HNull)]
              "filter" (Heap.HStr "completed") eq_refl)
    as (Hfresh & _ & _ & Hfrozen & _).
  split; [ exact Hfresh | exact Hfrozen ].
Defined.

(* ================================================================= *)
(** * An identifier drawn twice *)

(** The condition on [addTask] under which the ids stay unique cannot be
    dropped: when the id it draws is carried by a task already, the call
    returns all the same and leaves two tasks with that id. *)
Lemma addTask_reused_id_breaks_uniqueness
      (e : State.env) (s : string) (w : State.world) (tasks : list value) :
  acceptableTitle s ->
  prop (State.state w) "tasks" = VArr tasks ->
  In (VStr (Utils.generateUniqueId (State.now e 0) (State.randomSuffix e)))
     (taskIds tasks) ->
  ~ uniqueIds (State.state (after (State.addTask e (VStr s) w))).
Proof.
  intros Hok Htasks Hin (tasks' & Heq & Hnodup).
  rewrite (addTask_returns e s w tasks Hok Htasks) in Heq. cbn [after] in Heq.
  rewrite prop_tasks_after_mutation in Heq. inversion Heq; subst tasks'.
  unfold taskIds in Hnodup. rewrite map_app in Hnodup. cbn [map] in Hnodup.
  apply NoDup_remove_2 in Hnodup. apply Hnodup.
  rewrite List.app_nil_r. exact Hin.
Qed.
